(** * DeltaLakeReader: replay of the Delta transaction log

    A shallow embedding of [deltalake/deltatable.py] (class [DeltaTable])
    and the properties of its snapshot resolution.

    Conventions of the embedding.
    - Python [str] and [bytes] values are both [string] (a list of bytes);
      a [str] is represented by its UTF-8 encoding.
    - Python [int] is [Z]; [//] is [Z.div] (both round towards minus
      infinity for the positive divisor 10).
    - A Python [set] of strings is a [gset string] living in a store of
      mutable objects; a [DeltaTable] instance is a record in the same
      store, with one [option] per attribute that [__init__] may not have
      assigned yet.
    - The fsspec file system is a finite map from normalised paths to file
      contents. The code only reads from it.
    - An exception is a value of [exn]; a computation returns either an
      exception or a result, together with the store as it is then. *)

From Stdlib Require Import ZArith String Ascii List Lia.
From stdpp Require Import gmap strings sorting.

Local Open Scope string_scope.
Local Open Scope Z_scope.

(** ** Characters and decimal text *)

Module Text.

(** The ten ASCII digits. On a [str], [\d] and [int] also take the
    decimal digits of other scripts; the properties that read a version
    out of a path are stated for paths of ASCII bytes. *)
Definition is_digit (c : ascii) : bool :=
  let n := N_of_ascii c in ((48 <=? n) && (n <=? 57))%N.

(** Whitespace of [bytes.split()]: space, \t, \n, \v, \f, \r. *)
Definition is_space (c : ascii) : bool :=
  let n := N_of_ascii c in ((n =? 32) || ((9 <=? n) && (n <=? 13)))%N.

Definition digit_char (d : Z) : ascii := ascii_of_N (48 + Z.to_N d).

Definition digit_val (c : ascii) : Z := Z.of_N (N_of_ascii c) - 48.

(** [str(n)] for [0 <= n], most significant digit first. *)
Fixpoint str_digits (fuel : nat) (n : Z) (acc : string) : string :=
  match fuel with
  | O => acc
  | S fuel' =>
      let acc' := String (digit_char (n mod 10)) acc in
      if n / 10 =? 0 then acc' else str_digits fuel' (n / 10) acc'
  end.

Definition str_nonneg (n : Z) : string :=
  str_digits (S (Z.to_nat (Z.log2 n))) n "".

Fixpoint zeros (k : nat) : string :=
  match k with O => "" | S k' => String "0" (zeros k') end.

(** [s.rjust(w, '0')] *)
Definition zfill (w : nat) (s : string) : string :=
  zeros (w - String.length s) ++ s.

(** [f"{n:0w}"]: sign-aware zero padding to a total width of [w]; a number
    with more digits than [w] is printed in full. *)
Definition format_0w (w : nat) (n : Z) : string :=
  if n <? 0 then String "-" (zfill (w - 1) (str_nonneg (- n)))
  else zfill w (str_nonneg n).

(** [int(s)] on a string of ASCII decimal digits. *)
Fixpoint int_digits (s : string) (acc : Z) : Z :=
  match s with
  | "" => acc
  | String c s' => int_digits s' (10 * acc + digit_val c)
  end.

Definition int_of_digits (s : string) : Z := int_digits s 0.

Fixpoint all_digits (s : string) : bool :=
  match s with
  | "" => true
  | String c s' => is_digit c && all_digits s'
  end.

Fixpoint take (k : nat) (s : string) : string :=
  match k, s with
  | S k', String c s' => String c (take k' s')
  | _, _ => ""
  end.

(** The first element of [re.findall(r"(\d{20})", s)], if any: the
    leftmost run of twenty consecutive digits. *)
Fixpoint first_digits20 (s : string) : option string :=
  let w := take 20 s in
  if (String.length w =? 20)%nat && all_digits w then Some w
  else match s with
       | "" => None
       | String _ s' => first_digits20 s'
       end.

Fixpoint starts_with (p s : string) : bool :=
  match p, s with
  | "", _ => true
  | String a p', String b s' => Ascii.eqb a b && starts_with p' s'
  | String _ _, "" => false
  end.

Fixpoint drop (k : nat) (s : string) : string :=
  match k, s with
  | S k', String _ s' => drop k' s'
  | _, _ => s
  end.

Definition ends_with (q s : string) : bool :=
  (String.length q <=? String.length s)%nat
  && String.eqb (drop (String.length s - String.length q) s) q.

Fixpoint has_char (c : ascii) (s : string) : bool :=
  match s with
  | "" => false
  | String a s' => Ascii.eqb a c || has_char c s'
  end.

(** [bytes.split()] with no argument: the maximal runs of non-whitespace
    bytes, in order; no empty piece is produced. [cur] is the piece being
    read, reversed. *)
Fixpoint split_go (s : string) (cur : string) : list string :=
  match s with
  | "" => if String.eqb cur "" then [] else [String.rev cur]
  | String c s' =>
      if is_space c
      then (if String.eqb cur "" then split_go s' ""
            else String.rev cur :: split_go s' "")
      else split_go s' (String c cur)
  end.

Definition split (s : string) : list string := split_go s "".

End Text.

(** ** JSON text

    [json.loads] belongs to the Python standard library; this is a model
    of it on UTF-8 input without byte order mark (on bytes, [json.loads]
    first detects the encoding and decodes: bytes that are no UTF-8 raise
    [UnicodeDecodeError] there, and a byte order mark or UTF-16 and
    UTF-32 text is accepted; the model starts after that step). A lexer cuts the text
    into tokens and a recursive-descent parser builds the value. Three
    outcomes are kept apart: a value, [JSONDecodeError], and input that
    the model does not cover (a [\u] escape, or nesting deeper than the
    fuel, which is chosen so that it never runs out). *)

Module Json.
Import Text.

#[warnings="-register-all"]
Inductive json : Type :=
  | JNull
  | JBool (b : bool)
  | JInt (z : Z)
  | JFloat (lexeme : string)
  | JStr (s : string)
  | JArr (items : list json)
  | JObj (members : list (string * json)).

Inductive decoded (A : Type) : Type :=
  | Decoded (a : A)
  | DecodeError
  | Unmodelled.
Arguments Decoded {A} a.
Arguments DecodeError {A}.
Arguments Unmodelled {A}.

Inductive token : Type :=
  | TLBrace | TRBrace | TLBrack | TRBrack | TColon | TComma
  | TStr (s : string)
  | TInt (z : Z)
  | TFloat (lexeme : string)
  | TLit (v : json).

Definition dquote : ascii := ascii_of_N 34.
Definition backslash : ascii := ascii_of_N 92.

(** Whitespace between JSON tokens: space, \t, \n, \r. *)
Definition is_json_ws (c : ascii) : bool :=
  let n := N_of_ascii c in ((n =? 32) || (n =? 9) || (n =? 10) || (n =? 13))%N.

(** The body of a string, after its opening quote; [acc] is the text read
    so far, reversed. Control characters are refused (strict mode). *)
Fixpoint scan_string (s : string) (acc : string) : decoded (string * string) :=
  match s with
  | "" => DecodeError
  | String c s' =>
      if Ascii.eqb c dquote then Decoded (String.rev acc, s')
      else if Ascii.eqb c backslash then
        match s' with
        | "" => DecodeError
        | String e s'' =>
            let continue (x : ascii) := scan_string s'' (String x acc) in
            if Ascii.eqb e dquote then continue dquote
            else if Ascii.eqb e backslash then continue backslash
            else if Ascii.eqb e "/" then continue "/"%char
            else if Ascii.eqb e "b" then continue (ascii_of_N 8)
            else if Ascii.eqb e "f" then continue (ascii_of_N 12)
            else if Ascii.eqb e "n" then continue (ascii_of_N 10)
            else if Ascii.eqb e "r" then continue (ascii_of_N 13)
            else if Ascii.eqb e "t" then continue (ascii_of_N 9)
            else if Ascii.eqb e "u" then Unmodelled
            else DecodeError
        end
      else if (N_of_ascii c <? 32)%N then DecodeError
      else scan_string s' (String c acc)
  end.

(** The longest prefix of digits, and what follows it. *)
Fixpoint span_digits (s : string) : string * string :=
  match s with
  | String c s' =>
      if is_digit c
      then let '(ds, r) := span_digits s' in (String c ds, r)
      else ("", s)
  | "" => ("", "")
  end.

(** [(\.\d+)?] *)
Definition scan_frac (s : string) : string * string :=
  match s with
  | String "." s' =>
      let '(ds, r) := span_digits s' in
      if String.eqb ds "" then ("", s) else (String "." ds, r)
  | _ => ("", s)
  end.

(** [([eE][-+]?\d+)?] *)
Definition scan_exp (s : string) : string * string :=
  match s with
  | String e s' =>
      if Ascii.eqb e "e" || Ascii.eqb e "E" then
        let '(sign, s1) :=
          match s' with
          | String g s'' =>
              if Ascii.eqb g "+" || Ascii.eqb g "-"
              then (String g "", s'') else ("", s')
          | "" => ("", s')
          end in
        let '(ds, r) := span_digits s1 in
        if String.eqb ds "" then ("", s) else (String e (sign ++ ds), r)
      else ("", s)
  | "" => ("", s)
  end.

(** A number whose integer part [ip] (digits, no sign) has been read. *)
Definition scan_number_tail (neg : bool) (ip : string) (s : string)
  : token * string :=
  let '(fp, s1) := scan_frac s in
  let '(ep, s2) := scan_exp s1 in
  if String.eqb fp "" && String.eqb ep ""
  then (TInt (if neg then - int_of_digits ip else int_of_digits ip), s2)
  else (TFloat ((if neg then "-" else "") ++ ip ++ fp ++ ep), s2).

(** An optional sign, then [0] or a digit from 1 to 9 and more digits,
    then the optional parts; [s] starts after the sign. *)
Definition scan_number (neg : bool) (s : string) : decoded (token * string) :=
  match s with
  | String c s' =>
      if Ascii.eqb c "0" then Decoded (scan_number_tail neg "0" s')
      else if is_digit c then
        let '(ds, r) := span_digits s' in
        Decoded (scan_number_tail neg (String c ds) r)
      else DecodeError
  | "" => DecodeError
  end.

Definition scan_word (w : string) (t : token) (s : string)
  : decoded (token * string) :=
  if starts_with w s then Decoded (t, drop (String.length w) s)
  else DecodeError.

(** One token at the head of [s], which does not start with whitespace. *)
Definition scan_token (s : string) : decoded (token * string) :=
  match s with
  | "" => DecodeError
  | String c s' =>
      if Ascii.eqb c "{" then Decoded (TLBrace, s')
      else if Ascii.eqb c "}" then Decoded (TRBrace, s')
      else if Ascii.eqb c "[" then Decoded (TLBrack, s')
      else if Ascii.eqb c "]" then Decoded (TRBrack, s')
      else if Ascii.eqb c ":" then Decoded (TColon, s')
      else if Ascii.eqb c "," then Decoded (TComma, s')
      else if Ascii.eqb c dquote then
        match scan_string s' "" with
        | Decoded (str, r) => Decoded (TStr str, r)
        | DecodeError => DecodeError
        | Unmodelled => Unmodelled
        end
      else if Ascii.eqb c "t" then scan_word "true" (TLit (JBool true)) s
      else if Ascii.eqb c "f" then scan_word "false" (TLit (JBool false)) s
      else if Ascii.eqb c "n" then scan_word "null" (TLit JNull) s
      else if Ascii.eqb c "N" then scan_word "NaN" (TFloat "NaN") s
      else if Ascii.eqb c "I" then scan_word "Infinity" (TFloat "Infinity") s
      else if Ascii.eqb c "-" then
        if starts_with "Infinity" s'
        then scan_word "-Infinity" (TFloat "-Infinity") s
        else scan_number true s'
      else scan_number false s
  end.

(** The tokens of [s]. Every round consumes at least one byte, so a fuel
    of [S (length s)] is never used up. *)
Fixpoint tokens (fuel : nat) (s : string) : decoded (list token) :=
  match s with
  | "" => Decoded []
  | String c s' =>
      if is_json_ws c then
        match fuel with
        | O => Unmodelled
        | S fuel' => tokens fuel' s'
        end
      else
        match fuel with
        | O => Unmodelled
        | S fuel' =>
            match scan_token s with
            | Decoded (t, r) =>
                match tokens fuel' r with
                | Decoded ts => Decoded (t :: ts)
                | DecodeError => DecodeError
                | Unmodelled => Unmodelled
                end
            | DecodeError => DecodeError
            | Unmodelled => Unmodelled
            end
        end
  end.

(** One value at the head of the token list, and the tokens after it. *)
Fixpoint parse_value (fuel : nat) (ts : list token)
  : decoded (json * list token) :=
  match fuel with
  | O => Unmodelled
  | S fuel' =>
      match ts with
      | TLit v :: r => Decoded (v, r)
      | TStr s :: r => Decoded (JStr s, r)
      | TInt z :: r => Decoded (JInt z, r)
      | TFloat l :: r => Decoded (JFloat l, r)
      | TLBrack :: TRBrack :: r => Decoded (JArr [], r)
      | TLBrack :: r => parse_items fuel' r []
      | TLBrace :: TRBrace :: r => Decoded (JObj [], r)
      | TLBrace :: r => parse_members fuel' r []
      | _ => DecodeError
      end
  end
with parse_items (fuel : nat) (ts : list token) (acc : list json)
  : decoded (json * list token) :=
  match fuel with
  | O => Unmodelled
  | S fuel' =>
      match parse_value fuel' ts with
      | Decoded (v, TComma :: r) => parse_items fuel' r (v :: acc)
      | Decoded (v, TRBrack :: r) => Decoded (JArr (rev (v :: acc)), r)
      | Decoded _ => DecodeError
      | DecodeError => DecodeError
      | Unmodelled => Unmodelled
      end
  end
with parse_members (fuel : nat) (ts : list token) (acc : list (string * json))
  : decoded (json * list token) :=
  match fuel with
  | O => Unmodelled
  | S fuel' =>
      match ts with
      | TStr k :: TColon :: r =>
          match parse_value fuel' r with
          | Decoded (v, TComma :: r') => parse_members fuel' r' ((k, v) :: acc)
          | Decoded (v, TRBrace :: r') =>
              Decoded (JObj (rev ((k, v) :: acc)), r')
          | Decoded _ => DecodeError
          | DecodeError => DecodeError
          | Unmodelled => Unmodelled
          end
      | _ => DecodeError
      end
  end.

(** [json.loads(s)]: exactly one value, surrounded by optional whitespace. *)
Definition loads (s : string) : decoded json :=
  match tokens (S (String.length s)) s with
  | Decoded ts =>
      match parse_value (2 * List.length ts + 2) ts with
      | Decoded (v, []) => Decoded v
      | Decoded (_, _ :: _) => DecodeError
      | DecodeError => DecodeError
      | Unmodelled => Unmodelled
      end
  | DecodeError => DecodeError
  | Unmodelled => Unmodelled
  end.

(** A Python [dict] built from an object keeps, for a repeated key, the
    value given last. *)
Fixpoint dict_get (k : string) (members : list (string * json)) : option json :=
  match members with
  | [] => None
  | (k', v) :: rest =>
      match dict_get k rest with
      | Some v' => Some v'
      | None => if String.eqb k' k then Some v else None
      end
  end.

(** Text of a string literal whose content needs no escape. *)
Definition quoted (s : string) : string :=
  String dquote (s ++ String dquote "").

End Json.

(** ** The file system

    What [fsspec] shows of the storage: a finite map from paths to files.
    A file is either raw bytes or a Parquet checkpoint, kept as the rows
    that [pq.read_table(...).to_pandas()] yields. Of a row only the [add]
    column is read: [row_add] is [None] when [add] (or its [path]) is
    null. The map is keyed by the paths under which the file system
    lists and reads the files, and the paths the code makes from the
    table root are looked up as they stand: this is the local file system
    for a root that is a normalised absolute path free of glob
    metacharacters (for a relative root it is a file system that lists
    paths relative to where it is rooted). *)

Module Fs.
Import Text.

Record checkpoint_row : Type := { row_add : option string }.

Inductive file : Type :=
  | Bytes (data : string)
  | Parquet (rows : list checkpoint_row).

Abbreviation filesystem := (gmap string file).

(** [sorted(l)] on strings: by code point, which on UTF-8 text is the
    order of the bytes. *)
Definition sorted (l : list string) : list string := merge_sort String.le l.

(** [filesystem.exists(p)] *)
Definition fs_exists (fs : filesystem) (p : string) : bool :=
  bool_decide (is_Some (fs !! p)).

(** A path matches [dir ++ pre ++ "*" ++ suf] when it lies directly in
    [dir] and its name is [pre], anything, [suf]. *)
Definition glob_match (dir pre suf p : string) : bool :=
  starts_with dir p
  && (let name := drop (String.length dir) p in
      negb (has_char "/" name)
      && starts_with pre name
      && ends_with suf (drop (String.length pre) name)).

(** [filesystem.glob(dir ++ pre ++ "*" ++ suf)] *)
Definition fs_glob (fs : filesystem) (dir pre suf : string) : list string :=
  List.filter (glob_match dir pre suf) (elements (dom fs)).

End Fs.

(** ** Objects, exceptions and the store *)

Module Py.
Import Text Json Fs.

Inductive exn : Type :=
  | FileNotFoundError
  | AttributeError
  | KeyError
  | TypeError
  | IndexError
  | JSONDecodeError
  | ArrowInvalid
  | OutsideModel.

#[global] Instance exn_eq_dec : EqDecision exn.
Proof. solve_decision. Defined.

Abbreviation loc := positive.

(** The attributes of a [DeltaTable] instance. [filesystem] is not a
    field: the code never writes to it and every method of the embedding
    takes it as an argument. [files] refers to a set object of the store.
    [pyarrow_dataset] is the list of files the dataset view was built
    over. *)
Record DeltaTable : Type := mkDeltaTable {
  path : string;
  files : option loc;
  version : option Z;
  checkpoint : option Z;
  pyarrow_dataset : option (list string)
}.

Record store : Type := mkStore {
  tables : gmap loc DeltaTable;
  sets : gmap loc (gset string)
}.

Definition empty_store : store := mkStore ∅ ∅.

Inductive outcome (A : Type) : Type :=
  | Return (a : A)
  | Raise (e : exn).
Arguments Return {A} a.
Arguments Raise {A} e.

(** A computation over the store that may raise. The store is returned in
    both cases: what was mutated before an exception stays mutated. *)
Definition M (A : Type) : Type := store → outcome A * store.

Definition ret {A} (a : A) : M A := λ σ, (Return a, σ).

Definition raise {A} (e : exn) : M A := λ σ, (Raise e, σ).

Definition bind {A B} (m : M A) (k : A → M B) : M B :=
  λ σ, match m σ with
       | (Return a, σ') => k a σ'
       | (Raise e, σ') => (Raise e, σ')
       end.

(** [try: m  except e: h] *)
Definition try_except {A} (m : M A) (e : exn) (h : M A) : M A :=
  λ σ, match m σ with
       | (Raise e', σ') => if decide (e' = e) then h σ' else (Raise e', σ')
       | r => r
       end.

Declare Scope py_scope.
Delimit Scope py_scope with py.
Notation "x <- m ;; k" := (bind m (λ x, k))
  (at level 100, m at next level, right associativity) : py_scope.
Notation "m ;; k" := (bind m (λ _, k))
  (at level 100, right associativity) : py_scope.
Local Open Scope py_scope.

Definition get_table (self : loc) : M DeltaTable :=
  λ σ, match tables σ !! self with
       | Some t => (Return t, σ)
       | None => (Raise OutsideModel, σ)
       end.

(** [self.attr] *)
Definition getattr {A} (self : loc) (attr : DeltaTable → option A) : M A :=
  t <- get_table self ;;
  match attr t with
  | Some a => ret a
  | None => raise AttributeError
  end.

(** [self.attr = ...] *)
Definition setattr (self : loc) (upd : DeltaTable → DeltaTable) : M unit :=
  λ σ, match tables σ !! self with
       | Some t => (Return tt, mkStore (<[self := upd t]> (tables σ)) (sets σ))
       | None => (Raise OutsideModel, σ)
       end.

Definition set_files (l : loc) (t : DeltaTable) : DeltaTable :=
  mkDeltaTable (path t) (Some l) (version t) (checkpoint t) (pyarrow_dataset t).
Definition set_version (v : Z) (t : DeltaTable) : DeltaTable :=
  mkDeltaTable (path t) (files t) (Some v) (checkpoint t) (pyarrow_dataset t).
Definition set_checkpoint (c : Z) (t : DeltaTable) : DeltaTable :=
  mkDeltaTable (path t) (files t) (version t) (Some c) (pyarrow_dataset t).
Definition set_pyarrow_dataset (d : list string) (t : DeltaTable) : DeltaTable :=
  mkDeltaTable (path t) (files t) (version t) (checkpoint t) (Some d).

(** A new object of class [DeltaTable]. *)
Definition new_table (t : DeltaTable) : M loc :=
  λ σ, let l := fresh (dom (tables σ)) in
       (Return l, mkStore (<[l := t]> (tables σ)) (sets σ)).

(** [set()], or a copy of a set: a new set object. *)
Definition new_set (s : gset string) : M loc :=
  λ σ, let l := fresh (dom (sets σ)) in
       (Return l, mkStore (tables σ) (<[l := s]> (sets σ))).

Definition get_set (l : loc) : M (gset string) :=
  λ σ, match sets σ !! l with
       | Some s => (Return s, σ)
       | None => (Raise OutsideModel, σ)
       end.

Definition put_set (l : loc) (s : gset string) : M unit :=
  λ σ, (Return tt, mkStore (tables σ) (<[l := s]> (sets σ))).

(** [s.add(x)] *)
Definition set_add (l : loc) (x : string) : M unit :=
  s <- get_set l ;; put_set l ({[x]} ∪ s).

(** [x in s] *)
Definition set_contains (l : loc) (x : string) : M bool :=
  s <- get_set l ;; ret (bool_decide (x ∈ s)).

(** [s.remove(x)] raises [KeyError] when [x] is not a member. *)
Definition set_remove (l : loc) (x : string) : M unit :=
  s <- get_set l ;;
  if bool_decide (x ∈ s) then put_set l (s ∖ {[x]}) else raise KeyError.

(** [filesystem.cat(p)] *)
Definition fs_cat (fs : filesystem) (p : string) : M string :=
  match fs !! p with
  | Some (Bytes data) => ret data
  | Some (Parquet _) => raise OutsideModel
  | None => raise FileNotFoundError
  end.

(** [pq.read_table(filesystem.open(p)).to_pandas()] *)
Definition fs_read_table (fs : filesystem) (p : string) : M (list checkpoint_row) :=
  match fs !! p with
  | Some (Parquet rows) => ret rows
  | Some (Bytes _) => raise ArrowInvalid
  | None => raise FileNotFoundError
  end.

(** [json.loads(s)] *)
Definition json_loads (s : string) : M json :=
  match Json.loads s with
  | Decoded v => ret v
  | DecodeError => raise JSONDecodeError
  | Unmodelled => raise OutsideModel
  end.

(** [v[k]] on a decoded value: only a [dict] can be indexed by a string. *)
Definition subscript (v : json) (k : string) : M json :=
  match v with
  | JObj members =>
      match dict_get k members with
      | Some x => ret x
      | None => raise KeyError
      end
  | _ => raise TypeError
  end.

(** [k in v.keys()]: only a [dict] has [keys]. *)
Definition has_key (v : json) (k : string) : M bool :=
  match v with
  | JObj members => ret (if dict_get k members is Some _ then true else false)
  | _ => raise AttributeError
  end.

End Py.

(** ** The class [DeltaTable] *)

Module Delta.
Import Text Json Fs Py.
Local Open Scope py_scope.

Section methods.

(** [self.filesystem], the same for every instance in the store. *)
Variable fs : filesystem.

Definition log_dir (root : string) : string := root ++ "/_delta_log/".

(** [f"{self.path}/_delta_log/{v:020}.json"] *)
Definition log_path (root : string) (v : Z) : string :=
  log_dir root ++ format_0w 20 v ++ ".json".

(** [f"{self.path}/_delta_log/{v:020}.checkpoint.parquet"] *)
Definition checkpoint_path (root : string) (v : Z) : string :=
  log_dir root ++ format_0w 20 v ++ ".checkpoint.parquet".

(** [f"{self.path}/_delta_log/_last_checkpoint"] *)
Definition last_checkpoint_path (root : string) : string :=
  log_dir root ++ "_last_checkpoint".

(** [f"{self.path}/{name}"] *)
Definition data_path (root name : string) : string := root ++ "/" ++ name.

(** [pyarrow_dataset(source=list(s), filesystem=...)]: the dataset factory
    is outside the model; the view it returns is recorded as the list of
    files it was given. *)
Definition dataset_of (s : gset string) : list string := elements s.

(** [_is_delta_table] *)
Definition _is_delta_table (self : loc) : M bool :=
  t <- get_table self ;;
  ret (fs_exists fs (log_path (path t) 0)).

(** The body of the loop over the rows of a checkpoint. *)
Definition apply_checkpoint_row (self : loc) (row : checkpoint_row) : M unit :=
  match row_add row with
  | Some added_file =>
      if String.eqb added_file "" then ret tt
      else
        fl <- getattr self files ;;
        t <- get_table self ;;
        set_add fl (data_path (path t) added_file)
  | None => ret tt
  end.

Fixpoint for_each {A} (body : A → M unit) (l : list A) : M unit :=
  match l with
  | [] => ret tt
  | x :: l' => body x ;; for_each body l'
  end.

(** [_apply_from_checkpoint] *)
Definition _apply_from_checkpoint (self : loc) (checkpoint_version : Z) : M unit :=
  fl <- new_set ∅ ;;
  setattr self (set_files fl) ;;
  setattr self (set_checkpoint checkpoint_version) ;;
  c <- getattr self checkpoint ;;
  if c =? 0 then ret tt
  else
    t <- get_table self ;;
    rows <- fs_read_table fs (checkpoint_path (path t) c) ;;
    for_each (apply_checkpoint_row self) rows.

(** The value of a [path] field as it goes into an f-string. Only a JSON
    string is covered. *)
Definition path_text (v : json) : M string :=
  match v with
  | JStr s => ret s
  | _ => raise OutsideModel
  end.

(** [remove_file in self.files] for a decoded [remove_file]: a list or a
    dict cannot be hashed, and a value that is not a string equals no
    member of a set of strings. *)
Definition in_files (fl : loc) (remove_file : json) : M bool :=
  match remove_file with
  | JStr s => set_contains fl s
  | JArr _ | JObj _ => raise TypeError
  | _ => get_set fl ;; ret false
  end.

(** The body of the loop over the pieces of a log file. *)
Definition apply_log_line (self : loc) (line : string) : M unit :=
  meta_data <- json_loads line ;;
  has_add <- has_key meta_data "add" ;;
  (if has_add then
     fl <- getattr self files ;;
     t <- get_table self ;;
     a <- subscript meta_data "add" ;;
     p <- subscript a "path" ;;
     name <- path_text p ;;
     set_add fl (data_path (path t) name)
   else ret tt) ;;
  has_remove <- has_key meta_data "remove" ;;
  if has_remove then
    r <- subscript meta_data "remove" ;;
    remove_file <- subscript r "path" ;;
    fl <- getattr self files ;;
    present <- in_files fl remove_file ;;
    if present then
      fl' <- getattr self files ;;
      t <- get_table self ;;
      name <- path_text remove_file ;;
      set_remove fl' (data_path (path t) name)
    else ret tt
  else ret tt.

(** The loop over the sorted log files, with its [break]. *)
Fixpoint apply_log_files (self : loc) (target : Z) (log_files : list string)
  : M unit :=
  match log_files with
  | [] => ret tt
  | log_file :: rest =>
      log_version <- match first_digits20 log_file with
                     | Some d => ret d
                     | None => raise IndexError
                     end ;;
      setattr self (set_version (int_of_digits log_version)) ;;
      log <- fs_cat fs log_file ;;
      for_each (apply_log_line self) (split log) ;;
      v <- getattr self version ;;
      if v =? target then ret tt
      else apply_log_files self target rest
  end.

(** The log files of the checkpoint's decade, in the order of replay. *)
Definition decade_log_files (root : string) (c : Z) : list string :=
  sorted (fs_glob fs (log_dir root) (format_0w 19 (c / 10)) ".json").

(** [_apply_partial_logs] *)
Definition _apply_partial_logs (self : loc) (target : Z) : M unit :=
  t <- get_table self ;;
  c <- getattr self checkpoint ;;
  apply_log_files self target (decade_log_files (path t) c).

(** The integer held by a decoded [version] field. *)
Definition int_value (v : json) : M Z :=
  match v with
  | JInt z => ret z
  | _ => raise OutsideModel
  end.

(** [_as_newest_version] *)
Definition _as_newest_version (self : loc) : M unit :=
  try_except
    (t <- get_table self ;;
     checkpoint_info <- fs_cat fs (last_checkpoint_path (path t)) ;;
     checkpoint_info <- json_loads checkpoint_info ;;
     v <- subscript checkpoint_info "version" ;;
     v <- int_value v ;;
     _apply_from_checkpoint self v)
    FileNotFoundError
    (ret tt) ;;
  c <- getattr self checkpoint ;;
  _apply_partial_logs self (c + 9).

(** [self.pyarrow_dataset = pyarrow_dataset(source=list(self.files), ...)] *)
Definition rebuild_dataset (self : loc) : M unit :=
  fl <- getattr self files ;;
  s <- get_set fl ;;
  setattr self (set_pyarrow_dataset (dataset_of s)).

(** [DeltaTable(path, file_system)]: the new instance. *)
Definition __init__ (root : string) : M loc :=
  self <- new_table (mkDeltaTable root None None None None) ;;
  _as_newest_version self ;;
  rebuild_dataset self ;;
  ret self.

(** [to_table]: the scan is handed to the dataset view; of its result
    the embedding keeps the files that are read. *)
Definition to_table (self : loc) : M (list string) :=
  getattr self pyarrow_dataset.

(** [deepcopy(self)]: a new instance whose set is a new set object with
    the same members; the immutable attributes are carried over. *)
Definition deepcopy (self : loc) : M loc :=
  t <- get_table self ;;
  match files t with
  | Some fl =>
      s <- get_set fl ;;
      fl' <- new_set s ;;
      new_table (set_files fl' t)
  | None => new_table t
  end.

(** [as_version] *)
Definition as_version (self : loc) (v : Z) (inplace : bool) : M loc :=
  let nearest_checkpoint := v / 10 in
  if inplace then
    _apply_from_checkpoint self nearest_checkpoint ;;
    _apply_partial_logs self v ;;
    rebuild_dataset self ;;
    ret self
  else
    deltaTable <- deepcopy self ;;
    _apply_from_checkpoint deltaTable nearest_checkpoint ;;
    _apply_partial_logs deltaTable v ;;
    ret deltaTable.

End methods.

(** *** Reading a store *)

(** The file set of an instance, if its [files] attribute is assigned. *)
Definition files_of (σ : store) (self : loc) : option (gset string) :=
  t ← tables σ !! self; fl ← files t; sets σ !! fl.

Definition version_of (σ : store) (self : loc) : option Z :=
  t ← tables σ !! self; version t.

Definition checkpoint_of (σ : store) (self : loc) : option Z :=
  t ← tables σ !! self; checkpoint t.

Definition dataset_view (σ : store) (self : loc) : option (list string) :=
  t ← tables σ !! self; pyarrow_dataset t.

End Delta.

(** ** Tables used in the examples *)

Module Tables.
Import Text Json Fs Py Delta.

(** A log record [{"add":{"path":p}}]. *)
Definition add_entry (p : string) : string :=
  "{" ++ quoted "add" ++ ":{" ++ quoted "path" ++ ":" ++ quoted p ++ "}}".

(** A log record [{"remove":{"path":p}}]. *)
Definition remove_entry (p : string) : string :=
  "{" ++ quoted "remove" ++ ":{" ++ quoted "path" ++ ":" ++ quoted p ++ "}}".

(** A log record [{"commitInfo":{}}]. *)
Definition commit_info : string := "{" ++ quoted "commitInfo" ++ ":{}}".

(** The content of [_last_checkpoint]: [{"version":v,"size":2}]. *)
Definition pointer (v : string) : string :=
  "{" ++ quoted "version" ++ ":" ++ v ++ "," ++ quoted "size" ++ ":2}".

Definition newline : string := String (ascii_of_N 10) "".

(** The rows of a checkpoint: one row without [add] (the protocol row)
    and one row per live file. *)
Definition checkpoint_rows (live : list string) : list checkpoint_row :=
  {| row_add := None |} :: map (λ p, {| row_add := Some p |}) live.

(** Two commits and no checkpoint: [add(A)] at version 0, [remove(A)] at
    version 1. *)
Definition short_log : filesystem :=
  {[ log_path "t" 0 := Bytes (commit_info ++ newline ++ add_entry "A" ++ newline);
     log_path "t" 1 := Bytes (commit_info ++ newline ++ remove_entry "A" ++ newline) ]}.

(** Twelve commits with a checkpoint at version 10 listing [A] and [B];
    version 11 adds [C]. *)
Definition checkpointed : filesystem :=
  list_to_map
    [ (last_checkpoint_path "tbl", Bytes (pointer "10"));
      (checkpoint_path "tbl" 10, Parquet (checkpoint_rows ["A"; "B"]));
      (log_path "tbl" 0, Bytes (add_entry "A" ++ newline));
      (log_path "tbl" 1, Bytes (add_entry "B" ++ newline));
      (log_path "tbl" 2, Bytes (commit_info ++ newline));
      (log_path "tbl" 3, Bytes (commit_info ++ newline));
      (log_path "tbl" 4, Bytes (commit_info ++ newline));
      (log_path "tbl" 5, Bytes (commit_info ++ newline));
      (log_path "tbl" 6, Bytes (commit_info ++ newline));
      (log_path "tbl" 7, Bytes (commit_info ++ newline));
      (log_path "tbl" 8, Bytes (commit_info ++ newline));
      (log_path "tbl" 9, Bytes (commit_info ++ newline));
      (log_path "tbl" 10, Bytes (commit_info ++ newline));
      (log_path "tbl" 11, Bytes (add_entry "C" ++ newline)) ].

(** The same table after the log entries before the checkpoint have been
    cleaned up: no version-0 entry is left. *)
Definition cleaned : filesystem :=
  {[ last_checkpoint_path "tbl" := Bytes (pointer "10");
     checkpoint_path "tbl" 10 := Parquet (checkpoint_rows ["A"; "B"]);
     log_path "tbl" 10 := Bytes (commit_info ++ newline);
     log_path "tbl" 11 := Bytes (add_entry "C" ++ newline) ]}.

(** The pointer names version 10 but the checkpoint file is absent. *)
Definition dangling : filesystem :=
  {[ last_checkpoint_path "tbl" := Bytes (pointer "10");
     log_path "tbl" 10 := Bytes (commit_info ++ newline);
     log_path "tbl" 11 := Bytes (add_entry "C" ++ newline) ]}.

(** A checkpoint at version 10 and no log file in its decade. *)
Definition bare_checkpoint : filesystem :=
  {[ last_checkpoint_path "tbl" := Bytes (pointer "10");
     checkpoint_path "tbl" 10 := Parquet (checkpoint_rows ["A"; "B"]) ]}.

(** One commit whose file name holds a space. *)
Definition spaced : filesystem :=
  {[ last_checkpoint_path "tbl" := Bytes (pointer "0");
     log_path "tbl" 0 := Bytes (add_entry "part 0.parquet" ++ newline) ]}.

(** One commit under a root whose name holds a run of twenty digits. *)
Definition numbered_root : filesystem :=
  {[ last_checkpoint_path "d/00000000000000000042" := Bytes (pointer "0");
     log_path "d/00000000000000000042" 0 := Bytes (add_entry "A" ++ newline) ]}.

(** The store after [DeltaTable("tbl")] on [checkpointed], and the
    instance it returns. *)
Definition opened : outcome loc * store := __init__ checkpointed "tbl" empty_store.

(** A commit that removes a file under a path that was never added:
    under the root [/t], version 0 adds [x] and version 1 removes
    [/t/x]. *)
Definition stray_remove : filesystem :=
  {[ last_checkpoint_path "/t" := Bytes (pointer "0");
     log_path "/t" 0 := Bytes (add_entry "x" ++ newline);
     log_path "/t" 1 := Bytes (remove_entry "/t/x" ++ newline) ]}.

(** The table [cleaned] under the absolute root [/tbl]. *)
Definition absolute_table : filesystem :=
  {[ last_checkpoint_path "/tbl" := Bytes (pointer "10");
     checkpoint_path "/tbl" 10 := Parquet (checkpoint_rows ["A"; "B"]);
     log_path "/tbl" 10 := Bytes (commit_info ++ newline);
     log_path "/tbl" 11 := Bytes (add_entry "C" ++ newline) ]}.

End Tables.

(** ** Notions used to state the properties *)

Module Spec.
Import Text Json Fs Py Delta Tables.

(** A byte that may stand unescaped inside a JSON string. *)
Definition literal_char (c : ascii) : bool :=
  negb (N_of_ascii c <? 32)%N && negb (Ascii.eqb c dquote)
  && negb (Ascii.eqb c backslash).

(** A string of such bytes: the content of a JSON string that needs no
    escape. *)
Fixpoint literal (s : string) : bool :=
  match s with
  | "" => true
  | String c s' => literal_char c && literal s'
  end.

(** A literal byte that is not whitespace either. *)
Definition plain_char (c : ascii) : bool := literal_char c && negb (is_space c).

(** A string of such bytes: [bytes.split()] does not cut it. *)
Fixpoint plain (s : string) : bool :=
  match s with
  | "" => true
  | String c s' => plain_char c && plain s'
  end.

(** The text of [add_entry] up to the path. *)
Definition add_head : string :=
  "{" ++ quoted "add" ++ ":{" ++ quoted "path" ++ ":" ++ String dquote "".

(** The tokens [d] with [t] in front, if [d] is a list of tokens. *)
Definition cons_token (t : token) (d : decoded (list token)) : decoded (list token) :=
  match d with
  | Decoded ts => Decoded (t :: ts)
  | DecodeError => DecodeError
  | Unmodelled => Unmodelled
  end.

(** [n] written with exactly [w] decimal digits (the last [w] digits of
    [n]). *)
Fixpoint fixed (w : nat) (n : Z) : string :=
  match w with
  | O => ""
  | S w' => fixed w' (n / 10) ++ String (digit_char (n mod 10)) ""
  end.

(** A string without any digit. *)
Fixpoint no_digit (s : string) : bool :=
  match s with
  | "" => true
  | String c s' => negb (is_digit c) && no_digit s'
  end.

(** The version that the loop over [log_files] leaves behind when it
    returns: that of the file at which it stopped, [v0] when there is no
    file. *)
Fixpoint stop_version (target : Z) (log_files : list string) (v0 : option Z)
  : option Z :=
  match log_files with
  | [] => v0
  | f :: rest =>
      match first_digits20 f with
      | Some d =>
          let v := int_of_digits d in
          if v =? target then Some v else stop_version target rest (Some v)
      | None => v0
      end
  end.

(** From a store that satisfies [P], the outcome of [m] and the store it
    leaves satisfy [Q]. *)
Definition triple {A} (P : store → Prop) (m : M A)
    (Q : outcome A → store → Prop) : Prop :=
  ∀ σ, P σ → Q (m σ).1 (m σ).2.

(** A computation that leaves the store as it is. *)
Definition reads {A} (m : M A) : Prop := ∀ σ, (m σ).2 = σ.

(** A computation that leaves every [DeltaTable] record as it is. *)
Definition keeps_tables {A} (m : M A) : Prop := ∀ σ, tables (m σ).2 = tables σ.

(** The instance [self] has root [root] and the given [checkpoint] and
    [version] attributes. *)
Definition instance_at (self : loc) (root : string) (c v : option Z)
    (σ : store) : Prop :=
  ∃ t, tables σ !! self = Some t ∧ path t = root ∧ checkpoint t = c
       ∧ version t = v.

(** [m] preserves [I], whatever it returns or raises. *)
Definition invariant {A} (I : store → Prop) (m : M A) : Prop :=
  triple I m (λ _ σ, I σ).

(** The instance [self] exists and its root is [root]. *)
Definition rooted (self : loc) (root : string) (σ : store) : Prop :=
  ∃ t, tables σ !! self = Some t ∧ path t = root.

(** Every object of [σ0] is in [σ] as it was in [σ0]. *)
Definition untouched (σ0 σ : store) : Prop :=
  (∀ l, l ∈ dom (tables σ0) → tables σ !! l = tables σ0 !! l)
  ∧ (∀ l, l ∈ dom (sets σ0) → sets σ !! l = sets σ0 !! l).

(** A set object that [σ0] does not hold. *)
Definition is_new (σ0 : store) (fl : loc) : Prop := fl ∉ dom (sets σ0).

(** The instance [me] is not an object of [σ0], and neither is its file
    set. *)
Definition own (σ0 : store) (me : loc) (σ : store) : Prop :=
  (me ∉ dom (tables σ0))
  ∧ (∀ t fl, tables σ !! me = Some t → files t = Some fl → is_new σ0 fl).

(** Both: what [me] reaches is apart from what [σ0] holds. *)
Definition separate (σ0 : store) (me : loc) (σ : store) : Prop :=
  untouched σ0 σ ∧ own σ0 me σ.

(** [m] keeps [me] separate from [σ0], and what it returns satisfies [V]. *)
Definition keeps {A} (σ0 : store) (me : loc) (m : M A) (V : A → Prop) : Prop :=
  triple (separate σ0 me) m
    (λ r σ, separate σ0 me σ ∧ match r with Return a => V a | Raise _ => True end).

(** A byte that the glob and the regular expression take as it stands:
    printable ASCII, other than a glob metacharacter and the backslash. *)
Definition root_char (c : ascii) : bool :=
  let n := N_of_ascii c in
  ((32 <=? n) && (n <? 127))%N
  && negb (has_char c "*?[]{}") && negb (Ascii.eqb c backslash).

Fixpoint root_chars (s : string) : bool :=
  match s with
  | "" => true
  | String c s' => root_char c && root_chars s'
  end.

(** The pieces of a path between its slashes; [seg] is the piece being
    read. *)
Fixpoint segments (seg : string) (s : string) : list string :=
  match s with
  | "" => [seg]
  | String c s' =>
      if Ascii.eqb c "/" then seg :: segments "" s'
      else segments (seg ++ String c "") s'
  end.

(** A piece that normalisation leaves alone. *)
Definition plain_segment (seg : string) : bool :=
  negb (String.eqb seg "") && negb (String.eqb seg ".")
  && negb (String.eqb seg "..").

(** A table root under which the file system lists the files as the code
    asks for them, and which [re] reads byte by byte: a normalised
    absolute path made of such bytes, that is a slash followed by pieces
    that are neither empty nor [.] nor [..], with no slash at the end.
    (Under a relative root the local file system lists the files with
    the working directory in front; outside ASCII, [\d] takes more than
    the ten digits.) *)
Definition plain_root (root : string) : bool :=
  root_chars root
  && match segments "" root with
     | first :: (_ :: _) as rest =>
         String.eqb first "" && forallb plain_segment rest
     | _ => false
     end.

End Spec.

(** ** Further notions: records, two runs side by side, invariants *)

Module Runs.
Import Text Json Fs Py Delta Tables Spec.

(** What a log record adds. [adds line (Some p)]: the line decodes to an
    object with an [add] whose [path] is the string [p], and without
    [remove]. [adds line None]: it decodes to an object with neither
    key. *)
Definition adds (line : string) (o : option string) : Prop :=
  ∃ members,
    Json.loads line = Decoded (JObj members)
    ∧ dict_get "remove" members = None
    ∧ match o with
      | Some p => ∃ am, dict_get "add" members = Some (JObj am)
                        ∧ dict_get "path" am = Some (JStr p)
      | None => dict_get "add" members = None
      end.

(** The file that a row of a checkpoint adds: [row["add"]["path"]] when
    it passes the test [if added_file]. *)
Definition added_file (row : checkpoint_row) : option string :=
  match row_add row with
  | Some p => if String.eqb p "" then None else Some p
  | None => None
  end.

(** A computation that does not raise [e], whatever the store. *)
Definition never {A} (e : exn) (m : M A) : Prop := ∀ σ, (m σ).1 ≠ Raise e.

(** The outcomes of two runs are alike: both return, with values related
    by [V], or both raise the same exception. *)
Definition alike {A} (V : A → A → Prop) (r1 r2 : outcome A) : Prop :=
  match r1, r2 with
  | Return a1, Return a2 => V a1 a2
  | Raise e1, Raise e2 => e1 = e2
  | _, _ => False
  end.

(** Two runs side by side, each on its own store: from stores related by
    [P] they leave stores related by [Q], with outcomes alike. *)
Definition sync {A} (P Q : store → store → Prop) (m1 m2 : M A)
    (V : A → A → Prop) : Prop :=
  ∀ σ1 σ2, P σ1 σ2 →
    Q (m1 σ1).2 (m2 σ2).2 ∧ alike V (m1 σ1).1 (m2 σ2).1.

(** A computation whose outcome does not depend on the store and that
    leaves the store as it is. *)
Definition steady {A} (m : M A) : Prop := ∃ r, ∀ σ, m σ = (r, σ).

(** The instance [l1] of [σ1] and the instance [l2] of [σ2] have the same
    root; with [b], also the same [version]. *)
Definition same_root (b : bool) (l1 l2 : loc) (σ1 σ2 : store) : Prop :=
  ∃ t1 t2,
    tables σ1 !! l1 = Some t1 ∧ tables σ2 !! l2 = Some t2
    ∧ path t1 = path t2
    ∧ (b = true → version t1 = version t2).

(** Besides, they have the same [checkpoint], and their [files]
    attributes [of1] and [of2] are both unassigned or refer to sets with
    the same members. *)
Definition agree_on (b : bool) (of1 of2 : option loc) (l1 l2 : loc)
    (σ1 σ2 : store) : Prop :=
  ∃ t1 t2,
    tables σ1 !! l1 = Some t1 ∧ tables σ2 !! l2 = Some t2
    ∧ path t1 = path t2
    ∧ (b = true → version t1 = version t2)
    ∧ checkpoint t1 = checkpoint t2
    ∧ files t1 = of1 ∧ files t2 = of2
    ∧ match of1, of2 with
      | Some f1, Some f2 => ∃ s, sets σ1 !! f1 = Some s ∧ sets σ2 !! f2 = Some s
      | None, None => True
      | _, _ => False
      end.

Definition agree (b : bool) (l1 l2 : loc) (σ1 σ2 : store) : Prop :=
  ∃ of1 of2, agree_on b of1 of2 l1 l2 σ1 σ2.

(** The instance [self] has root [root], its [files] attribute is the set
    object [fl], and every member of that set is a path under the root. *)
Definition under (self : loc) (root : string) (fl : loc) (σ : store) : Prop :=
  ∃ t s,
    tables σ !! self = Some t ∧ path t = root ∧ files t = Some fl
    ∧ sets σ !! fl = Some s
    ∧ ∀ x, x ∈ s → ∃ p, x = data_path root p.

(** [m] preserves [I], whatever it returns or raises, and what it returns
    satisfies [V]. *)
Definition upholds {A} (I : store → Prop) (m : M A) (V : A → Prop) : Prop :=
  triple I m (λ r σ, I σ ∧ match r with Return a => V a | Raise _ => True end).

(** A table with a file in [_delta_log] whose name has nineteen digits. *)
Definition short_name : filesystem :=
  {[ "t/_delta_log/0000000000000000000.json" := Bytes (add_entry "A" ++ newline);
     log_path "t" 0 := Bytes (add_entry "B" ++ newline) ]}.

(** A table under the absolute root [/t] whose only checkpoint was
    written at version 1. *)
Definition early_checkpoint : filesystem :=
  {[ checkpoint_path "/t" 1 := Parquet (checkpoint_rows ["A"; "B"]);
     log_path "/t" 0 := Bytes (add_entry "A" ++ newline);
     log_path "/t" 1 := Bytes (add_entry "B" ++ newline);
     log_path "/t" 2 := Bytes (add_entry "C" ++ newline) ]}.

(** Two commits that add, and no checkpoint, under the absolute root
    [/t]. *)
Definition absolute_log : filesystem :=
  {[ log_path "/t" 0 := Bytes (commit_info ++ newline ++ add_entry "A" ++ newline);
     log_path "/t" 1 := Bytes (add_entry "B" ++ newline) ]}.

(** A table whose pointer file holds an empty JSON object. *)
Definition empty_pointer : filesystem :=
  {[ last_checkpoint_path "t" := Bytes "{}" ]}.

End Runs.

(** ** Properties *)

Module Props.
Import Text Json Fs Py Delta Tables Spec.
Local Arguments append : simpl nomatch.

(** *** Lookups in the store *)

Lemma lookup_table_insert (m : gmap loc DeltaTable) l t :
  <[l := t]> m !! l = Some t.
Proof. apply lookup_insert_eq. Qed.

Lemma lookup_table_insert_ne (m : gmap loc DeltaTable) l l' t :
  l ≠ l' → <[l := t]> m !! l' = m !! l'.
Proof. apply lookup_insert_ne. Qed.

Lemma lookup_set_insert (m : gmap loc (gset string)) l s :
  <[l := s]> m !! l = Some s.
Proof. apply lookup_insert_eq. Qed.

Lemma lookup_set_insert_ne (m : gmap loc (gset string)) l l' s :
  l ≠ l' → <[l := s]> m !! l' = m !! l'.
Proof. apply lookup_insert_ne. Qed.

(** *** Running a computation *)

Lemma run_bind_return {A B} (m : M A) (k : A → M B) σ a σ' :
  m σ = (Return a, σ') → bind m k σ = k a σ'.
Proof. unfold bind. intros ->. reflexivity. Qed.

Lemma run_bind_raise {A B} (m : M A) (k : A → M B) σ e σ' :
  m σ = (Raise e, σ') → bind m k σ = (Raise e, σ').
Proof. unfold bind. intros ->. reflexivity. Qed.

Lemma run_try_return {A} (m h : M A) e σ a σ' :
  m σ = (Return a, σ') → try_except m e h σ = (Return a, σ').
Proof. unfold try_except. intros ->. reflexivity. Qed.

Lemma run_try_caught {A} (m h : M A) e σ σ' :
  m σ = (Raise e, σ') → try_except m e h σ = h σ'.
Proof. unfold try_except. intros ->. rewrite decide_True; done. Qed.

Lemma run_try_passed {A} (m h : M A) e e' σ σ' :
  m σ = (Raise e', σ') → e' ≠ e → try_except m e h σ = (Raise e', σ').
Proof. unfold try_except. intros -> ?. rewrite decide_False; done. Qed.

Lemma run_get_table self σ t :
  tables σ !! self = Some t → get_table self σ = (Return t, σ).
Proof. unfold get_table. intros ->. reflexivity. Qed.

Lemma run_getattr {A} self (attr : DeltaTable → option A) σ t a :
  tables σ !! self = Some t → attr t = Some a →
  getattr self attr σ = (Return a, σ).
Proof.
  intros Ht Ha. unfold getattr.
  rewrite (run_bind_return _ _ _ _ _ (run_get_table _ _ _ Ht)), Ha.
  reflexivity.
Qed.

Lemma run_getattr_unset {A} self (attr : DeltaTable → option A) σ t :
  tables σ !! self = Some t → attr t = None →
  getattr self attr σ = (Raise AttributeError, σ).
Proof.
  intros Ht Ha. unfold getattr.
  rewrite (run_bind_return _ _ _ _ _ (run_get_table _ _ _ Ht)), Ha.
  reflexivity.
Qed.

Lemma run_setattr self upd σ t :
  tables σ !! self = Some t →
  setattr self upd σ
  = (Return tt, mkStore (<[self := upd t]> (tables σ)) (sets σ)).
Proof. unfold setattr. intros ->. reflexivity. Qed.

Lemma run_get_set l σ s :
  sets σ !! l = Some s → get_set l σ = (Return s, σ).
Proof. unfold get_set. intros ->. reflexivity. Qed.

(** *** Opening a table *)

Lemma as_newest_version_without_pointer (fs : filesystem) self σ t :
  tables σ !! self = Some t → checkpoint t = None →
  fs !! last_checkpoint_path (path t) = None →
  _as_newest_version fs self σ = (Raise AttributeError, σ).
Proof.
  intros Ht Hc Habsent. unfold _as_newest_version.
  erewrite run_bind_return.
  - erewrite run_bind_raise; [reflexivity |].
    by apply (run_getattr_unset self checkpoint σ t).
  - erewrite run_try_caught; [reflexivity |].
    erewrite run_bind_return by (by apply run_get_table).
    apply run_bind_raise. unfold fs_cat. rewrite Habsent. reflexivity.
Qed.

(** C3. When [_last_checkpoint] is absent, [DeltaTable(root)] does not
    recover: the handler of [FileNotFoundError] leaves [checkpoint]
    unassigned and reading it raises [AttributeError], for every file
    system, root and store. *)
Theorem init_without_pointer_raises (fs : filesystem) (root : string) (σ : store) :
  fs !! last_checkpoint_path root = None →
  (__init__ fs root σ).1 = Raise AttributeError.
Proof.
  intros Habsent. unfold __init__.
  erewrite run_bind_return by reflexivity.
  erewrite run_bind_raise; [reflexivity |].
  eapply as_newest_version_without_pointer; [apply lookup_table_insert | done..].
Qed.

Lemma init_without_pointer_raises_witness :
  short_log !! last_checkpoint_path "t" = None
  ∧ (__init__ short_log "t" empty_store).1 = Raise AttributeError.
Proof.
  split; [vm_compute; reflexivity |].
  apply (init_without_pointer_raises short_log "t" empty_store).
  vm_compute; reflexivity.
Defined.

(** C4. On the table [cleaned], which has no version-0 log entry,
    [_is_delta_table] answers [False], yet [DeltaTable("tbl")] returns an
    instance: the constructor never asks. *)
Theorem init_accepts_table_without_version_0 :
  cleaned !! log_path "tbl" 0 = None
  ∧ (__init__ cleaned "tbl" empty_store).1 = Return 1%positive
  ∧ (_is_delta_table cleaned 1%positive (__init__ cleaned "tbl" empty_store).2).1
    = Return false.
Proof. repeat split; vm_compute; reflexivity. Qed.

(** For a version [c] other than 0 whose checkpoint file is absent,
    [_apply_from_checkpoint] raises [FileNotFoundError] after it has reset
    [files] and [checkpoint]. *)
Lemma apply_from_checkpoint_without_file (fs : filesystem) self σ t c :
  tables σ !! self = Some t →
  c ≠ 0 →
  fs !! checkpoint_path (path t) c = None →
  _apply_from_checkpoint fs self c σ
  = (Raise FileNotFoundError,
     let fl := fresh (dom (sets σ)) in
     mkStore (<[self := set_checkpoint c (set_files fl t)]> (tables σ))
             (<[fl := ∅]> (sets σ))).
Proof.
  intros Ht Hc Hfile. cbn zeta.
  set (fl := fresh (dom (sets σ))).
  set (σ' := mkStore (<[self := set_checkpoint c (set_files fl t)]> (tables σ))
                     (<[fl := ∅]> (sets σ))).
  assert (Ht' : tables σ' !! self = Some (set_checkpoint c (set_files fl t)))
    by apply lookup_table_insert.
  unfold _apply_from_checkpoint.
  rewrite (run_bind_return _ _ σ fl (mkStore (tables σ) (<[fl := ∅]> (sets σ))))
    by reflexivity.
  erewrite run_bind_return by (by apply run_setattr).
  erewrite run_bind_return by (apply run_setattr, lookup_table_insert).
  cbn [tables sets]. rewrite insert_insert_eq. fold σ'.
  rewrite (run_bind_return _ _ σ' c σ')
    by (by apply (run_getattr self checkpoint σ' _ c Ht')).
  destruct (c =? 0) eqn:E; [apply Z.eqb_eq in E; done |].
  rewrite (run_bind_return _ _ _ _ _ (run_get_table _ _ _ Ht')).
  apply run_bind_raise. unfold fs_read_table. cbn [path set_checkpoint set_files].
  rewrite Hfile. reflexivity.
Qed.

(** [as_version(v)] wants the checkpoint file whose version is [v // 10]:
    from version 10 on, that is the number of the decade and not the
    version of a checkpoint. *)
Lemma as_version_without_file_of_decade_number
    (fs : filesystem) self σ t v inplace :
  tables σ !! self = Some t →
  (inplace = false → ∃ s, files_of σ self = Some s) →
  v / 10 ≠ 0 →
  fs !! checkpoint_path (path t) (v / 10) = None →
  (as_version fs self v inplace σ).1 = Raise FileNotFoundError.
Proof.
  intros Ht Hfiles Hv Hfile. unfold as_version. destruct inplace.
  - by rewrite (run_bind_raise _ _ _ _ _
                  (apply_from_checkpoint_without_file fs self σ t _ Ht Hv Hfile)).
  - destruct (Hfiles eq_refl) as [s Hs]. unfold files_of in Hs.
    rewrite Ht in Hs. cbn in Hs.
    destruct (files t) as [fl |] eqn:Hf; [| done]. cbn in Hs.
    assert (Hcopy : deepcopy self σ
              = (Return (fresh (dom (tables σ))),
                 mkStore (<[fresh (dom (tables σ))
                            := set_files (fresh (dom (sets σ))) t]> (tables σ))
                         (<[fresh (dom (sets σ)) := s]> (sets σ)))).
    { unfold deepcopy.
      rewrite (run_bind_return _ _ _ _ _ (run_get_table _ _ _ Ht)), Hf.
      rewrite (run_bind_return _ _ _ _ _ (run_get_set _ _ _ Hs)).
      reflexivity. }
    rewrite (run_bind_return _ _ _ _ _ Hcopy).
    erewrite run_bind_raise; [reflexivity |].
    eapply apply_from_checkpoint_without_file;
      [apply lookup_table_insert | done | done].
Qed.

(** When the pointer names such a version, the handler meant for the
    pointer catches that exception, and the replay goes on from the empty
    set. *)
Lemma as_newest_version_without_checkpoint_file
    (fs : filesystem) self σ t info members c :
  tables σ !! self = Some t →
  fs !! last_checkpoint_path (path t) = Some (Bytes info) →
  Json.loads info = Decoded (JObj members) →
  dict_get "version" members = Some (JInt c) →
  c ≠ 0 →
  fs !! checkpoint_path (path t) c = None →
  _as_newest_version fs self σ
  = _apply_partial_logs fs self (c + 9)
      (let fl := fresh (dom (sets σ)) in
       mkStore (<[self := set_checkpoint c (set_files fl t)]> (tables σ))
               (<[fl := ∅]> (sets σ))).
Proof.
  intros Ht Hptr Hinfo Hversion Hc Hfile. cbn zeta.
  set (fl := fresh (dom (sets σ))).
  set (σ' := mkStore (<[self := set_checkpoint c (set_files fl t)]> (tables σ))
                     (<[fl := ∅]> (sets σ))).
  assert (Ht' : tables σ' !! self = Some (set_checkpoint c (set_files fl t)))
    by apply lookup_table_insert.
  pose proof (apply_from_checkpoint_without_file fs self σ t c Ht Hc Hfile)
    as Hfrom.
  cbn zeta in Hfrom. fold fl σ' in Hfrom.
  unfold _as_newest_version.
  rewrite (run_bind_return _ _ σ tt σ'); cycle 1.
  { erewrite run_try_caught; [reflexivity |].
    rewrite (run_bind_return _ _ _ _ _ (run_get_table _ _ _ Ht)).
    rewrite (run_bind_return _ _ σ info σ)
      by (unfold fs_cat; rewrite Hptr; reflexivity).
    rewrite (run_bind_return _ _ σ (JObj members) σ)
      by (unfold json_loads; rewrite Hinfo; reflexivity).
    rewrite (run_bind_return _ _ σ (JInt c) σ)
      by (unfold subscript; rewrite Hversion; reflexivity).
    rewrite (run_bind_return _ _ σ c σ) by reflexivity.
    exact Hfrom. }
  by rewrite (run_bind_return _ _ σ' c σ')
    by (by apply (run_getattr self checkpoint σ' _ c Ht')).
Qed.

(** C5. On the table [dangling] the pointer names version 10 and the
    checkpoint file is absent. [DeltaTable("tbl")] returns an instance all
    the same, holding only what the log files of the decade add, while
    [as_version(100)], which looks for the same file, raises
    [FileNotFoundError]. *)
Theorem init_swallows_missing_checkpoint :
  let r := __init__ dangling "tbl" empty_store in
  dangling !! checkpoint_path "tbl" 10 = None
  ∧ r.1 = Return 1%positive
  ∧ checkpoint_of r.2 1%positive = Some 10
  ∧ files_of r.2 1%positive = Some {[ "tbl/C" ]}
  ∧ (as_version dangling 1%positive 100 true r.2).1 = Raise FileNotFoundError.
Proof. repeat split; vm_compute; reflexivity. Qed.

(** *** Resolving a version *)

(** C2. On the table [checkpointed] (checkpoint at version 10 listing [A]
    and [B], version 11 adding [C]) the instance opens with the three
    files, but [as_version(11)] takes [11 // 10 = 1] for the checkpoint
    version, looks for the checkpoint file of version 1 and raises
    [FileNotFoundError], in both modes. *)
Theorem as_version_11_misses_checkpoint_10 :
  opened.1 = Return 1%positive
  ∧ files_of opened.2 1%positive = Some {[ "tbl/A"; "tbl/B"; "tbl/C" ]}
  ∧ checkpointed !! checkpoint_path "tbl" 1 = None
  ∧ (as_version checkpointed 1%positive 11 true opened.2).1 = Raise FileNotFoundError
  ∧ checkpoint_of (as_version checkpointed 1%positive 11 true opened.2).2 1%positive
    = Some 1
  ∧ (as_version checkpointed 1%positive 11 false opened.2).1 = Raise FileNotFoundError.
Proof. repeat split; vm_compute; reflexivity. Qed.

(** C7. On the table [checkpointed], [as_version(0, inplace=False)]
    returns a new instance whose file set is [{A}] while its dataset view
    is still the one built over [{A, B, C}] when the table was opened, and
    that is what [to_table] reads. *)
Theorem as_version_copy_keeps_old_dataset :
  let r := as_version checkpointed 1%positive 0 false opened.2 in
  r.1 = Return 2%positive
  ∧ files_of r.2 2%positive = Some {[ "tbl/A" ]}
  ∧ dataset_view r.2 2%positive = Some (dataset_of {[ "tbl/A"; "tbl/B"; "tbl/C" ]})
  ∧ dataset_view r.2 2%positive ≠ Some (dataset_of {[ "tbl/A" ]})
  ∧ (to_table 2%positive r.2).1
    = Return (dataset_of {[ "tbl/A"; "tbl/B"; "tbl/C" ]}).
Proof.
  cbn zeta. split_and!; try (vm_compute; reflexivity). vm_compute. discriminate.
Qed.

(** *** One log record *)

Ltac simp_run :=
  cbn -[lookup insert fresh dom union difference elem_of bool_decide decide
        Json.loads data_path].

Ltac unfold_run :=
  unfold apply_log_line, json_loads, has_key, subscript, path_text, in_files,
    set_add, set_remove, set_contains, put_set, get_set, getattr, get_table,
    bind, ret, raise.

Lemma apply_other_record self σ line members :
  Json.loads line = Decoded (JObj members) →
  dict_get "add" members = None →
  dict_get "remove" members = None →
  apply_log_line self line σ = (Return tt, σ).
Proof.
  intros Hl Ha Hr. unfold_run. rewrite Hl, Ha, Hr. reflexivity.
Qed.

Lemma apply_add_record self σ t fl s line members am p :
  tables σ !! self = Some t → files t = Some fl → sets σ !! fl = Some s →
  Json.loads line = Decoded (JObj members) →
  dict_get "add" members = Some (JObj am) →
  dict_get "path" am = Some (JStr p) →
  dict_get "remove" members = None →
  apply_log_line self line σ
  = (Return tt,
     mkStore (tables σ) (<[fl := {[data_path (path t) p]} ∪ s]> (sets σ))).
Proof.
  intros Ht Hf Hs Hl Ha Hp Hr. unfold_run.
  rewrite Hl, Ha, Hr.
  repeat (progress (simp_run; rewrite ?Ht, ?Hf, ?Hs, ?Hp)). reflexivity.
Qed.

(** The guard of the removal: a record that only removes, and whose path,
    as the record gives it, is not a member of the file set, is applied
    without an exception and leaves the whole store as it was. The test
    is made on the path without the root, while the members of the set
    carry the root. *)
Lemma remove_of_absent_path_is_noop self σ t fl s line members rm r :
  tables σ !! self = Some t → files t = Some fl → sets σ !! fl = Some s →
  Json.loads line = Decoded (JObj members) →
  dict_get "add" members = None →
  dict_get "remove" members = Some (JObj rm) →
  dict_get "path" rm = Some (JStr r) →
  r ∉ s →
  apply_log_line self line σ = (Return tt, σ).
Proof.
  intros Ht Hf Hs Hl Ha Hr Hp Hout. unfold_run.
  rewrite Hl, Ha, Hr.
  repeat (progress (simp_run; rewrite ?Ht, ?Hf, ?Hs, ?Hp)).
  rewrite bool_decide_false by done. reflexivity.
Qed.

(** What a record that only removes does, in full: nothing when the path
    it names is not a member as it stands; otherwise it is the path
    prefixed with the root that the code removes, or fails to find. *)
Lemma apply_remove_record self σ t fl s line members rm r :
  tables σ !! self = Some t → files t = Some fl → sets σ !! fl = Some s →
  Json.loads line = Decoded (JObj members) →
  dict_get "add" members = None →
  dict_get "remove" members = Some (JObj rm) →
  dict_get "path" rm = Some (JStr r) →
  apply_log_line self line σ
  = if bool_decide (r ∈ s)
    then if bool_decide (data_path (path t) r ∈ s)
         then (Return tt,
               mkStore (tables σ)
                       (<[fl := s ∖ {[data_path (path t) r]}]> (sets σ)))
         else (Raise KeyError, σ)
    else (Return tt, σ).
Proof.
  intros Ht Hf Hs Hl Ha Hr Hp. unfold_run.
  rewrite Hl, Ha, Hr.
  repeat (progress (simp_run; rewrite ?Ht, ?Hf, ?Hs, ?Hp)).
  case_bool_decide; [| reflexivity].
  repeat (progress (simp_run; rewrite ?Ht, ?Hf, ?Hs, ?Hp)).
  by case_bool_decide.
Qed.

(** The root prefix makes the two tests differ: with [t/x] in the set, a
    remove of [t/x] under the root [t] passes the guard and then fails to
    find [t/t/x]. *)
Example remove_of_prefixed_member_raises :
  let σ := mkStore {[ 1%positive := mkDeltaTable "t" (Some 1%positive) None (Some 0) None ]}
                   {[ 1%positive := {[ "t/x" ]} ]} in
  (apply_log_line 1%positive (remove_entry "t/x") σ).1 = Raise KeyError.
Proof. vm_compute. reflexivity. Qed.

(** C9. On the table [stray_remove], under the root [/t], version 0 adds
    [x] and version 1 removes [/t/x]. The file that this remove names is
    [/t//t/x], which the file set [{/t/x}] resolved at version 0 does not
    hold: a remove of a path absent from the current set. It is not
    tolerated: [as_version(1)] raises [KeyError] in both modes, and so
    does the constructor, because the guard finds the path as the record
    gives it among the members and the removal then looks for it with the
    root in front. *)
Theorem remove_of_untracked_file_raises :
  let σ := mkStore {[ 1%positive := mkDeltaTable "/t" None None None None ]} ∅ in
  let r0 := as_version stray_remove 1%positive 0 false σ in
  plain_root "/t" = true
  ∧ r0.1 = Return 2%positive
  ∧ files_of r0.2 2%positive = Some {[ "/t/x" ]}
  ∧ version_of r0.2 2%positive = Some 0
  ∧ (data_path "/t" "/t/x" ∉ ({[ "/t/x" ]} : gset string))
  ∧ (as_version stray_remove 1%positive 1 true σ).1 = Raise KeyError
  ∧ (as_version stray_remove 1%positive 1 false σ).1 = Raise KeyError
  ∧ (__init__ stray_remove "/t" empty_store).1 = Raise KeyError.
Proof.
  cbn zeta. split_and!; try (vm_compute; reflexivity).
  intros H. apply elem_of_singleton in H. discriminate H.
Qed.

(** *** Replay of the short log *)

Lemma run_apply_from_checkpoint_0 (fs : filesystem) self σ t :
  tables σ !! self = Some t →
  _apply_from_checkpoint fs self 0 σ
  = (Return tt,
     let fl := fresh (dom (sets σ)) in
     mkStore (<[self := set_checkpoint 0 (set_files fl t)]> (tables σ))
             (<[fl := ∅]> (sets σ))).
Proof.
  intros Ht. unfold _apply_from_checkpoint, new_set, setattr, getattr, get_table, bind, ret.
  repeat (progress (simp_run; rewrite ?Ht, ?lookup_table_insert)).
  rewrite !insert_insert_eq. reflexivity.
Qed.

Lemma run_apply_log_files_cons (fs : filesystem) self target f rest σ t d data :
  first_digits20 f = Some d →
  tables σ !! self = Some t →
  fs !! f = Some (Bytes data) →
  apply_log_files fs self target (f :: rest) σ
  = bind (for_each (apply_log_line self) (split data))
      (λ _, bind (getattr self version)
              (λ v, if v =? target then ret tt
                    else apply_log_files fs self target rest))
      (mkStore (<[self := set_version (int_of_digits d) t]> (tables σ)) (sets σ)).
Proof.
  intros Hd Ht Hf. cbn [apply_log_files]. rewrite Hd.
  erewrite run_bind_return by reflexivity.
  erewrite run_bind_return by (by apply run_setattr).
  erewrite run_bind_return by (unfold fs_cat; rewrite Hf; reflexivity).
  reflexivity.
Qed.

Lemma run_rebuild_dataset self σ t fl s :
  tables σ !! self = Some t → files t = Some fl → sets σ !! fl = Some s →
  rebuild_dataset self σ
  = (Return tt,
     mkStore (<[self := set_pyarrow_dataset (dataset_of s) t]> (tables σ)) (sets σ)).
Proof.
  intros Ht Hf Hs. unfold rebuild_dataset.
  erewrite run_bind_return by (by eapply run_getattr).
  erewrite run_bind_return by (by eapply run_get_set).
  by apply run_setattr.
Qed.

(** In place, [as_version] ends by rebuilding the dataset view over the
    file set it has just resolved. *)
Lemma as_version_inplace_publishes (fs : filesystem) self v σ l σ' :
  as_version fs self v true σ = (Return l, σ') →
  l = self
  ∧ ∃ s, files_of σ' self = Some s ∧ dataset_view σ' self = Some (dataset_of s).
Proof.
  unfold as_version.
  destruct (_apply_from_checkpoint fs self (v / 10) σ) as [[[] | e] σ1] eqn:H1.
  2: { by rewrite (run_bind_raise _ _ _ _ _ H1). }
  rewrite (run_bind_return _ _ _ _ _ H1).
  destruct (_apply_partial_logs fs self v σ1) as [[[] | e] σ2] eqn:H2.
  2: { by rewrite (run_bind_raise _ _ _ _ _ H2). }
  rewrite (run_bind_return _ _ _ _ _ H2).
  destruct (tables σ2 !! self) as [t |] eqn:Ht.
  2: { rewrite (run_bind_raise _ _ σ2 OutsideModel σ2); [done |].
       unfold rebuild_dataset, getattr. do 2 apply run_bind_raise.
       unfold get_table. by rewrite Ht. }
  destruct (files t) as [fl |] eqn:Hf.
  2: { rewrite (run_bind_raise _ _ σ2 AttributeError σ2); [done |].
       apply run_bind_raise. by eapply run_getattr_unset. }
  destruct (sets σ2 !! fl) as [s |] eqn:Hs.
  2: { rewrite (run_bind_raise _ _ σ2 OutsideModel σ2); [done |].
       unfold rebuild_dataset.
       rewrite (run_bind_return _ _ _ _ _ (run_getattr _ files _ _ _ Ht Hf)).
       apply run_bind_raise. unfold get_set. by rewrite Hs. }
  rewrite (run_bind_return _ _ _ _ _ (run_rebuild_dataset _ _ _ _ _ Ht Hf Hs)).
  intros [= <- <-]. split; [done |]. exists s.
  unfold files_of, dataset_view. cbn [tables sets].
  rewrite lookup_table_insert. cbn. rewrite Hf. cbn. done.
Qed.

Lemma short_log_files :
  decade_log_files short_log "t" 0 = [log_path "t" 0; log_path "t" 1].
Proof. vm_compute. reflexivity. Qed.

Lemma short_log_file_0 :
  first_digits20 (log_path "t" 0) = Some "00000000000000000000"
  ∧ short_log !! log_path "t" 0
    = Some (Bytes (commit_info ++ newline ++ add_entry "A" ++ newline))
  ∧ split (commit_info ++ newline ++ add_entry "A" ++ newline)
    = [commit_info; add_entry "A"].
Proof. split_and!; vm_compute; reflexivity. Qed.

Lemma short_log_file_1 :
  first_digits20 (log_path "t" 1) = Some "00000000000000000001"
  ∧ short_log !! log_path "t" 1
    = Some (Bytes (commit_info ++ newline ++ remove_entry "A" ++ newline))
  ∧ split (commit_info ++ newline ++ remove_entry "A" ++ newline)
    = [commit_info; remove_entry "A"].
Proof. split_and!; vm_compute; reflexivity. Qed.

Lemma loads_commit_info :
  Json.loads commit_info = Decoded (JObj [("commitInfo", JObj [])]).
Proof. vm_compute. reflexivity. Qed.

Lemma loads_add_A :
  Json.loads (add_entry "A") = Decoded (JObj [("add", JObj [("path", JStr "A")])]).
Proof. vm_compute. reflexivity. Qed.

Lemma loads_remove_A :
  Json.loads (remove_entry "A")
  = Decoded (JObj [("remove", JObj [("path", JStr "A")])]).
Proof. vm_compute. reflexivity. Qed.

Lemma short_log_replay self σ t fl target :
  tables σ !! self = Some t → path t = "t" → files t = Some fl →
  checkpoint t = Some 0 → sets σ !! fl = Some ∅ →
  target = 0 ∨ target = 1 →
  ∃ σ' t',
    _apply_partial_logs short_log self target σ = (Return tt, σ')
    ∧ tables σ' !! self = Some t' ∧ files t' = Some fl
    ∧ version t' = Some target
    ∧ sets σ' !! fl = Some {[ "t/A" ]}.
Proof.
  intros Ht Hp Hf Hc Hs Htarget. unfold _apply_partial_logs.
  destruct short_log_file_0 as (Hd0 & Hcat0 & Hsplit0).
  destruct short_log_file_1 as (Hd1 & Hcat1 & Hsplit1).
  erewrite run_bind_return by (by apply run_get_table).
  erewrite run_bind_return by (by eapply run_getattr).
  rewrite Hp, short_log_files.
  rewrite (run_apply_log_files_cons _ _ _ _ _ _ _ _ _ Hd0 Ht Hcat0), Hsplit0.
  cbn [for_each].
  match goal with |- context [ bind _ _ ?σ ] => remember σ as σ1 eqn:E1 end.
  assert (Ht1 : tables σ1 !! self = Some (set_version 0 t))
    by (subst σ1; apply lookup_table_insert).
  assert (Hs1 : sets σ1 !! fl = Some ∅) by (subst σ1; exact Hs).
  clear E1.
  rewrite (run_bind_return _ _ σ1 tt
             (mkStore (tables σ1) (<[fl := {[ "t/A" ]}]> (sets σ1)))); cycle 1.
  { rewrite (run_bind_return _ _ σ1 tt σ1)
      by (eapply apply_other_record; [apply loads_commit_info | reflexivity..]).
    rewrite (run_bind_return _ _ σ1 tt
               (mkStore (tables σ1) (<[fl := {[ "t/A" ]}]> (sets σ1))));
      [reflexivity |].
    rewrite (apply_add_record self σ1 _ fl ∅ _ _ _ "A" Ht1 Hf Hs1 loads_add_A)
      by reflexivity.
    cbn [path set_version]. rewrite Hp. reflexivity. }
  match goal with |- context [ bind _ _ ?σ ] => remember σ as σ2 eqn:E2 end.
  assert (Ht2 : tables σ2 !! self = Some (set_version 0 t)) by (subst σ2; exact Ht1).
  assert (Hs2 : sets σ2 !! fl = Some {[ "t/A" ]})
    by (subst σ2; apply lookup_set_insert).
  clear E2.
  rewrite (run_bind_return _ _ σ2 0 σ2)
    by (by apply (run_getattr self version σ2 (set_version 0 t))).
  destruct Htarget as [-> | ->].
  { exists σ2, (set_version 0 t).
    split_and!; [reflexivity | exact Ht2 | exact Hf | reflexivity | exact Hs2]. }
  cbn [Z.eqb].
  rewrite (run_apply_log_files_cons _ _ _ _ _ _ _ _ _ Hd1 Ht2 Hcat1), Hsplit1.
  cbn [for_each].
  match goal with |- context [ bind _ _ ?σ ] => remember σ as σ3 eqn:E3 end.
  assert (Ht3 : tables σ3 !! self = Some (set_version 1 (set_version 0 t)))
    by (subst σ3; apply lookup_table_insert).
  assert (Hs3 : sets σ3 !! fl = Some {[ "t/A" ]}) by (subst σ3; exact Hs2).
  clear E3.
  rewrite (run_bind_return _ _ σ3 tt σ3); cycle 1.
  { rewrite (run_bind_return _ _ σ3 tt σ3)
      by (eapply apply_other_record; [apply loads_commit_info | reflexivity..]).
    rewrite (run_bind_return _ _ σ3 tt σ3); [reflexivity |].
    rewrite (apply_remove_record self σ3 _ fl {[ "t/A" ]} _ _ _ "A"
               Ht3 Hf Hs3 loads_remove_A) by reflexivity.
    rewrite bool_decide_false; [reflexivity |].
    apply not_elem_of_singleton. discriminate. }
  rewrite (run_bind_return _ _ σ3 1 σ3)
    by (by apply (run_getattr self version σ3 (set_version 1 (set_version 0 t)))).
  cbn [Z.eqb]. exists σ3, (set_version 1 (set_version 0 t)).
  split_and!; [reflexivity | exact Ht3 | exact Hf | reflexivity | exact Hs3].
Qed.

Lemma files_of_eq σ self t fl s :
  tables σ !! self = Some t → files t = Some fl → sets σ !! fl = Some s →
  files_of σ self = Some s.
Proof. intros Ht Hf Hs. unfold files_of. rewrite Ht. cbn. rewrite Hf. cbn. exact Hs. Qed.

Lemma version_of_eq σ self t :
  tables σ !! self = Some t → version_of σ self = version t.
Proof. intros Ht. unfold version_of. rewrite Ht. reflexivity. Qed.

Lemma as_version_short_log self σ t target :
  tables σ !! self = Some t → path t = "t" → target = 0 ∨ target = 1 →
  let r := as_version short_log self target true σ in
  r.1 = Return self
  ∧ files_of r.2 self = Some {[ "t/A" ]}
  ∧ version_of r.2 self = Some target.
Proof.
  intros Ht Hp Htarget. unfold as_version.
  assert (target / 10 = 0) as -> by (by destruct Htarget as [-> | ->]).
  rewrite (run_bind_return _ _ _ _ _ (run_apply_from_checkpoint_0 _ _ _ _ Ht)).
  cbn zeta.
  match goal with |- context [ bind _ _ ?σ ] => remember σ as σ1 eqn:E1 end.
  set (fl := fresh (dom (sets σ))) in E1.
  destruct (short_log_replay self σ1 (set_checkpoint 0 (set_files fl t)) fl target)
    as (σ2 & t2 & Hrun & Ht2 & Hf2 & Hv2 & Hs2);
    [subst σ1; apply lookup_table_insert | exact Hp | reflexivity | reflexivity
    | subst σ1; apply lookup_set_insert | exact Htarget |].
  rewrite (run_bind_return _ _ _ _ _ Hrun).
  rewrite (run_bind_return _ _ _ _ _ (run_rebuild_dataset _ _ _ _ _ Ht2 Hf2 Hs2)).
  cbn [ret fst snd].
  split_and!; [reflexivity | |].
  - eapply files_of_eq; [apply lookup_table_insert | exact Hf2 | exact Hs2].
  - erewrite version_of_eq by apply lookup_table_insert. exact Hv2.
Qed.

(** C1. On the table [short_log] ([add(A)] at version 0, [remove(A)] at
    version 1, no checkpoint), whatever instance of root [t] the store
    holds, [as_version(1)] and [as_version(0)] both return with the file
    set [{t/A}]: the remove of version 1 deletes nothing, because [A] is
    looked up in a set whose members carry the root prefix. *)
Theorem remove_after_add_keeps_file self σ t :
  tables σ !! self = Some t → path t = "t" →
  (as_version short_log self 1 true σ).1 = Return self
  ∧ files_of (as_version short_log self 1 true σ).2 self = Some {[ "t/A" ]}
  ∧ (as_version short_log self 0 true σ).1 = Return self
  ∧ files_of (as_version short_log self 0 true σ).2 self = Some {[ "t/A" ]}.
Proof.
  intros Ht Hp.
  destruct (as_version_short_log self σ t 1 Ht Hp) as (H1 & H1' & _); [by right |].
  destruct (as_version_short_log self σ t 0 Ht Hp) as (H0 & H0' & _); [by left |].
  done.
Qed.

Lemma remove_after_add_keeps_file_witness :
  let σ := mkStore {[ 1%positive := mkDeltaTable "t" None None None None ]} ∅ in
  (as_version short_log 1%positive 1 true σ).1 = Return 1%positive
  ∧ files_of (as_version short_log 1%positive 1 true σ).2 1%positive
    = Some {[ "t/A" ]}
  ∧ (as_version short_log 1%positive 0 true σ).1 = Return 1%positive
  ∧ files_of (as_version short_log 1%positive 0 true σ).2 1%positive
    = Some {[ "t/A" ]}.
Proof.
  cbn zeta.
  apply (remove_after_add_keeps_file 1%positive _
           (mkDeltaTable "t" None None None None)); reflexivity.
Defined.

(** *** Log lines with a space *)

Lemma str_app_assoc (a b c : string) : (a ++ b) ++ c = a ++ (b ++ c).
Proof. induction a as [| x a IH]; cbn [append]; [reflexivity | by rewrite IH]. Qed.

Lemma str_app_nil_r (a : string) : a ++ "" = a.
Proof. induction a as [| x a IH]; cbn [append]; [reflexivity | by rewrite IH]. Qed.

Lemma rev_app_app (p acc x : string) :
  String.rev_app (String.rev_app p acc) x = String.rev_app acc (p ++ x).
Proof.
  revert acc x. induction p as [| c p IH]; intros acc x;
    cbn [String.rev_app append]; [reflexivity |].
  rewrite IH. reflexivity.
Qed.

Lemma rev_app_app_r (a x y : string) :
  String.rev_app a x ++ y = String.rev_app a (x ++ y).
Proof.
  revert x. induction a as [| c a IH]; intros x; cbn [String.rev_app];
    [reflexivity |].
  rewrite IH. reflexivity.
Qed.

Lemma rev_rev_app (p acc : string) :
  String.rev (String.rev_app p acc) = String.rev acc ++ p.
Proof.
  unfold String.rev. rewrite rev_app_app, str_app_nil_r, rev_app_app_r.
  reflexivity.
Qed.

Lemma rev_app_cons_ne (p : string) c acc : String.rev_app p (String c acc) ≠ "".
Proof.
  revert c acc. induction p as [| x p IH]; intros c acc; cbn; [discriminate |].
  apply IH.
Qed.

Lemma literal_char_inv c :
  literal_char c = true →
  Ascii.eqb c dquote = false ∧ Ascii.eqb c backslash = false
  ∧ (N_of_ascii c <? 32)%N = false.
Proof.
  unfold literal_char. intros H.
  apply andb_true_iff in H as [H Hb]. apply andb_true_iff in H as [Hn Hq].
  apply negb_true_iff in Hn, Hq, Hb. done.
Qed.

Lemma plain_literal s : plain s = true → literal s = true.
Proof.
  induction s as [| c s IH]; [done |]. cbn. unfold plain_char.
  intros H. apply andb_true_iff in H as [H Hs].
  apply andb_true_iff in H as [Hc _]. rewrite Hc. by apply IH.
Qed.

Lemma literal_app a b : literal a = true → literal b = true → literal (a ++ b) = true.
Proof.
  intros Ha Hb. induction a as [| c a IH]; [done |]. cbn in *.
  apply andb_true_iff in Ha as [Hc Ha]. rewrite Hc. by apply IH.
Qed.

(** A string of literal bytes is read up to its closing quote. *)
Lemma scan_string_literal (s r acc : string) :
  literal s = true →
  scan_string (s ++ String dquote r) acc = Decoded (String.rev acc ++ s, r).
Proof.
  revert acc. induction s as [| c s IH]; intros acc Hs.
  - cbn [append scan_string]. rewrite Ascii.eqb_refl, str_app_nil_r. reflexivity.
  - cbn in Hs. apply andb_true_iff in Hs as [Hc Hs].
    destruct (literal_char_inv c Hc) as (Hq & Hb & Hn).
    cbn [append scan_string]. rewrite Hq, Hb, Hn, IH by done.
    unfold String.rev. cbn [String.rev_app]. rewrite !rev_app_app_r. reflexivity.
Qed.

(** A string of literal bytes that ends with the input has no closing
    quote. *)
Lemma scan_string_unterminated (s acc : string) :
  literal s = true → scan_string s acc = DecodeError.
Proof.
  revert acc. induction s as [| c s IH]; intros acc Hs; [reflexivity |].
  cbn in Hs. apply andb_true_iff in Hs as [Hc Hs].
  destruct (literal_char_inv c Hc) as (Hq & Hb & Hn).
  cbn [scan_string]. rewrite Hq, Hb, Hn. by apply IH.
Qed.

Lemma split_go_plain (p r cur : string) :
  plain p = true →
  split_go (p ++ r) cur = split_go r (String.rev_app p cur).
Proof.
  revert cur. induction p as [| c p IH]; intros cur Hp; [reflexivity |].
  cbn in Hp. apply andb_true_iff in Hp as [Hc Hp].
  unfold plain_char in Hc. apply andb_true_iff in Hc as [_ Hs].
  apply negb_true_iff in Hs.
  cbn [append split_go String.rev_app]. rewrite Hs. by apply IH.
Qed.

Lemma add_entry_shape (x : string) :
  add_entry x = add_head ++ x ++ String dquote "}}".
Proof.
  unfold add_entry, add_head, quoted. cbn [append].
  rewrite str_app_assoc. reflexivity.
Qed.

Lemma tokens_string (n : nat) (r : string) :
  tokens (S n) (String dquote r)
  = match scan_string r "" with
    | Decoded (str, r') => cons_token (TStr str) (tokens n r')
    | DecodeError => DecodeError
    | Unmodelled => Unmodelled
    end.
Proof.
  cbn [tokens]. change (is_json_ws dquote) with false. cbn match.
  change (scan_token (String dquote r))
    with (match scan_string r "" with
          | Decoded (str, r') => Decoded (TStr str, r')
          | DecodeError => DecodeError
          | Unmodelled => Unmodelled
          end).
  destruct (scan_string r "") as [[str r'] | |]; reflexivity.
Qed.

Lemma tokens_add_head (n : nat) (r : string) :
  tokens (7 + n) (add_head ++ r)
  = match scan_string r "" with
    | Decoded (str, r') =>
        match tokens n r' with
        | Decoded ts =>
            Decoded (TLBrace :: TStr "add" :: TColon :: TLBrace
                     :: TStr "path" :: TColon :: TStr str :: ts)
        | DecodeError => DecodeError
        | Unmodelled => Unmodelled
        end
    | DecodeError => DecodeError
    | Unmodelled => Unmodelled
    end.
Proof.
  transitivity
    (cons_token TLBrace (cons_token (TStr "add") (cons_token TColon
       (cons_token TLBrace (cons_token (TStr "path") (cons_token TColon
          (tokens (S n) (String dquote r)))))))); [reflexivity |].
  rewrite tokens_string.
  destruct (scan_string r "") as [[str r'] | |]; [| reflexivity..].
  destruct (tokens n r'); reflexivity.
Qed.

Lemma length_add_head (r : string) :
  String.length (add_head ++ r) = (16 + String.length r)%nat.
Proof. reflexivity. Qed.

Lemma loads_add_entry (x : string) :
  literal x = true →
  Json.loads (add_entry x) = Decoded (JObj [("add", JObj [("path", JStr x)])]).
Proof.
  intros Hx. unfold Json.loads. rewrite add_entry_shape, length_add_head.
  change (S (16 + ?n))%nat with (7 + (10 + n))%nat.
  rewrite tokens_add_head, scan_string_literal by done. reflexivity.
Qed.

Lemma loads_add_head (p : string) :
  literal p = true → Json.loads (add_head ++ p) = DecodeError.
Proof.
  intros Hp. unfold Json.loads. rewrite length_add_head.
  change (S (16 + ?n))%nat with (7 + (10 + n))%nat.
  rewrite tokens_add_head, scan_string_unterminated by done. reflexivity.
Qed.

Lemma split_add_entry_space (p q tail : string) :
  plain p = true →
  ∃ pieces, split (add_entry (p ++ " " ++ q) ++ tail) = (add_head ++ p) :: pieces.
Proof.
  intros Hp. unfold split. rewrite add_entry_shape, !str_app_assoc.
  change (split_go (add_head ++ ?r) "")
    with (split_go r (String.rev add_head)).
  rewrite split_go_plain by done.
  cbn [append split_go is_space].
  change (is_space " ") with true. cbn match.
  destruct (String.eqb_spec (String.rev_app p (String.rev add_head)) "") as [E | _].
  { exfalso. revert E. apply rev_app_cons_ne. }
  eexists. f_equal. rewrite rev_rev_app. reflexivity.
Qed.

Lemma apply_log_line_undecodable self line σ :
  Json.loads line = DecodeError →
  apply_log_line self line σ = (Raise JSONDecodeError, σ).
Proof.
  intros H. unfold apply_log_line. apply run_bind_raise.
  unfold json_loads. rewrite H. reflexivity.
Qed.

(** C10. A log line [{"add":{"path":"p q"}}], where [p] and [q] hold no
    whitespace, quote, backslash or control byte, is valid JSON; yet the
    replay of any log file made of that line raises [JSONDecodeError],
    because the file is cut at the space and the first piece ends inside
    the string. *)
Theorem split_on_space_breaks_valid_line (p q : string) :
  plain p = true → plain q = true →
  let line := add_entry (p ++ " " ++ q) in
  Json.loads line = Decoded (JObj [("add", JObj [("path", JStr (p ++ " " ++ q))])])
  ∧ ∀ (fs : filesystem) self σ target f rest t d,
      tables σ !! self = Some t →
      first_digits20 f = Some d →
      fs !! f = Some (Bytes (line ++ newline)) →
      (apply_log_files fs self target (f :: rest) σ).1 = Raise JSONDecodeError.
Proof.
  intros Hp Hq line. split.
  - apply loads_add_entry, literal_app; [by apply plain_literal |].
    cbn [append literal]. by rewrite plain_literal.
  - subst line. intros fs self σ target f rest t d Ht Hd Hf.
    rewrite (run_apply_log_files_cons _ _ _ _ _ _ _ _ _ Hd Ht Hf).
    destruct (split_add_entry_space p q newline Hp) as [pieces ->].
    cbn [for_each].
    erewrite run_bind_raise; [reflexivity |].
    apply run_bind_raise, apply_log_line_undecodable, loads_add_head.
    by apply plain_literal.
Qed.

Lemma split_on_space_breaks_valid_line_witness :
  plain "part" = true ∧ plain "0.parquet" = true
  ∧ Json.loads (add_entry "part 0.parquet")
    = Decoded (JObj [("add", JObj [("path", JStr "part 0.parquet")])])
  ∧ (apply_log_files spaced 1%positive 9 [log_path "tbl" 0]
       (mkStore {[ 1%positive := mkDeltaTable "tbl" None None (Some 0) None ]} ∅)).1
    = Raise JSONDecodeError.
Proof.
  split; [reflexivity |]. split; [reflexivity |].
  destruct (split_on_space_breaks_valid_line "part" "0.parquet" eq_refl eq_refl)
    as [Hline Hreplay].
  split; [exact Hline |].
  eapply Hreplay; vm_compute; reflexivity.
Defined.

(** On the table [spaced] the constructor itself fails that way. *)
Example init_spaced_raises :
  (__init__ spaced "tbl" empty_store).1 = Raise JSONDecodeError.
Proof. vm_compute. reflexivity. Qed.

(** *** Triples and read-only computations *)

Lemma triple_bind {A B} (m : M A) (k : A → M B) P R Q :
  triple P m R →
  (∀ a, triple (R (Return a)) (k a) Q) →
  (∀ e σ, R (Raise e) σ → Q (Raise e) σ) →
  triple P (bind m k) Q.
Proof.
  intros Hm Hk He σ HP. specialize (Hm σ HP). unfold bind.
  destruct (m σ) as [[a | e] σ']; cbn in *; [by apply Hk | by apply He].
Qed.

Lemma triple_conseq {A} (m : M A) (P P' : store → Prop) Q Q' :
  (∀ σ, P' σ → P σ) → triple P m Q → (∀ r σ, Q r σ → Q' r σ) →
  triple P' m Q'.
Proof. intros HP Hm HQ σ H. by apply HQ, Hm, HP. Qed.

Lemma triple_try {A} (m h : M A) e P R Q :
  triple P m R →
  triple (R (Raise e)) h Q →
  (∀ r σ, R r σ → r ≠ Raise e → Q r σ) →
  triple P (try_except m e h) Q.
Proof.
  intros Hm Hh Hother σ HP. specialize (Hm σ HP). unfold try_except.
  destruct (m σ) as [[a | e'] σ']; cbn in *.
  - by apply Hother.
  - destruct (decide (e' = e)) as [-> | Hne]; [by apply Hh |].
    apply Hother; [done | by intros [= ?]].
Qed.

Lemma reads_ret {A} (a : A) : reads (ret a).
Proof. done. Qed.
Lemma reads_raise {A} e : reads (@raise A e).
Proof. done. Qed.
Lemma reads_bind {A B} (m : M A) (k : A → M B) :
  reads m → (∀ a, reads (k a)) → reads (bind m k).
Proof.
  intros Hm Hk σ. unfold bind. specialize (Hm σ).
  destruct (m σ) as [[a | e] σ']; cbn in *; subst; [apply Hk | done].
Qed.
Lemma reads_get_table l : reads (get_table l).
Proof. intros σ. unfold get_table. by destruct (tables σ !! l). Qed.
Lemma reads_getattr {A} l (attr : DeltaTable → option A) : reads (getattr l attr).
Proof.
  apply reads_bind; [apply reads_get_table |]. intros t.
  destruct (attr t); [apply reads_ret | apply reads_raise].
Qed.
Lemma reads_get_set l : reads (get_set l).
Proof. intros σ. unfold get_set. by destruct (sets σ !! l). Qed.
Lemma reads_set_contains l x : reads (set_contains l x).
Proof. apply reads_bind; [apply reads_get_set | intros; apply reads_ret]. Qed.
Lemma reads_fs_cat (fs : filesystem) p : reads (fs_cat fs p).
Proof. unfold fs_cat. by destruct (fs !! p) as [[] |]. Qed.
Lemma reads_fs_read_table (fs : filesystem) p : reads (fs_read_table fs p).
Proof. unfold fs_read_table. by destruct (fs !! p) as [[] |]. Qed.
Lemma reads_json_loads s : reads (json_loads s).
Proof. unfold json_loads. by destruct (Json.loads s). Qed.
Lemma reads_subscript v k : reads (subscript v k).
Proof. unfold subscript. destruct v; try done. by destruct (dict_get k members). Qed.
Lemma reads_has_key v k : reads (has_key v k).
Proof. unfold has_key. by destruct v. Qed.
Lemma reads_path_text v : reads (path_text v).
Proof. unfold path_text. by destruct v. Qed.
Lemma reads_int_value v : reads (int_value v).
Proof. unfold int_value. by destruct v. Qed.
Lemma reads_in_files fl v : reads (in_files fl v).
Proof.
  unfold in_files. destruct v; try apply reads_raise;
    try apply reads_set_contains;
    (apply reads_bind; [apply reads_get_set | intros; apply reads_ret]).
Qed.

Lemma triple_reads {A} (m : M A) (I : store → Prop) :
  reads m → triple I m (λ _ σ, I σ).
Proof. intros Hm σ HI. by rewrite Hm. Qed.

(** *** The copy made by [as_version] is separate *)

Section separation.
Variables (σ0 : store) (me : loc).
Variable fs : filesystem.

Lemma keeps_reads {A} (m : M A) : reads m → keeps σ0 me m (λ _, True).
Proof.
  intros Hm σ Hs. rewrite Hm. split; [done |]. by destruct (m σ).1.
Qed.

Lemma keeps_ret {A} (a : A) (V : A → Prop) : V a → keeps σ0 me (ret a) V.
Proof. intros Ha σ Hs. done. Qed.

Lemma keeps_raise {A} e (V : A → Prop) : keeps σ0 me (raise e) V.
Proof. intros σ Hs. done. Qed.

Lemma keeps_bind {A B} (m : M A) (k : A → M B) (V : A → Prop) (W : B → Prop) :
  keeps σ0 me m V → (∀ a, V a → keeps σ0 me (k a) W) →
  keeps σ0 me (bind m k) W.
Proof.
  intros Hm Hk σ Hs. specialize (Hm σ Hs). unfold bind.
  destruct (m σ) as [[a | e] σ']; cbn in *.
  - destruct Hm as [Hs' Ha]. by apply Hk.
  - done.
Qed.

Lemma keeps_weaken {A} (m : M A) (V W : A → Prop) :
  keeps σ0 me m V → (∀ a, V a → W a) → keeps σ0 me m W.
Proof.
  intros Hm HVW σ Hs. specialize (Hm σ Hs).
  destruct (m σ) as [[a | e] σ']; cbn in *; [| done].
  destruct Hm. split; [done | by apply HVW].
Qed.

Lemma keeps_try {A} (m h : M A) e (V : A → Prop) :
  keeps σ0 me m V → keeps σ0 me h V → keeps σ0 me (try_except m e h) V.
Proof.
  intros Hm Hh σ Hs. specialize (Hm σ Hs). unfold try_except.
  destruct (m σ) as [[a | e'] σ']; cbn in *; [done |].
  destruct (decide (e' = e)); [| done]. apply Hh, Hm.
Qed.

Lemma keeps_for_each {A} (body : A → M unit) (l : list A) :
  (∀ x, keeps σ0 me (body x) (λ _, True)) →
  keeps σ0 me (for_each body l) (λ _, True).
Proof.
  intros Hbody. induction l as [| x l IH]; cbn [for_each].
  - by apply keeps_ret.
  - eapply keeps_bind; [apply Hbody | intros _ _; apply IH].
Qed.

Lemma keeps_getattr_files : keeps σ0 me (getattr me files) (is_new σ0).
Proof.
  intros σ Hs. rewrite reads_getattr. split; [done |].
  unfold getattr, bind, get_table.
  destruct (tables σ !! me) as [t |] eqn:Ht; cbn; [| done].
  destruct (files t) as [fl |] eqn:Hf; cbn; [| done].
  destruct Hs as [_ [_ Hown]]. by eapply Hown.
Qed.

Lemma keeps_setattr (upd : DeltaTable → DeltaTable) :
  (∀ t fl, files (upd t) = Some fl → files t = Some fl ∨ is_new σ0 fl) →
  keeps σ0 me (setattr me upd) (λ _, True).
Proof.
  intros Hupd σ Hs. pose proof Hs as [[HT HS] [Hme Hown]]. unfold setattr.
  destruct (tables σ !! me) as [t |] eqn:Ht; cbn; [| done].
  unfold separate, untouched, own. cbn [tables sets]. split_and!; try done.
  - intros l Hl. rewrite lookup_table_insert_ne by (by intros ->). by apply HT.
  - intros t' fl. rewrite lookup_table_insert. intros [= <-] Hf.
    destruct (Hupd _ _ Hf) as [Hf' | Hnew]; [by eapply Hown | done].
Qed.

Lemma keeps_new_set s : keeps σ0 me (new_set s) (is_new σ0).
Proof.
  intros σ [[HT HS] [Hme Hown]].
  assert (Hnew : is_new σ0 (fresh (dom (sets σ)))).
  { intros Hin. apply (is_fresh (dom (sets σ))).
    apply elem_of_dom. rewrite (HS _ Hin). by apply elem_of_dom. }
  unfold new_set, separate, untouched, own. cbn [fst snd tables sets].
  split_and!; try done.
  intros l Hl. rewrite lookup_set_insert_ne by (by intros <-). by apply HS.
Qed.

Lemma keeps_put_set fl s : is_new σ0 fl → keeps σ0 me (put_set fl s) (λ _, True).
Proof.
  intros Hnew σ [[HT HS] [Hme Hown]]. unfold put_set. cbn.
  unfold separate, untouched, own. cbn [tables sets]. split_and!; try done.
  intros l Hl. rewrite lookup_set_insert_ne by (by intros ->). by apply HS.
Qed.

Lemma keeps_set_add fl x : is_new σ0 fl → keeps σ0 me (set_add fl x) (λ _, True).
Proof.
  intros Hnew. eapply keeps_bind; [apply keeps_reads, reads_get_set |].
  intros s _. by apply keeps_put_set.
Qed.

Lemma keeps_set_remove fl x :
  is_new σ0 fl → keeps σ0 me (set_remove fl x) (λ _, True).
Proof.
  intros Hnew. eapply keeps_bind; [apply keeps_reads, reads_get_set |].
  intros s _. case_bool_decide; [by apply keeps_put_set | apply keeps_raise].
Qed.

Lemma keeps_apply_checkpoint_row row :
  keeps σ0 me (apply_checkpoint_row me row) (λ _, True).
Proof.
  unfold apply_checkpoint_row. destruct (row_add row) as [added_file |];
    [| by apply keeps_ret].
  destruct (String.eqb added_file ""); [by apply keeps_ret |].
  eapply keeps_bind; [apply keeps_getattr_files |]. intros fl Hfl.
  eapply keeps_bind; [apply keeps_reads, reads_get_table |]. intros t _.
  by apply keeps_set_add.
Qed.

Lemma keeps_apply_from_checkpoint c :
  keeps σ0 me (_apply_from_checkpoint fs me c) (λ _, True).
Proof.
  unfold _apply_from_checkpoint.
  eapply keeps_bind; [apply keeps_new_set |]. intros fl Hfl.
  eapply keeps_bind.
  { apply keeps_setattr. intros t fl' [= <-]. by right. }
  intros _ _. eapply keeps_bind.
  { apply keeps_setattr. intros t fl' Hf. by left. }
  intros _ _. eapply keeps_bind; [apply keeps_reads, reads_getattr |].
  intros c' _. destruct (c' =? 0); [by apply keeps_ret |].
  eapply keeps_bind; [apply keeps_reads, reads_get_table |]. intros t _.
  eapply keeps_bind; [apply keeps_reads, reads_fs_read_table |]. intros rows _.
  apply keeps_for_each, keeps_apply_checkpoint_row.
Qed.

Lemma keeps_apply_log_line line :
  keeps σ0 me (apply_log_line me line) (λ _, True).
Proof.
  unfold apply_log_line.
  eapply keeps_bind; [apply keeps_reads, reads_json_loads |]. intros meta_data _.
  eapply keeps_bind; [apply keeps_reads, reads_has_key |]. intros has_add _.
  eapply (keeps_bind _ _ (λ _, True)).
  { destruct has_add; [| by apply keeps_ret].
    eapply keeps_bind; [apply keeps_getattr_files |]. intros fl Hfl.
    eapply keeps_bind; [apply keeps_reads, reads_get_table |]. intros t _.
    eapply keeps_bind; [apply keeps_reads, reads_subscript |]. intros a _.
    eapply keeps_bind; [apply keeps_reads, reads_subscript |]. intros p _.
    eapply keeps_bind; [apply keeps_reads, reads_path_text |]. intros name _.
    by apply keeps_set_add. }
  intros _ _.
  eapply keeps_bind; [apply keeps_reads, reads_has_key |]. intros has_remove _.
  destruct has_remove; [| by apply keeps_ret].
  eapply keeps_bind; [apply keeps_reads, reads_subscript |]. intros r _.
  eapply keeps_bind; [apply keeps_reads, reads_subscript |]. intros remove_file _.
  eapply keeps_bind; [apply keeps_getattr_files |]. intros fl Hfl.
  eapply keeps_bind; [apply keeps_reads, reads_in_files |]. intros present _.
  destruct present; [| by apply keeps_ret].
  eapply keeps_bind; [apply keeps_getattr_files |]. intros fl' Hfl'.
  eapply keeps_bind; [apply keeps_reads, reads_get_table |]. intros t _.
  eapply keeps_bind; [apply keeps_reads, reads_path_text |]. intros name _.
  by apply keeps_set_remove.
Qed.

Lemma keeps_apply_log_files target log_files :
  keeps σ0 me (apply_log_files fs me target log_files) (λ _, True).
Proof.
  induction log_files as [| f rest IH]; cbn [apply_log_files];
    [by apply keeps_ret |].
  eapply (keeps_bind _ _ (λ _, True)).
  { destruct (first_digits20 f); [by apply keeps_ret | apply keeps_raise]. }
  intros d _. eapply keeps_bind.
  { apply keeps_setattr. intros t fl Hf. by left. }
  intros _ _. eapply keeps_bind; [apply keeps_reads, reads_fs_cat |].
  intros log _. eapply keeps_bind;
    [apply keeps_for_each, keeps_apply_log_line |].
  intros _ _. eapply keeps_bind; [apply keeps_reads, reads_getattr |].
  intros v _. destruct (v =? target); [by apply keeps_ret | apply IH].
Qed.

Lemma keeps_apply_partial_logs target :
  keeps σ0 me (_apply_partial_logs fs me target) (λ _, True).
Proof.
  unfold _apply_partial_logs.
  eapply keeps_bind; [apply keeps_reads, reads_get_table |]. intros t _.
  eapply keeps_bind; [apply keeps_reads, reads_getattr |]. intros c _.
  apply keeps_apply_log_files.
Qed.

End separation.

Lemma untouched_refl σ : untouched σ σ.
Proof. done. Qed.

(** [deepcopy] allocates the copy and its set outside the store it
    started from. *)
Lemma deepcopy_separate self σ :
  untouched σ (deepcopy self σ).2
  ∧ ∀ me, (deepcopy self σ).1 = Return me → separate σ me (deepcopy self σ).2.
Proof.
  unfold deepcopy, bind, get_table.
  destruct (tables σ !! self) as [t |] eqn:Ht; cbn; [| done].
  assert (Hfresh_t : fresh (dom (tables σ)) ∉ dom (tables σ)) by apply is_fresh.
  assert (Hfresh_s : fresh (dom (sets σ)) ∉ dom (sets σ)) by apply is_fresh.
  destruct (files t) as [fl |] eqn:Hf; cbn.
  - unfold get_set. destruct (sets σ !! fl) as [s |] eqn:Hs; cbn; [| done].
    assert (Hu : untouched σ
              (mkStore (<[fresh (dom (tables σ)) := set_files (fresh (dom (sets σ))) t]>
                         (tables σ))
                       (<[fresh (dom (sets σ)) := s]> (sets σ)))).
    { split; intros l Hl; cbn.
      - by rewrite lookup_table_insert_ne by (by intros <-).
      - by rewrite lookup_set_insert_ne by (by intros <-). }
    split; [done |]. intros me [= <-]. split; [done |]. split; [done |].
    intros t' fl'. cbn. rewrite lookup_table_insert. by intros [= <-] [= <-].
  - assert (Hu : untouched σ
              (mkStore (<[fresh (dom (tables σ)) := t]> (tables σ)) (sets σ))).
    { split; intros l Hl; cbn; [| done].
      by rewrite lookup_table_insert_ne by (by intros <-). }
    split; [done |]. intros me [= <-]. split; [done |]. split; [done |].
    intros t' fl'. cbn. rewrite lookup_table_insert. intros [= <-]. congruence.
Qed.

(** The copy is made and resolved outside the store [as_version] starts
    from. *)
Lemma as_version_copy_separate (fs : filesystem) self v σ :
  let r := as_version fs self v false σ in
  untouched σ r.2 ∧ ∀ new, r.1 = Return new → own σ new r.2.
Proof.
  cbn zeta. unfold as_version.
  generalize (deepcopy_separate self σ).
  destruct (deepcopy self σ) as [[me | e] σ1] eqn:Hd; cbn [fst snd];
    intros [Hu Hsep].
  2: { rewrite (run_bind_raise _ _ _ _ _ Hd). cbn [fst snd].
       split; [exact Hu |]. intros new Hnew. discriminate Hnew. }
  rewrite (run_bind_return _ _ _ _ _ Hd).
  specialize (Hsep me eq_refl).
  assert (Hk : keeps σ me
            (bind (_apply_from_checkpoint fs me (v / 10))
               (λ _, bind (_apply_partial_logs fs me v) (λ _, ret me)))
            (λ new, new = me)).
  { eapply keeps_bind; [apply keeps_apply_from_checkpoint |]. intros _ _.
    eapply keeps_bind; [apply keeps_apply_partial_logs |]. intros _ _.
    by apply keeps_ret. }
  specialize (Hk σ1 Hsep). cbn beta in Hk.
  destruct (bind _ _ σ1) as [r σ2]; cbn [fst snd] in *.
  destruct Hk as [[Hu2 Hown] Hr].
  split; [exact Hu2 |]. intros new ->. by subst new.
Qed.

(** Without the instance nothing is copied and the store stays as it is. *)
Lemma as_version_copy_of_nothing (fs : filesystem) self v σ :
  tables σ !! self = None → (as_version fs self v false σ).2 = σ.
Proof.
  intros Hnone. unfold as_version.
  rewrite (run_bind_raise _ _ σ OutsideModel σ); [done |].
  unfold deepcopy. apply run_bind_raise. unfold get_table. by rewrite Hnone.
Qed.

(** C8. [as_version(v, inplace=False)], whether it returns or raises,
    leaves the [version], the [checkpoint] and the file set of the
    instance it is called on as they were, and with them every instance
    and every set object of the store it starts from; and the instance it
    returns is a new object whose file set is a new set object. *)
Theorem as_version_copy_is_independent (fs : filesystem) self v σ :
  let r := as_version fs self v false σ in
  version_of r.2 self = version_of σ self
  ∧ checkpoint_of r.2 self = checkpoint_of σ self
  ∧ (∀ s, files_of σ self = Some s → files_of r.2 self = Some s)
  ∧ (∀ l, l ∈ dom (tables σ) → tables r.2 !! l = tables σ !! l)
  ∧ (∀ l, l ∈ dom (sets σ) → sets r.2 !! l = sets σ !! l)
  ∧ (∀ new, r.1 = Return new →
       (new ∉ dom (tables σ))
       ∧ (∀ t fl, tables r.2 !! new = Some t → files t = Some fl →
                  fl ∉ dom (sets σ))).
Proof.
  cbn zeta.
  destruct (as_version_copy_separate fs self v σ) as [[HT HS] Hown].
  assert (Hself : tables (as_version fs self v false σ).2 !! self
                  = tables σ !! self).
  { destruct (tables σ !! self) as [t |] eqn:Ht.
    - rewrite <- Ht. apply HT, elem_of_dom. by rewrite Ht.
    - by rewrite as_version_copy_of_nothing. }
  split_and!; [| | | exact HT | exact HS | exact Hown].
  - unfold version_of. by rewrite Hself.
  - unfold checkpoint_of. by rewrite Hself.
  - intros s. unfold files_of. rewrite Hself.
    destruct (tables σ !! self) as [t |]; [| done]. cbn.
    destruct (files t) as [fl |]; [| done]. cbn.
    intros Hs. rewrite HS; [done |]. apply elem_of_dom. by rewrite Hs.
Qed.

Lemma as_version_copy_is_independent_witness :
  let r := as_version checkpointed 1%positive 0 false opened.2 in
  version_of r.2 1%positive = Some 11
  ∧ checkpoint_of r.2 1%positive = Some 10
  ∧ files_of r.2 1%positive = Some {[ "tbl/A"; "tbl/B"; "tbl/C" ]}
  ∧ r.1 = Return 2%positive
  ∧ files_of r.2 2%positive = Some {[ "tbl/A" ]}.
Proof.
  cbn zeta.
  destruct (as_version_copy_is_independent checkpointed 1%positive 0 opened.2)
    as (Hv & Hc & Hf & _).
  rewrite Hv, Hc, (Hf {[ "tbl/A"; "tbl/B"; "tbl/C" ]});
    [| vm_compute; reflexivity].
  split_and!; vm_compute; reflexivity.
Defined.

(** *** Names of log files *)

Lemma str_length_app (a b : string) :
  String.length (a ++ b) = (String.length a + String.length b)%nat.
Proof. induction a as [| c a IH]; cbn [append String.length]; [done | by rewrite IH]. Qed.

Lemma length_fixed w n : String.length (fixed w n) = w.
Proof.
  revert n. induction w as [| w IH]; intros n; cbn [fixed]; [done |].
  rewrite str_length_app, IH. cbn. lia.
Qed.

Lemma zeros_snoc k : zeros k ++ "0" = zeros (S k).
Proof. induction k as [| k IH]; cbn [zeros append]; [done | by rewrite IH]. Qed.

Lemma fixed_zero w : fixed w 0 = zeros w.
Proof.
  induction w as [| w IH]; cbn [fixed]; [done |].
  change (0 / 10) with 0. rewrite IH. apply zeros_snoc.
Qed.

Lemma fixed_small j k n :
  0 ≤ n < 10 ^ Z.of_nat k → fixed (k + j) n = zeros j ++ fixed k n.
Proof.
  revert n. induction k as [| k IH]; intros n Hn.
  - assert (n = 0) as -> by (cbn in Hn; lia).
    cbn [Nat.add fixed]. by rewrite fixed_zero, str_app_nil_r.
  - cbn [Nat.add fixed]. rewrite IH, str_app_assoc; [done |].
    rewrite Nat2Z.inj_succ, Z.pow_succ_r in Hn by lia.
    split; [apply Z.div_pos; lia | apply Z.div_lt_upper_bound; lia].
Qed.

Lemma str_digits_fixed fuel n acc :
  (0 < fuel)%nat → 0 ≤ n < 2 ^ Z.of_nat fuel →
  ∃ k, (1 ≤ k)%nat
       ∧ str_digits fuel n acc = fixed k n ++ acc
       ∧ n < 10 ^ Z.of_nat k
       ∧ (k = 1%nat ∨ 10 ^ Z.of_nat (k - 1) ≤ n).
Proof.
  revert n acc. induction fuel as [| fuel IH]; intros n acc Hfuel Hn; [lia |].
  cbn [str_digits]. destruct (n / 10 =? 0) eqn:Hq.
  - apply Z.eqb_eq in Hq. exists 1%nat. split_and!; [done | | | by left].
    + cbn [fixed append]. reflexivity.
    + change (10 ^ Z.of_nat 1) with 10. Z.div_mod_to_equations. lia.
  - apply Z.eqb_neq in Hq.
    rewrite Nat2Z.inj_succ, Z.pow_succ_r in Hn by lia.
    assert (Hn10 : 0 ≤ n / 10 < 2 ^ Z.of_nat fuel)
      by (Z.div_mod_to_equations; lia).
    assert (Hfuel' : (0 < fuel)%nat).
    { destruct fuel; [| lia]. cbn in Hn10. lia. }
    destruct (IH (n / 10) (String (digit_char (n mod 10)) acc) Hfuel' Hn10)
      as (k & Hk & Heq & Hlt & Hmin).
    exists (S k). split_and!; [lia | | |].
    + rewrite Heq. cbn [fixed]. by rewrite str_app_assoc.
    + rewrite Nat2Z.inj_succ, Z.pow_succ_r by lia. Z.div_mod_to_equations. lia.
    + right. replace (S k - 1)%nat with k by lia.
      destruct Hmin as [-> | Hmin].
      * change (10 ^ Z.of_nat 1) with 10. Z.div_mod_to_equations. lia.
      * replace k with (S (k - 1)) at 1 by lia.
        rewrite Nat2Z.inj_succ, Z.pow_succ_r by lia.
        Z.div_mod_to_equations. lia.
Qed.

(** Within its width, [f"{n:0w}"] is the fixed-width text of [n]. *)
Lemma format_fixed w n :
  (1 ≤ w)%nat → 0 ≤ n < 10 ^ Z.of_nat w → format_0w w n = fixed w n.
Proof.
  intros Hw Hn. unfold format_0w.
  destruct (n <? 0) eqn:Hneg; [apply Z.ltb_lt in Hneg; lia |].
  unfold zfill, str_nonneg.
  destruct (str_digits_fixed (S (Z.to_nat (Z.log2 n))) n "") as (k & Hk & -> & Hlt & Hmin);
    [lia | |].
  { split; [lia |]. rewrite Nat2Z.inj_succ, Z2Nat.id by apply Z.log2_nonneg.
    destruct (decide (n = 0)) as [-> | Hne]; [done |].
    apply Z.log2_spec. lia. }
  rewrite str_app_nil_r, length_fixed.
  assert (Hkw : (k ≤ w)%nat).
  { destruct Hmin as [-> | Hmin]; [done |].
    assert (10 ^ Z.of_nat (k - 1) < 10 ^ Z.of_nat w) as Hpow by lia.
    apply Z.pow_lt_mono_r_iff in Hpow; lia. }
  rewrite <- fixed_small by lia. f_equal. lia.
Qed.

Lemma digit_char_spec d :
  0 ≤ d ≤ 9 →
  is_digit (digit_char d) = true ∧ digit_val (digit_char d) = d
  ∧ N_of_ascii (digit_char d) = (48 + Z.to_N d)%N.
Proof.
  intros Hd.
  assert (d = 0 ∨ d = 1 ∨ d = 2 ∨ d = 3 ∨ d = 4 ∨ d = 5 ∨ d = 6 ∨ d = 7
          ∨ d = 8 ∨ d = 9) as Hcases by lia.
  repeat (destruct Hcases as [-> | Hcases]; [done |]). by subst.
Qed.

Lemma mod10_range n : 0 ≤ n mod 10 ≤ 9.
Proof. Z.div_mod_to_equations. lia. Qed.

Lemma all_digits_app a b :
  all_digits (a ++ b) = all_digits a && all_digits b.
Proof.
  induction a as [| c a IH]; cbn [append all_digits]; [done |].
  by rewrite IH, andb_assoc.
Qed.

Lemma all_digits_fixed w n : all_digits (fixed w n) = true.
Proof.
  revert n. induction w as [| w IH]; intros n; cbn [fixed]; [done |].
  rewrite all_digits_app, IH. cbn [all_digits].
  by destruct (digit_char_spec (n mod 10) (mod10_range n)) as [-> _].
Qed.

Lemma int_digits_snoc s c acc :
  int_digits (s ++ String c "") acc = 10 * int_digits s acc + digit_val c.
Proof.
  revert acc. induction s as [| x s IH]; intros acc; cbn [append int_digits];
    [done | by rewrite IH].
Qed.

Lemma int_of_fixed w n :
  0 ≤ n < 10 ^ Z.of_nat w → int_of_digits (fixed w n) = n.
Proof.
  unfold int_of_digits. revert n. induction w as [| w IH]; intros n Hn.
  - cbn in *. lia.
  - cbn [fixed]. rewrite int_digits_snoc, IH.
    + destruct (digit_char_spec (n mod 10) (mod10_range n)) as (_ & -> & _).
      Z.div_mod_to_equations. lia.
    + rewrite Nat2Z.inj_succ, Z.pow_succ_r in Hn by lia.
      Z.div_mod_to_equations. lia.
Qed.

Lemma fixed_inj w a b :
  0 ≤ a < 10 ^ Z.of_nat w → 0 ≤ b < 10 ^ Z.of_nat w →
  fixed w a = fixed w b → a = b.
Proof.
  intros Ha Hb Heq. rewrite <- (int_of_fixed w a), <- (int_of_fixed w b) by done.
  by rewrite Heq.
Qed.

Lemma compare_app_same p x y :
  String.compare (p ++ x) (p ++ y) = String.compare x y.
Proof.
  induction p as [| c p IH]; cbn [append String.compare]; [done |].
  unfold Ascii.compare. by rewrite N.compare_refl.
Qed.

Lemma compare_digit_chars a b :
  0 ≤ a ≤ 9 → 0 ≤ b ≤ 9 →
  Ascii.compare (digit_char a) (digit_char b) = (a ?= b).
Proof.
  intros Ha Hb. unfold Ascii.compare.
  destruct (digit_char_spec a Ha) as (_ & _ & ->).
  destruct (digit_char_spec b Hb) as (_ & _ & ->).
  destruct (N.compare_spec (48 + Z.to_N a) (48 + Z.to_N b)),
    (Z.compare_spec a b); try done; lia.
Qed.

(** On texts of the same width the order of the strings is the order of
    the numbers. *)
Lemma compare_fixed w a b x y :
  0 ≤ a < 10 ^ Z.of_nat w → 0 ≤ b < 10 ^ Z.of_nat w →
  String.compare (fixed w a ++ x) (fixed w b ++ y)
  = match a ?= b with Eq => String.compare x y | r => r end.
Proof.
  revert a b x y. induction w as [| w IH]; intros a b x y Ha Hb.
  - cbn in Ha, Hb. assert (a = 0) as -> by lia. assert (b = 0) as -> by lia.
    done.
  - rewrite Nat2Z.inj_succ, Z.pow_succ_r in Ha, Hb by lia.
    cbn [fixed]. rewrite !str_app_assoc. cbn [append].
    rewrite IH by (Z.div_mod_to_equations; lia).
    cbn [String.compare].
    rewrite compare_digit_chars by apply mod10_range.
    destruct (Z.compare_spec (a / 10) (b / 10)) as [Hq | Hq | Hq].
    + destruct (Z.compare_spec (a mod 10) (b mod 10)) as [Hr | Hr | Hr].
      * assert (a = b) as -> by (Z.div_mod_to_equations; lia).
        by rewrite Z.compare_refl.
      * assert (a < b) as ->%Z.compare_lt_iff by (Z.div_mod_to_equations; lia).
        done.
      * assert (a > b) as Hgt by (Z.div_mod_to_equations; lia).
        by rewrite Hgt.
    + assert (a < b) as ->%Z.compare_lt_iff by (Z.div_mod_to_equations; lia).
      done.
    + assert (a > b) as Hgt by (Z.div_mod_to_equations; lia). by rewrite Hgt.
Qed.

Lemma starts_with_same_length p p' r :
  String.length p = String.length p' →
  starts_with p (p' ++ r) = true → p = p'.
Proof.
  revert p'. induction p as [| a p IH]; intros [| b p'] Hlen H; try done.
  cbn [append starts_with] in H. apply andb_true_iff in H as [Hab H].
  apply Ascii.eqb_eq in Hab as ->. f_equal. apply IH; [by injection Hlen | done].
Qed.

Lemma drop_app p r : drop (String.length p) (p ++ r) = r.
Proof. induction p as [| c p IH]; cbn [append String.length drop]; [by destruct r | done]. Qed.

Lemma take_app p r : take (String.length p) (p ++ r) = p.
Proof.
  induction p as [| c p IH]; cbn [append String.length take]; [by destruct r |].
  by rewrite IH.
Qed.

Lemma take_app_le k a r :
  (k ≤ String.length a)%nat → take k (a ++ r) = take k a.
Proof.
  revert k. induction a as [| c a IH]; intros k Hk.
  - cbn in Hk. assert (k = 0%nat) as -> by lia. cbn. by destruct r.
  - destruct k as [| k]; [done |]. cbn [append take]. rewrite IH; [done |].
    cbn in Hk. lia.
Qed.

Lemma all_digits_take_stops k a c b :
  is_digit c = false →
  all_digits (take k (a ++ String c b)) = true → (k ≤ String.length a)%nat.
Proof.
  intros Hc. revert k. induction a as [| x a IH]; intros k H.
  - destruct k as [| k]; [done |]. cbn [append take all_digits] in H.
    by rewrite Hc in H.
  - destruct k as [| k]; [cbn; lia |]. cbn [append take all_digits] in H.
    apply andb_true_iff in H as [_ H]. apply IH in H. cbn. lia.
Qed.

(** A run of twenty digits does not cross a byte that is not a digit. *)
Lemma first_digits20_skip a c b :
  first_digits20 a = None → is_digit c = false →
  first_digits20 (a ++ String c b) = first_digits20 b.
Proof.
  intros Ha Hc. induction a as [| x a IH].
  - cbn [append first_digits20 take all_digits]. rewrite Hc, andb_false_r.
    reflexivity.
  - cbn [first_digits20] in Ha.
    destruct ((String.length (take 20 (String x a)) =? 20)%nat
              && all_digits (take 20 (String x a))) eqn:Htest; [done |].
    change (String x a ++ String c b) with (String x (a ++ String c b)).
    cbn [first_digits20].
    destruct ((String.length (take 20 (String x (a ++ String c b))) =? 20)%nat
              && all_digits (take 20 (String x (a ++ String c b)))) eqn:Htest';
      [| by apply IH].
    exfalso. apply andb_true_iff in Htest' as [Hlen Hall].
    pose proof (all_digits_take_stops 20 (String x a) c b Hc Hall) as Hk.
    change (String x (a ++ String c b)) with (String x a ++ String c b) in Hlen, Hall.
    rewrite take_app_le in Hlen, Hall by done.
    by rewrite Hlen, Hall in Htest.
Qed.

Lemma first_digits20_skip_no_digit p b :
  no_digit p = true → first_digits20 (p ++ b) = first_digits20 b.
Proof.
  induction p as [| c p IH]; intros Hp; [done |].
  cbn in Hp. apply andb_true_iff in Hp as [Hc Hp]. apply negb_true_iff in Hc.
  change (String c p ++ b) with ("" ++ String c (p ++ b)).
  rewrite first_digits20_skip by done. by apply IH.
Qed.

Lemma first_digits20_fixed n s :
  first_digits20 (fixed 20 n ++ s) = Some (fixed 20 n).
Proof.
  assert (Htake : take 20 (fixed 20 n ++ s) = fixed 20 n).
  { rewrite <- (length_fixed 20 n) at 1. apply take_app. }
  destruct (fixed 20 n ++ s) as [| c r] eqn:E; cbn [first_digits20];
    rewrite Htake, length_fixed, all_digits_fixed; reflexivity.
Qed.

Lemma log_path_fixed root v :
  0 ≤ v < 10 ^ 20 → log_path root v = log_dir root ++ fixed 20 v ++ ".json".
Proof.
  intros Hv. unfold log_path. rewrite format_fixed; [done | lia | exact Hv].
Qed.

(** The version read back from the name of a log file. *)
Lemma first_digits20_log_path root v :
  first_digits20 root = None → 0 ≤ v < 10 ^ 20 →
  first_digits20 (log_path root v) = Some (fixed 20 v)
  ∧ int_of_digits (fixed 20 v) = v.
Proof.
  intros Hroot Hv. split; [| by apply int_of_fixed].
  rewrite log_path_fixed by done. unfold log_dir.
  rewrite !str_app_assoc.
  change ("/_delta_log/" ++ ?r) with (String "/" ("_delta_log/" ++ r)).
  rewrite first_digits20_skip by done.
  rewrite first_digits20_skip_no_digit by done.
  apply first_digits20_fixed.
Qed.

Lemma log_path_inj root a b :
  first_digits20 root = None → 0 ≤ a < 10 ^ 20 → 0 ≤ b < 10 ^ 20 →
  log_path root a = log_path root b → a = b.
Proof.
  intros Hroot Ha Hb Heq.
  destruct (first_digits20_log_path root a Hroot Ha) as [Hda Hia].
  destruct (first_digits20_log_path root b Hroot Hb) as [Hdb Hib].
  assert (E : Some (fixed 20 a) = Some (fixed 20 b))
    by (etransitivity; [symmetry; exact Hda | by rewrite Heq]).
  apply (inj Some) in E. rewrite <- Hia, <- Hib. f_equal. exact E.
Qed.

Lemma log_path_le root a b :
  0 ≤ a < 10 ^ 20 → 0 ≤ b < 10 ^ 20 →
  String.le (log_path root a) (log_path root b) → a ≤ b.
Proof.
  intros Ha Hb. unfold String.le, String.leb.
  rewrite !log_path_fixed, compare_app_same, compare_fixed by done.
  destruct (Z.compare_spec a b); [lia | lia | done].
Qed.

(** A log file matched by the pattern of the decade of [c] has its
    version in that decade. *)
Lemma glob_match_decade root c v :
  0 ≤ c < 10 ^ 20 → 0 ≤ v < 10 ^ 20 →
  glob_match (log_dir root) (format_0w 19 (c / 10)) ".json" (log_path root v) = true →
  v / 10 = c / 10.
Proof.
  intros Hc Hv. unfold glob_match.
  rewrite log_path_fixed, drop_app by done.
  rewrite format_fixed by (try lia; change (Z.of_nat 19) with 19;
                           Z.div_mod_to_equations; lia).
  intros H. apply andb_true_iff in H as [_ H].
  apply andb_true_iff in H as [H _]. apply andb_true_iff in H as [_ H].
  change (fixed 20 v) with (fixed 19 (v / 10) ++ String (digit_char (v mod 10)) "") in H.
  rewrite str_app_assoc in H.
  apply starts_with_same_length in H; [| by rewrite !length_fixed].
  symmetry. eapply (fixed_inj 19); [| | exact H];
    change (Z.of_nat 19) with 19; Z.div_mod_to_equations; lia.
Qed.

(** *** The version after opening *)

Lemma keeps_tables_reads {A} (m : M A) : reads m → keeps_tables m.
Proof. intros Hm σ. by rewrite Hm. Qed.

Lemma keeps_tables_bind {A B} (m : M A) (k : A → M B) :
  keeps_tables m → (∀ a, keeps_tables (k a)) → keeps_tables (bind m k).
Proof.
  intros Hm Hk σ. unfold bind. specialize (Hm σ).
  destruct (m σ) as [[a | e] σ']; cbn in *; [| done]. by rewrite Hk.
Qed.

Lemma keeps_tables_put_set fl s : keeps_tables (put_set fl s).
Proof. done. Qed.

Lemma keeps_tables_set_add fl x : keeps_tables (set_add fl x).
Proof.
  apply keeps_tables_bind; [apply keeps_tables_reads, reads_get_set |].
  intros s. apply keeps_tables_put_set.
Qed.

Lemma keeps_tables_set_remove fl x : keeps_tables (set_remove fl x).
Proof.
  apply keeps_tables_bind; [apply keeps_tables_reads, reads_get_set |].
  intros s. case_bool_decide; [apply keeps_tables_put_set | done].
Qed.

Lemma keeps_tables_apply_log_line self line :
  keeps_tables (apply_log_line self line).
Proof.
  unfold apply_log_line.
  apply keeps_tables_bind; [apply keeps_tables_reads, reads_json_loads |].
  intros meta_data.
  apply keeps_tables_bind; [apply keeps_tables_reads, reads_has_key |].
  intros has_add. apply keeps_tables_bind.
  { destruct has_add; [| done].
    apply keeps_tables_bind; [apply keeps_tables_reads, reads_getattr |].
    intros fl.
    apply keeps_tables_bind; [apply keeps_tables_reads, reads_get_table |].
    intros t.
    apply keeps_tables_bind; [apply keeps_tables_reads, reads_subscript |].
    intros a.
    apply keeps_tables_bind; [apply keeps_tables_reads, reads_subscript |].
    intros p.
    apply keeps_tables_bind; [apply keeps_tables_reads, reads_path_text |].
    intros name. apply keeps_tables_set_add. }
  intros _.
  apply keeps_tables_bind; [apply keeps_tables_reads, reads_has_key |].
  intros has_remove. destruct has_remove; [| done].
  apply keeps_tables_bind; [apply keeps_tables_reads, reads_subscript |].
  intros r.
  apply keeps_tables_bind; [apply keeps_tables_reads, reads_subscript |].
  intros remove_file.
  apply keeps_tables_bind; [apply keeps_tables_reads, reads_getattr |].
  intros fl.
  apply keeps_tables_bind; [apply keeps_tables_reads, reads_in_files |].
  intros present. destruct present; [| done].
  apply keeps_tables_bind; [apply keeps_tables_reads, reads_getattr |].
  intros fl'.
  apply keeps_tables_bind; [apply keeps_tables_reads, reads_get_table |].
  intros t.
  apply keeps_tables_bind; [apply keeps_tables_reads, reads_path_text |].
  intros name. apply keeps_tables_set_remove.
Qed.

Lemma keeps_tables_for_each {A} (body : A → M unit) l :
  (∀ x, keeps_tables (body x)) → keeps_tables (for_each body l).
Proof.
  intros Hbody. induction l as [| x l IH]; cbn [for_each]; [done |].
  apply keeps_tables_bind; [apply Hbody | intros _; apply IH].
Qed.

Lemma instance_at_tables self root c v σ σ' :
  tables σ' = tables σ → instance_at self root c v σ → instance_at self root c v σ'.
Proof. intros E (t & Ht & H). exists t. by rewrite E. Qed.

(** The loop changes [version] only, and leaves [stop_version] in it. *)
Lemma apply_log_files_version (fs : filesystem) self root c target log_files :
  ∀ v0,
    triple (instance_at self root c v0)
      (apply_log_files fs self target log_files)
      (λ r σ, ∃ v, instance_at self root c v σ
                   ∧ (r = Return tt → v = stop_version target log_files v0)).
Proof.
  induction log_files as [| f rest IH]; intros v0 σ Hσ.
  { exists v0. done. }
  destruct Hσ as (t & Ht & Hp & Hc & Hv). cbn [apply_log_files stop_version].
  destruct (first_digits20 f) as [d |] eqn:Hd.
  2: { rewrite (run_bind_raise _ _ σ IndexError σ) by reflexivity.
       exists v0. split; [by exists t | done]. }
  rewrite (run_bind_return _ _ σ d σ) by reflexivity.
  rewrite (run_bind_return _ _ _ _ _ (run_setattr _ _ _ _ Ht)).
  set (v := int_of_digits d). set (σ1 := mkStore _ _).
  assert (H1 : instance_at self root c (Some v) σ1).
  { exists (set_version v t). split; [apply lookup_table_insert | done]. }
  generalize (reads_fs_cat fs f σ1).
  destruct (fs_cat fs f σ1) as [[log | e] σ1'] eqn:Hcat; cbn [snd]; intros ->.
  2: { rewrite (run_bind_raise _ _ _ _ _ Hcat). exists (Some v). done. }
  rewrite (run_bind_return _ _ _ _ _ Hcat).
  generalize (keeps_tables_for_each (apply_log_line self) (split log)
                (keeps_tables_apply_log_line self) σ1).
  destruct (for_each (apply_log_line self) (split log) σ1) as [[[] | e] σ2] eqn:Hlines;
    cbn [snd]; intros Htables.
  2: { rewrite (run_bind_raise _ _ _ _ _ Hlines). exists (Some v).
       split; [| done]. by apply (instance_at_tables _ _ _ _ σ1). }
  rewrite (run_bind_return _ _ _ _ _ Hlines).
  assert (H2 : instance_at self root c (Some v) σ2)
    by (by apply (instance_at_tables _ _ _ _ σ1)).
  destruct H2 as (t2 & Ht2 & Hp2 & Hc2 & Hv2).
  rewrite (run_bind_return _ _ _ _ _ (run_getattr _ version _ _ _ Ht2 Hv2)).
  destruct (v =? target) eqn:Hstop.
  - exists (Some v). split; [by exists t2 | done].
  - apply IH. by exists t2.
Qed.

Lemma invariant_bind {A B} I (m : M A) (k : A → M B) :
  invariant I m → (∀ a, invariant I (k a)) → invariant I (bind m k).
Proof.
  intros Hm Hk. eapply triple_bind; [exact Hm | exact Hk | done].
Qed.

Lemma invariant_try {A} I (m h : M A) e :
  invariant I m → invariant I h → invariant I (try_except m e h).
Proof. intros Hm Hh. eapply triple_try; [exact Hm | exact Hh | done]. Qed.

Lemma invariant_for_each {A} I (body : A → M unit) l :
  (∀ x, invariant I (body x)) → invariant I (for_each body l).
Proof.
  intros Hbody. induction l as [| x l IH]; cbn [for_each]; [by intros σ |].
  apply invariant_bind; [apply Hbody | intros _; apply IH].
Qed.

Section rooted.
Variables (fs : filesystem) (self : loc) (root : string).

Lemma rooted_keeps_tables {A} (m : M A) :
  keeps_tables m → invariant (rooted self root) m.
Proof. intros Hm σ (t & Ht & Hp). exists t. by rewrite Hm. Qed.

Lemma rooted_setattr upd :
  (∀ t, path (upd t) = path t) → invariant (rooted self root) (setattr self upd).
Proof.
  intros Hupd σ (t & Ht & Hp). rewrite (run_setattr _ _ _ _ Ht). cbn [fst snd].
  exists (upd t). split; [apply lookup_table_insert | by rewrite Hupd].
Qed.

Lemma rooted_apply_checkpoint_row row :
  invariant (rooted self root) (apply_checkpoint_row self row).
Proof.
  apply rooted_keeps_tables. unfold apply_checkpoint_row.
  destruct (row_add row) as [added_file |]; [| done].
  destruct (String.eqb added_file ""); [done |].
  apply keeps_tables_bind; [apply keeps_tables_reads, reads_getattr |].
  intros fl.
  apply keeps_tables_bind; [apply keeps_tables_reads, reads_get_table |].
  intros t. apply keeps_tables_set_add.
Qed.

Lemma rooted_apply_from_checkpoint c :
  invariant (rooted self root) (_apply_from_checkpoint fs self c).
Proof.
  unfold _apply_from_checkpoint.
  apply invariant_bind; [by apply rooted_keeps_tables |]. intros fl.
  apply invariant_bind; [by apply rooted_setattr |]. intros _.
  apply invariant_bind; [by apply rooted_setattr |]. intros _.
  apply invariant_bind;
    [apply rooted_keeps_tables, keeps_tables_reads, reads_getattr |].
  intros c'. destruct (c' =? 0); [by intros σ |].
  apply invariant_bind;
    [apply rooted_keeps_tables, keeps_tables_reads, reads_get_table |].
  intros t.
  apply invariant_bind;
    [apply rooted_keeps_tables, keeps_tables_reads, reads_fs_read_table |].
  intros rows. apply invariant_for_each, rooted_apply_checkpoint_row.
Qed.

(** What [_as_newest_version] leaves in [checkpoint] and [version] when
    it returns. *)
Lemma as_newest_version_version :
  triple (rooted self root) (_as_newest_version fs self)
    (λ r σ, r = Return tt →
       ∃ c v0, instance_at self root (Some c)
                 (stop_version (c + 9) (decade_log_files fs root c) v0) σ).
Proof.
  unfold _as_newest_version.
  eapply triple_bind with (R := λ _ σ, rooted self root σ); [| | done].
  { apply invariant_try; [| by intros σ].
    apply invariant_bind;
      [apply rooted_keeps_tables, keeps_tables_reads, reads_get_table |].
    intros t.
    apply invariant_bind;
      [apply rooted_keeps_tables, keeps_tables_reads, reads_fs_cat |].
    intros info.
    apply invariant_bind;
      [apply rooted_keeps_tables, keeps_tables_reads, reads_json_loads |].
    intros info'.
    apply invariant_bind;
      [apply rooted_keeps_tables, keeps_tables_reads, reads_subscript |].
    intros v.
    apply invariant_bind;
      [apply rooted_keeps_tables, keeps_tables_reads, reads_int_value |].
    intros v'. apply rooted_apply_from_checkpoint. }
  intros _ σ (t & Ht & Hp).
  destruct (checkpoint t) as [c |] eqn:Hc.
  2: { by rewrite (run_bind_raise _ _ _ _ _ (run_getattr_unset _ checkpoint _ _ Ht Hc)). }
  rewrite (run_bind_return _ _ _ _ _ (run_getattr _ checkpoint _ _ _ Ht Hc)).
  unfold _apply_partial_logs.
  rewrite (run_bind_return _ _ _ _ _ (run_get_table _ _ _ Ht)).
  rewrite (run_bind_return _ _ _ _ _ (run_getattr _ checkpoint _ _ _ Ht Hc)).
  rewrite Hp.
  assert (Hat : instance_at self root (Some c) (version t) σ) by (by exists t).
  pose proof (apply_log_files_version fs self root (Some c) (c + 9)
                (decade_log_files fs root c) (version t) σ Hat) as Hloop.
  destruct (apply_log_files fs self (c + 9) (decade_log_files fs root c) σ)
    as [r σ']; cbn [fst snd] in *.
  intros ->. destruct Hloop as (v & Hv & Hstop). exists c, (version t).
  by rewrite <- Hstop.
Qed.

End rooted.

Lemma run_new_table t σ :
  new_table t σ
  = (Return (fresh (dom (tables σ))),
     mkStore (<[fresh (dom (tables σ)) := t]> (tables σ)) (sets σ)).
Proof. reflexivity. Qed.

(** What [DeltaTable(root)] leaves in [checkpoint] and [version]. *)
Lemma init_version (fs : filesystem) root σ self σ' :
  __init__ fs root σ = (Return self, σ') →
  ∃ c v0,
    checkpoint_of σ' self = Some c
    ∧ version_of σ' self = stop_version (c + 9) (decade_log_files fs root c) v0.
Proof.
  unfold __init__. rewrite (run_bind_return _ _ _ _ _ (run_new_table _ σ)).
  set (me := fresh (dom (tables σ))). set (σ1 := mkStore _ _).
  assert (Hrooted : rooted me root σ1).
  { eexists. split; [apply lookup_table_insert | done]. }
  pose proof (as_newest_version_version fs me root σ1 Hrooted) as Hnewest.
  destruct (_as_newest_version fs me σ1) as [[[] | e] σ2] eqn:Hrun;
    cbn [fst snd] in *.
  2: { rewrite (run_bind_raise _ _ _ _ _ Hrun). done. }
  rewrite (run_bind_return _ _ _ _ _ Hrun).
  destruct (Hnewest eq_refl) as (c & v0 & t & Ht & Hp & Hc & Hv).
  unfold rebuild_dataset.
  destruct (files t) as [fl |] eqn:Hf.
  2: { rewrite (run_bind_raise _ _ σ2 AttributeError σ2); [done |].
       apply run_bind_raise. by eapply run_getattr_unset. }
  destruct (sets σ2 !! fl) as [s |] eqn:Hs.
  2: { rewrite (run_bind_raise _ _ σ2 OutsideModel σ2); [done |].
       rewrite (run_bind_return _ _ _ _ _ (run_getattr _ files _ _ _ Ht Hf)).
       apply run_bind_raise. unfold get_set. by rewrite Hs. }
  rewrite (run_bind_return _ _ _ _ _ (run_rebuild_dataset _ _ _ _ _ Ht Hf Hs)).
  intros [= <- <-]. exists c, v0.
  unfold checkpoint_of, version_of. cbn [tables]. rewrite lookup_table_insert.
  done.
Qed.

(** On a sorted run of well-named log files, none of which is beyond
    [target], the loop stops at the highest version. *)
Lemma stop_version_highest root target log_files v0 :
  first_digits20 root = None →
  StronglySorted String.le log_files →
  (∀ f, f ∈ log_files →
        ∃ v, 0 ≤ v < 10 ^ 20 ∧ f = log_path root v ∧ v ≤ target) →
  log_files ≠ [] →
  ∃ vmax, stop_version target log_files v0 = Some vmax
          ∧ log_path root vmax ∈ log_files
          ∧ 0 ≤ vmax < 10 ^ 20
          ∧ ∀ v, 0 ≤ v < 10 ^ 20 → log_path root v ∈ log_files → v ≤ vmax.
Proof.
  intros Hroot Hsorted. revert v0.
  induction Hsorted as [| f rest Hrest IH Hle]; intros v0 Hnamed Hne; [done |].
  destruct (Hnamed f) as (v & Hv & -> & Hvt); [by left |].
  destruct (first_digits20_log_path root v Hroot Hv) as [Hd Hint].
  cbn [stop_version]. rewrite Hd. cbn zeta. rewrite Hint.
  destruct (v =? target) eqn:Hstop.
  - apply Z.eqb_eq in Hstop. exists v. split; [done |]. split; [by left |]. split; [done |].
    intros v' Hv' Hin. destruct (Hnamed _ Hin) as (v'' & Hv'' & E & Hle'').
    apply log_path_inj in E; [lia | done..].
  - destruct rest as [| f' rest'].
    + exists v. split; [done |]. split; [by left |]. split; [done |].
      intros v' Hv' Hin. apply list_elem_of_singleton in Hin.
      apply log_path_inj in Hin; [lia | done..].
    + destruct (IH (Some v)) as (vmax & Hmax & Hin & Hrange & Hhigh);
        [intros g Hg; apply Hnamed; by right | done |].
      exists vmax. split; [done |]. split; [by right |]. split; [done |].
      intros v' Hv' Hin'. apply elem_of_cons in Hin' as [E | Hin'];
        [| by apply Hhigh].
      apply log_path_inj in E; [| done..]. subst v'.
      apply (log_path_le root); [done | done |].
      rewrite Forall_forall in Hle. by apply Hle.
Qed.

Lemma decade_log_files_sorted (fs : filesystem) root c :
  StronglySorted String.le (decade_log_files fs root c).
Proof. apply StronglySorted_merge_sort; apply _. Qed.

Lemma decade_log_files_match (fs : filesystem) root c f :
  f ∈ decade_log_files fs root c →
  glob_match (log_dir root) (format_0w 19 (c / 10)) ".json" f = true.
Proof.
  unfold decade_log_files, sorted, fs_glob.
  rewrite merge_sort_Permutation, list_elem_of_In, filter_In. by intros [_ H].
Qed.

(** C6 (as amended). After [DeltaTable(root)] has returned with
    checkpoint version [c], if the root is a normalised absolute path of
    printable ASCII bytes without glob metacharacters (so that the glob
    lists the log files under the paths made from the root, and the
    regular expression reads ASCII digits only) and holds no run of
    twenty digits, [c] is within twenty digits, the log files found in the
    decade of [c] are all named [<version:020>.json] and there is at
    least one, then [version] is the highest version among the files
    found; it is [c] when the log file of [c] is found and none of a
    later version is. *)
Theorem open_version_is_highest_found (fs : filesystem) root σ self σ' c :
  __init__ fs root σ = (Return self, σ') →
  checkpoint_of σ' self = Some c →
  plain_root root = true →
  first_digits20 root = None →
  0 ≤ c < 10 ^ 20 →
  (∀ f, f ∈ decade_log_files fs root c →
        ∃ v, 0 ≤ v < 10 ^ 20 ∧ f = log_path root v) →
  decade_log_files fs root c ≠ [] →
  ∃ vmax,
    version_of σ' self = Some vmax
    ∧ log_path root vmax ∈ decade_log_files fs root c
    ∧ (∀ v, 0 ≤ v < 10 ^ 20 →
            log_path root v ∈ decade_log_files fs root c → v ≤ vmax)
    ∧ (log_path root c ∈ decade_log_files fs root c →
       (∀ v, c < v < 10 ^ 20 → log_path root v ∉ decade_log_files fs root c) →
       vmax = c).
Proof.
  intros Hinit Hc _ Hroot Hrange Hnamed Hfound.
  destruct (init_version fs root σ self σ' Hinit) as (c' & v0 & Hc' & Hv).
  rewrite Hc in Hc'. injection Hc' as <-.
  destruct (stop_version_highest root (c + 9) (decade_log_files fs root c) v0)
    as (vmax & Hstop & Hin & Hvmax & Hhigh);
    [done | apply decade_log_files_sorted | | done |].
  { intros f Hf. destruct (Hnamed f Hf) as (v & Hv' & ->).
    exists v. split; [done |]. split; [done |].
    pose proof (glob_match_decade root c v Hrange Hv'
                  (decade_log_files_match fs root c _ Hf)).
    Z.div_mod_to_equations. lia. }
  exists vmax. split; [by rewrite Hv |]. split; [done |]. split; [done |].
  intros Hown Hlater. pose proof (Hhigh c Hrange Hown).
  destruct (decide (vmax = c)) as [-> | Hne]; [done |].
  exfalso. apply (Hlater vmax); [lia | done].
Qed.

Lemma absolute_table_decade :
  decade_log_files absolute_table "/tbl" 10
  = [log_path "/tbl" 10; log_path "/tbl" 11].
Proof. vm_compute. reflexivity. Qed.

Lemma open_version_is_highest_found_witness :
  ∃ vmax,
    version_of (__init__ absolute_table "/tbl" empty_store).2 1%positive = Some vmax
    ∧ log_path "/tbl" vmax ∈ decade_log_files absolute_table "/tbl" 10
    ∧ (∀ v, 0 ≤ v < 10 ^ 20 →
            log_path "/tbl" v ∈ decade_log_files absolute_table "/tbl" 10 → v ≤ vmax)
    ∧ (log_path "/tbl" 10 ∈ decade_log_files absolute_table "/tbl" 10 →
       (∀ v, 10 < v < 10 ^ 20 →
             log_path "/tbl" v ∉ decade_log_files absolute_table "/tbl" 10) →
       vmax = 10).
Proof.
  apply (open_version_is_highest_found absolute_table "/tbl" empty_store
           1%positive (__init__ absolute_table "/tbl" empty_store).2 10).
  - vm_compute. reflexivity.
  - vm_compute. reflexivity.
  - vm_compute. reflexivity.
  - vm_compute. reflexivity.
  - split; [lia | reflexivity].
  - rewrite absolute_table_decade. intros f Hf.
    apply elem_of_cons in Hf as [-> | Hf].
    { exists 10. split; [split; [lia | reflexivity] | reflexivity]. }
    apply list_elem_of_singleton in Hf as ->.
    exists 11. split; [split; [lia | reflexivity] | reflexivity].
  - rewrite absolute_table_decade. discriminate.
Defined.

(** The version is read from the whole path of the log file: under a
    root that holds a run of twenty digits it is read from the root. *)
Example version_read_from_root :
  let r := __init__ numbered_root "d/00000000000000000042" empty_store in
  r.1 = Return 1%positive
  ∧ decade_log_files numbered_root "d/00000000000000000042" 0
    = [log_path "d/00000000000000000042" 0]
  ∧ version_of r.2 1%positive = Some 42.
Proof. split_and!; vm_compute; reflexivity. Qed.

(** C6 (as stated) fails on the table [bare_checkpoint]: it holds the
    pointer and the checkpoint of version 10 and no log file, so no log
    file later than the checkpoint exists; the constructor returns, and
    [version] is not the checkpoint version: it was never assigned. *)
Lemma open_without_logs_has_no_version :
  let r := __init__ bare_checkpoint "tbl" empty_store in
  r.1 = Return 1%positive
  ∧ dom bare_checkpoint = {[ last_checkpoint_path "tbl"; checkpoint_path "tbl" 10 ]}
  ∧ checkpoint_of r.2 1%positive = Some 10
  ∧ decade_log_files bare_checkpoint "tbl" 10 = []
  ∧ version_of r.2 1%positive = None
  ∧ version_of r.2 1%positive ≠ checkpoint_of r.2 1%positive.
Proof. split_and!; try (vm_compute; reflexivity). vm_compute. discriminate. Qed.

End Props.

(** ** Further properties of the replay *)

Module Extra.
Import Text Json Fs Py Delta Tables Spec Props Runs.
Local Arguments append : simpl nomatch.

(** *** The names of the log files, read back *)

(** X1. The version read back from the path of a log file is the version
    the name was written for: when the root is a normalised absolute path
    of printable ASCII bytes without glob metacharacters (so that the
    path the glob lists is the path made from the root, and the regular
    expression reads ASCII digits only) that holds no run of twenty
    digits, and [v] is within twenty digits, the first run of twenty
    digits of [<root>/_delta_log/<v:020>.json], read as an integer, is
    [v]. *)
Theorem log_name_round_trip root v :
  plain_root root = true →
  first_digits20 root = None → 0 ≤ v < 10 ^ 20 →
  int_of_digits <$> first_digits20 (log_path root v) = Some v.
Proof.
  intros _ Hroot Hv.
  destruct (first_digits20_log_path root v Hroot Hv) as [-> Hint].
  cbn [fmap option_fmap option_map]. by rewrite Hint.
Qed.

Lemma log_name_round_trip_witness :
  int_of_digits <$> first_digits20 (log_path "/tbl" 11) = Some 11.
Proof.
  apply (log_name_round_trip "/tbl" 11);
    [reflexivity | reflexivity | split; [lia | reflexivity]].
Defined.

Lemma log_path_le_iff root a b :
  0 ≤ a < 10 ^ 20 → 0 ≤ b < 10 ^ 20 →
  String.le (log_path root a) (log_path root b) ↔ a ≤ b.
Proof.
  intros Ha Hb. unfold String.le, String.leb.
  rewrite !log_path_fixed, compare_app_same, compare_fixed by done.
  destruct (Z.compare_spec a b) as [-> | Hlt | Hgt].
  - split; [lia | intros _].
    induction ".json" as [| c s IH]; cbn [String.compare]; [done |].
    unfold Ascii.compare. by rewrite N.compare_refl.
  - split; [lia | done].
  - split; [done | lia].
Qed.

Lemma log_paths_sorted root vs :
  Forall (λ v, 0 ≤ v < 10 ^ 20) vs →
  StronglySorted Z.le vs → StronglySorted String.le (log_path root <$> vs).
Proof.
  intros Hvs Hsorted. induction Hsorted as [| v vs Hrest IH Hle]; csimpl;
    constructor.
  - apply IH. by inversion Hvs.
  - rewrite Forall_fmap. inversion Hvs as [| ? ? Hv Hvs']; subst.
    rewrite Forall_forall in *. intros w Hw. cbn.
    apply log_path_le_iff; [done | by apply Hvs' | by apply Hle].
Qed.

(** X2. Sorting the names of log files sorts them by version: for
    versions within twenty digits, [sorted] of the names is the list of
    the names of the versions in increasing order, so the replay applies
    the commits in the order of their versions. *)
Theorem sorted_log_names_by_version root vs :
  Forall (λ v, 0 ≤ v < 10 ^ 20) vs →
  sorted (log_path root <$> vs) = log_path root <$> merge_sort Z.le vs.
Proof.
  intros Hvs. unfold sorted.
  apply (StronglySorted_unique String.le).
  - apply StronglySorted_merge_sort; apply _.
  - apply log_paths_sorted.
    + by rewrite merge_sort_Permutation.
    + apply StronglySorted_merge_sort; apply _.
  - by rewrite !merge_sort_Permutation.
Qed.

Lemma sorted_log_names_by_version_witness :
  sorted (log_path "t" <$> [11; 2; 10])
  = log_path "t" <$> merge_sort Z.le [11; 2; 10].
Proof.
  apply (sorted_log_names_by_version "t" [11; 2; 10]).
  repeat (apply Forall_cons_2; [split; [lia | reflexivity] |]). apply Forall_nil_2.
Defined.


(** *** What the pattern of a decade matches *)

Lemma starts_with_app p r : starts_with p (p ++ r) = true.
Proof.
  induction p as [| c p IH]; cbn [append starts_with]; [done |].
  by rewrite Ascii.eqb_refl.
Qed.

Lemma has_char_app c a b : has_char c (a ++ b) = has_char c a || has_char c b.
Proof.
  induction a as [| x a IH]; cbn [append has_char]; [done |].
  by rewrite IH, orb_assoc.
Qed.

Lemma has_char_fixed w n : has_char "/" (fixed w n) = false.
Proof.
  revert n. induction w as [| w IH]; intros n; cbn [fixed]; [done |].
  rewrite has_char_app, IH. cbn [has_char orb]. rewrite orb_false_r.
  apply Ascii.eqb_neq. intros E.
  destruct (digit_char_spec (n mod 10) (mod10_range n)) as (_ & _ & HN).
  rewrite E in HN. cbn in HN. lia.
Qed.

Lemma drop_fixed w n r : drop w (fixed w n ++ r) = r.
Proof. rewrite <- (length_fixed w n) at 1. apply drop_app. Qed.

Lemma fixed_19_range c : 0 ≤ c < 10 ^ 20 → 0 ≤ c / 10 < 10 ^ Z.of_nat 19.
Proof. intros Hc. change (Z.of_nat 19) with 19. Z.div_mod_to_equations. lia. Qed.

Lemma glob_match_log_path root c v :
  0 ≤ c < 10 ^ 20 → 0 ≤ v < 10 ^ 20 →
  glob_match (log_dir root) (format_0w 19 (c / 10)) ".json" (log_path root v) = true
  ↔ v / 10 = c / 10.
Proof.
  intros Hc Hv. split; [by apply glob_match_decade |]. intros Hdecade.
  unfold glob_match.
  rewrite log_path_fixed, drop_app, starts_with_app by done.
  rewrite format_fixed by (try lia; by apply fixed_19_range).
  change (fixed 20 v) with (fixed 19 (v / 10) ++ String (digit_char (v mod 10)) "").
  rewrite Hdecade, !str_app_assoc. cbn [append].
  rewrite starts_with_app, drop_app, has_char_app, has_char_fixed.
  cbn [has_char orb negb andb].
  destruct (Ascii.eqb (digit_char (v mod 10)) "/") eqn:E; [| reflexivity].
  apply Ascii.eqb_eq in E.
  destruct (digit_char_spec (v mod 10) (mod10_range v)) as (_ & _ & HN).
  rewrite E in HN. cbn in HN. lia.
Qed.

Lemma elem_of_decade_log_files (fs : filesystem) root c f :
  f ∈ decade_log_files fs root c
  ↔ is_Some (fs !! f)
    ∧ glob_match (log_dir root) (format_0w 19 (c / 10)) ".json" f = true.
Proof.
  unfold decade_log_files, sorted, fs_glob.
  rewrite merge_sort_Permutation, list_elem_of_In, filter_In, <- list_elem_of_In.
  rewrite elem_of_elements, elem_of_dom. tauto.
Qed.



(** X4. Neither a checkpoint file nor the pointer file
    [_last_checkpoint] is ever among the log files that are replayed. *)
Theorem decade_log_files_skip_checkpoints (fs : filesystem) root c v :
  0 ≤ c < 10 ^ 20 → 0 ≤ v < 10 ^ 20 →
  (checkpoint_path root v ∉ decade_log_files fs root c)
  ∧ (last_checkpoint_path root ∉ decade_log_files fs root c).
Proof.
  intros Hc Hv. rewrite !elem_of_decade_log_files. unfold glob_match.
  rewrite format_fixed by (try lia; by apply fixed_19_range).
  rewrite length_fixed. split; intros [_ H].
  - unfold checkpoint_path in H. rewrite format_fixed in H by (try lia; done).
    rewrite drop_app in H.
    change (fixed 20 v) with (fixed 19 (v / 10) ++ String (digit_char (v mod 10)) "") in H.
    rewrite !str_app_assoc in H. cbn [append] in H.
    rewrite drop_fixed in H.
    rewrite !andb_true_iff in H. destruct H as (_ & _ & H). discriminate H.
  - unfold last_checkpoint_path in H. rewrite drop_app in H.
    rewrite !andb_true_iff in H. destruct H as (_ & _ & H). discriminate H.
Qed.

Lemma decade_log_files_skip_checkpoints_witness :
  (checkpoint_path "tbl" 10 ∉ decade_log_files checkpointed "tbl" 10)
  ∧ (last_checkpoint_path "tbl" ∉ decade_log_files checkpointed "tbl" 10).
Proof.
  apply (decade_log_files_skip_checkpoints checkpointed "tbl" 10 10);
    split; [lia | reflexivity | lia | reflexivity].
Defined.


(** *** One record *)

Lemma set_insert_insert (m : gmap loc (gset string)) l s s' :
  <[l := s]> (<[l := s']> m) = <[l := s]> m.
Proof. apply insert_insert_eq. Qed.

Lemma set_insert_id (m : gmap loc (gset string)) l s :
  m !! l = Some s → <[l := s]> m = m.
Proof. apply insert_id. Qed.

(** X5. A record that only removes, whose path is a member of the file
    set as the record gives it while the same path prefixed with the root
    is not, raises [KeyError], and the store is left as it was. *)
Theorem remove_of_unprefixed_member_raises self σ t fl s line members rm r :
  tables σ !! self = Some t → files t = Some fl → sets σ !! fl = Some s →
  Json.loads line = Decoded (JObj members) →
  dict_get "add" members = None →
  dict_get "remove" members = Some (JObj rm) →
  dict_get "path" rm = Some (JStr r) →
  r ∈ s → data_path (path t) r ∉ s →
  apply_log_line self line σ = (Raise KeyError, σ).
Proof.
  intros Ht Hf Hs Hl Ha Hr Hp Hin Hout.
  rewrite (apply_remove_record self σ t fl s line members rm r) by done.
  by rewrite (bool_decide_eq_true_2 _ Hin), (bool_decide_eq_false_2 _ Hout).
Qed.

Lemma remove_of_unprefixed_member_raises_witness :
  let σ := mkStore {[ 1%positive := mkDeltaTable "t" (Some 1%positive) None (Some 0) None ]}
                   {[ 1%positive := {[ "t/x" ]} ]} in
  apply_log_line 1%positive (remove_entry "t/x") σ = (Raise KeyError, σ).
Proof.
  cbn zeta.
  apply (remove_of_unprefixed_member_raises 1%positive _
           (mkDeltaTable "t" (Some 1%positive) None (Some 0) None) 1%positive
           {[ "t/x" ]} (remove_entry "t/x")
           [("remove", JObj [("path", JStr "t/x")])] [("path", JStr "t/x")] "t/x");
    vm_compute; try reflexivity.
  intros H. discriminate H.
Defined.

(** X6. A log line that decodes to a JSON value other than an object (a
    list, a number, a string, [null], ...) raises [AttributeError], since
    such a value has no [keys], and the store is left as it was. *)
Theorem record_that_is_no_object_raises self σ line v :
  Json.loads line = Decoded v → (∀ members, v ≠ JObj members) →
  apply_log_line self line σ = (Raise AttributeError, σ).
Proof.
  intros Hl Hv. unfold apply_log_line, json_loads, bind. rewrite Hl.
  destruct v; try reflexivity. by destruct (Hv members).
Qed.

Lemma record_that_is_no_object_raises_witness :
  apply_log_line 1%positive "[1]" empty_store = (Raise AttributeError, empty_store).
Proof.
  apply (record_that_is_no_object_raises 1%positive empty_store "[1]" (JArr [JInt 1]));
    [vm_compute; reflexivity | intros members H; discriminate H].
Defined.

(** X7. A record whose [add] is an object without [path] raises
    [KeyError], and a record whose [add] is not an object raises
    [TypeError]; in both cases the store is left as it was. *)
Theorem add_record_without_path_raises self σ t fl line members a :
  tables σ !! self = Some t → files t = Some fl →
  Json.loads line = Decoded (JObj members) →
  dict_get "add" members = Some a →
  (∀ am, a = JObj am → dict_get "path" am = None →
         apply_log_line self line σ = (Raise KeyError, σ))
  ∧ ((∀ am, a ≠ JObj am) → apply_log_line self line σ = (Raise TypeError, σ)).
Proof.
  intros Ht Hf Hl Ha. split.
  - intros am -> Hp. unfold_run. rewrite Hl, Ha.
    repeat (progress (simp_run; rewrite ?Ht, ?Hf, ?Hp)). reflexivity.
  - intros Hna. unfold_run. rewrite Hl, Ha.
    repeat (progress (simp_run; rewrite ?Ht, ?Hf)).
    destruct a; try reflexivity. by destruct (Hna members0).
Qed.

Lemma add_record_without_path_raises_witness :
  let σ := mkStore {[ 1%positive := mkDeltaTable "t" (Some 1%positive) None (Some 0) None ]}
                   {[ 1%positive := ∅ ]} in
  apply_log_line 1%positive ("{" ++ quoted "add" ++ ":{}}") σ = (Raise KeyError, σ)
  ∧ apply_log_line 1%positive ("{" ++ quoted "add" ++ ":null}") σ
    = (Raise TypeError, σ).
Proof.
  intros σ. split.
  - destruct (add_record_without_path_raises 1%positive σ
                (mkDeltaTable "t" (Some 1%positive) None (Some 0) None)
                1%positive ("{" ++ quoted "add" ++ ":{}}")
                [("add", JObj [])] (JObj [])) as [H _];
      [vm_compute; reflexivity.. |].
    apply (H []); reflexivity.
  - destruct (add_record_without_path_raises 1%positive σ
                (mkDeltaTable "t" (Some 1%positive) None (Some 0) None)
                1%positive ("{" ++ quoted "add" ++ ":null}")
                [("add", JNull)] JNull) as [_ H];
      [vm_compute; reflexivity.. |].
    apply H. intros am E. discriminate E.
Defined.

(** *** A run of records *)

Lemma for_each_adds self t fl lines os :
  files t = Some fl → Forall2 adds lines os →
  ∀ σ s, tables σ !! self = Some t → sets σ !! fl = Some s →
    for_each (apply_log_line self) lines σ
    = (Return tt,
       mkStore (tables σ)
         (<[fl := list_to_set (data_path (path t) <$> omap id os) ∪ s]> (sets σ))).
Proof.
  intros Hf Hall.
  induction Hall as [| line o lines os Hline Hall IH]; intros σ s Ht Hs.
  - destruct σ as [tb st]. cbn in *. unfold ret. do 2 f_equal.
    rewrite (left_id_L ∅ (∪)). symmetry. by apply set_insert_id.
  - cbn [for_each]. destruct Hline as (members & Hl & Hr & Ho).
    destruct o as [p |].
    + destruct Ho as (am & Ha & Hp).
      rewrite (run_bind_return _ _ _ _ _
                 (apply_add_record self σ t fl s line members am p
                    Ht Hf Hs Hl Ha Hp Hr)).
      rewrite (IH _ ({[data_path (path t) p]} ∪ s));
        [| done | apply lookup_set_insert].
      cbn [tables sets]. rewrite set_insert_insert. do 3 f_equal.
      csimpl. by rewrite (assoc_L (∪)), (comm_L (∪) (list_to_set _)).
    + rewrite (run_bind_return _ _ _ _ _
                 (apply_other_record self σ line members Hl Ho Hr)).
      by apply IH.
Qed.


(** X8. Replaying records that have no [remove], each with an [add] or
    with neither key, returns and leaves in the file set what was there
    before together with the root-prefixed paths of the [add]s; a path
    added twice is there once, and nothing else in the store changes. *)
Theorem replay_of_add_records self σ t fl s lines os :
  tables σ !! self = Some t → files t = Some fl → sets σ !! fl = Some s →
  Forall2 adds lines os →
  for_each (apply_log_line self) lines σ
  = (Return tt,
     mkStore (tables σ)
       (<[fl := list_to_set (data_path (path t) <$> omap id os) ∪ s]> (sets σ))).
Proof. intros Ht Hf Hs Hall. by apply for_each_adds. Qed.

Lemma replay_of_add_records_witness :
  let t := mkDeltaTable "t" (Some 1%positive) None (Some 0) None in
  let σ := mkStore {[ 1%positive := t ]} {[ 1%positive := {[ "t/B" ]} ]} in
  for_each (apply_log_line 1%positive)
    [commit_info; add_entry "A"; add_entry "A"] σ
  = (Return tt,
     mkStore (tables σ)
       (<[1%positive := list_to_set (data_path (path t)
                                       <$> omap id [None; Some "A"; Some "A"])
                        ∪ {[ "t/B" ]}]>
          (sets σ))).
Proof.
  intros t σ.
  apply (replay_of_add_records 1%positive σ t 1%positive {[ "t/B" ]}
           [commit_info; add_entry "A"; add_entry "A"]
           [None; Some "A"; Some "A"]);
    [vm_compute; reflexivity | reflexivity | vm_compute; reflexivity |].
  constructor; [| constructor; [| constructor; [| constructor]]].
  - exists [("commitInfo", JObj [])]. split_and!; vm_compute; reflexivity.
  - exists [("add", JObj [("path", JStr "A")])].
    split_and!; [vm_compute; reflexivity.. |].
    exists [("path", JStr "A")]. split; reflexivity.
  - exists [("add", JObj [("path", JStr "A")])].
    split_and!; [vm_compute; reflexivity.. |].
    exists [("path", JStr "A")]. split; reflexivity.
Defined.

(** *** Loading a checkpoint *)

Lemma run_apply_checkpoint_row self σ t fl s row :
  tables σ !! self = Some t → files t = Some fl → sets σ !! fl = Some s →
  apply_checkpoint_row self row σ
  = (Return tt,
     match added_file row with
     | Some p => mkStore (tables σ) (<[fl := {[data_path (path t) p]} ∪ s]> (sets σ))
     | None => σ
     end).
Proof.
  intros Ht Hf Hs. unfold apply_checkpoint_row, added_file.
  destruct (row_add row) as [p |]; [| reflexivity].
  destruct (String.eqb p ""); [reflexivity |].
  rewrite (run_bind_return _ _ _ _ _ (run_getattr _ files _ _ _ Ht Hf)).
  rewrite (run_bind_return _ _ _ _ _ (run_get_table _ _ _ Ht)).
  unfold set_add. by rewrite (run_bind_return _ _ _ _ _ (run_get_set _ _ _ Hs)).
Qed.

Lemma for_each_checkpoint_rows self t fl rows :
  files t = Some fl →
  ∀ σ s, tables σ !! self = Some t → sets σ !! fl = Some s →
    for_each (apply_checkpoint_row self) rows σ
    = (Return tt,
       mkStore (tables σ)
         (<[fl := list_to_set (data_path (path t) <$> omap added_file rows) ∪ s]>
            (sets σ))).
Proof.
  intros Hf. induction rows as [| row rows IH]; intros σ s Ht Hs.
  - destruct σ as [tb st]. cbn in *. unfold ret. do 2 f_equal.
    rewrite (left_id_L ∅ (∪)). symmetry. by apply set_insert_id.
  - cbn [for_each].
    rewrite (run_bind_return _ _ _ _ _
               (run_apply_checkpoint_row self σ t fl s row Ht Hf Hs)).
    csimpl. destruct (added_file row) as [p |]; [| by apply IH].
    rewrite (IH _ ({[data_path (path t) p]} ∪ s));
      [| done | apply lookup_set_insert].
    cbn [tables sets]. rewrite set_insert_insert. do 3 f_equal.
    csimpl. by rewrite (assoc_L (∪)), (comm_L (∪) (list_to_set _)).
Qed.

(** [_apply_from_checkpoint] first binds a new empty set and the
    checkpoint version; the rest runs in that store. *)
Lemma run_apply_from_checkpoint (fs : filesystem) self σ t c :
  tables σ !! self = Some t →
  _apply_from_checkpoint fs self c σ
  = (if c =? 0 then ret tt
     else bind (fs_read_table fs (checkpoint_path (path t) c))
            (for_each (apply_checkpoint_row self)))
      (let fl := fresh (dom (sets σ)) in
       mkStore (<[self := set_checkpoint c (set_files fl t)]> (tables σ))
               (<[fl := ∅]> (sets σ))).
Proof.
  intros Ht. cbn zeta.
  set (fl := fresh (dom (sets σ))).
  set (σ' := mkStore (<[self := set_checkpoint c (set_files fl t)]> (tables σ))
                     (<[fl := ∅]> (sets σ))).
  assert (Ht' : tables σ' !! self = Some (set_checkpoint c (set_files fl t)))
    by apply lookup_table_insert.
  unfold _apply_from_checkpoint.
  rewrite (run_bind_return _ _ σ fl (mkStore (tables σ) (<[fl := ∅]> (sets σ))))
    by reflexivity.
  erewrite run_bind_return by (by apply run_setattr).
  erewrite run_bind_return by (apply run_setattr, lookup_table_insert).
  cbn [tables sets]. rewrite insert_insert_eq. fold σ'.
  rewrite (run_bind_return _ _ σ' c σ')
    by (by apply (run_getattr self checkpoint σ' _ c Ht')).
  destruct (c =? 0); [reflexivity |].
  by rewrite (run_bind_return _ _ _ _ _ (run_get_table _ _ _ Ht')).
Qed.

Lemma run_apply_from_checkpoint_rows (fs : filesystem) self σ t c rows :
  tables σ !! self = Some t → c ≠ 0 →
  fs !! checkpoint_path (path t) c = Some (Parquet rows) →
  _apply_from_checkpoint fs self c σ
  = (Return tt,
     let fl := fresh (dom (sets σ)) in
     mkStore (<[self := set_checkpoint c (set_files fl t)]> (tables σ))
       (<[fl := list_to_set (data_path (path t) <$> omap added_file rows)]> (sets σ))).
Proof.
  intros Ht Hc Hfile. rewrite (run_apply_from_checkpoint fs self σ t c Ht).
  cbn zeta. destruct (c =? 0) eqn:E; [apply Z.eqb_eq in E; done |].
  set (fl := fresh (dom (sets σ))).
  rewrite (run_bind_return _ _ _ rows _)
    by (unfold fs_read_table; rewrite Hfile; reflexivity).
  rewrite (for_each_checkpoint_rows self (set_checkpoint c (set_files fl t)) fl rows
             eq_refl _ ∅); [| apply lookup_table_insert | apply lookup_set_insert].
  cbn [tables sets path set_checkpoint set_files].
  by rewrite set_insert_insert, (right_id_L ∅ (∪)).
Qed.

(** X9. For a version other than 0 whose checkpoint file exists,
    [_apply_from_checkpoint] returns, and the file set is then exactly the
    root-prefixed [add] paths of the rows of that file whose [add] path is
    neither null nor empty; what the set held before is gone. *)
Theorem apply_from_checkpoint_loads (fs : filesystem) self σ t c rows :
  tables σ !! self = Some t → c ≠ 0 →
  fs !! checkpoint_path (path t) c = Some (Parquet rows) →
  let r := _apply_from_checkpoint fs self c σ in
  r.1 = Return tt
  ∧ ∀ x, (∃ s, files_of r.2 self = Some s ∧ x ∈ s)
         ↔ ∃ row p, row ∈ rows ∧ row_add row = Some p ∧ p ≠ ""
                    ∧ x = data_path (path t) p.
Proof.
  intros Ht Hc Hfile.
  rewrite (run_apply_from_checkpoint_rows fs self σ t c rows Ht Hc Hfile).
  cbn [fst snd]. split; [done |]. intros x.
  unfold files_of. cbn [tables sets]. rewrite lookup_table_insert. cbn.
  rewrite lookup_set_insert. split.
  - intros (s & [= <-] & Hx).
    apply elem_of_list_to_set, list_elem_of_fmap in Hx as (p & -> & Hp).
    apply list_elem_of_omap in Hp as (row & Hrow & Hadded).
    exists row, p. unfold added_file in Hadded.
    destruct (row_add row) as [q |]; [| done].
    destruct (String.eqb q "") eqn:E; [done |].
    injection Hadded as ->. apply String.eqb_neq in E. done.
  - intros (row & p & Hrow & Hadd & Hp & ->). eexists. split; [done |].
    apply elem_of_list_to_set, list_elem_of_fmap. exists p. split; [done |].
    apply list_elem_of_omap. exists row. split; [done |].
    unfold added_file. rewrite Hadd. apply String.eqb_neq in Hp. by rewrite Hp.
Qed.

Lemma apply_from_checkpoint_loads_witness :
  let t := mkDeltaTable "tbl" None None None None in
  let σ := mkStore {[ 1%positive := t ]} ∅ in
  let r := _apply_from_checkpoint checkpointed 1%positive 10 σ in
  r.1 = Return tt
  ∧ ∀ x, (∃ s, files_of r.2 1%positive = Some s ∧ x ∈ s)
         ↔ ∃ row p, row ∈ checkpoint_rows ["A"; "B"] ∧ row_add row = Some p
                    ∧ p ≠ "" ∧ x = data_path (path t) p.
Proof.
  intros t σ.
  apply (apply_from_checkpoint_loads checkpointed 1%positive σ t 10
           (checkpoint_rows ["A"; "B"]));
    [vm_compute; reflexivity | lia | vm_compute; reflexivity].
Defined.

(** X10. Whether it returns or raises, [_apply_from_checkpoint] leaves
    the instance with [checkpoint] equal to its argument and with a file
    set, and leaves [version], the dataset view, every other instance and
    every set object that existed before as they were: the old set is not
    emptied, a new one takes its place. For version 0 it returns with the
    empty set, whatever the file system holds. *)
Theorem apply_from_checkpoint_resets (fs : filesystem) self σ t c :
  tables σ !! self = Some t →
  let r := _apply_from_checkpoint fs self c σ in
  checkpoint_of r.2 self = Some c
  ∧ version_of r.2 self = version t
  ∧ dataset_view r.2 self = pyarrow_dataset t
  ∧ is_Some (files_of r.2 self)
  ∧ (c = 0 → r.1 = Return tt ∧ files_of r.2 self = Some ∅)
  ∧ (∀ l, l ∈ dom (sets σ) → sets r.2 !! l = sets σ !! l)
  ∧ (∀ l, l ≠ self → tables r.2 !! l = tables σ !! l).
Proof.
  intros Ht. cbn zeta. rewrite (run_apply_from_checkpoint fs self σ t c Ht).
  cbn zeta. set (fl := fresh (dom (sets σ))).
  set (t' := set_checkpoint c (set_files fl t)).
  set (σ' := mkStore (<[self := t']> (tables σ)) (<[fl := ∅]> (sets σ))).
  assert (Hfresh : ∀ l, l ∈ dom (sets σ) → fl ≠ l).
  { intros l Hl E. rewrite <- E in Hl. exact (is_fresh (dom (sets σ)) Hl). }
  assert (Hbase : ∀ σ'' s, tables σ'' = tables σ' → sets σ'' = <[fl := s]> (sets σ) →
    checkpoint_of σ'' self = Some c
    ∧ version_of σ'' self = version t
    ∧ dataset_view σ'' self = pyarrow_dataset t
    ∧ is_Some (files_of σ'' self)
    ∧ (∀ l, l ∈ dom (sets σ) → sets σ'' !! l = sets σ !! l)
    ∧ (∀ l, l ≠ self → tables σ'' !! l = tables σ !! l)).
  { intros σ'' s Etables Esets.
    unfold checkpoint_of, version_of, dataset_view, files_of.
    rewrite Etables, Esets. cbn [tables σ']. rewrite lookup_table_insert. cbn.
    rewrite lookup_set_insert. split_and!; try done.
    - intros l Hl. apply lookup_set_insert_ne. by apply Hfresh.
    - intros l Hl. by apply lookup_table_insert_ne. }
  destruct (c =? 0) eqn:E.
  { apply Z.eqb_eq in E. cbn [ret fst snd].
    destruct (Hbase σ' ∅ eq_refl eq_refl) as (H1 & H2 & H3 & H4 & H5 & H6).
    split_and!; try done. intros _. split; [done |].
    unfold files_of. cbn [tables σ']. rewrite lookup_table_insert. cbn.
    by rewrite lookup_set_insert. }
  apply Z.eqb_neq in E.
  assert (Hgoal : ∀ r, (∃ s, tables r.2 = tables σ' ∧ sets r.2 = <[fl := s]> (sets σ)) →
    checkpoint_of r.2 self = Some c
    ∧ version_of r.2 self = version t
    ∧ dataset_view r.2 self = pyarrow_dataset t
    ∧ is_Some (files_of r.2 self)
    ∧ (c = 0 → r.1 = Return tt ∧ files_of r.2 self = Some ∅)
    ∧ (∀ l, l ∈ dom (sets σ) → sets r.2 !! l = sets σ !! l)
    ∧ (∀ l, l ≠ self → tables r.2 !! l = tables σ !! l)).
  { intros r (s & E1 & E2).
    destruct (Hbase r.2 s E1 E2) as (H1 & H2 & H3 & H4 & H5 & H6).
    split_and!; done. }
  apply Hgoal. unfold fs_read_table.
  destruct (fs !! checkpoint_path (path t) c) as [[data | rows] |] eqn:Hfile.
  - exists ∅. done.
  - rewrite (run_bind_return _ _ σ' rows σ') by reflexivity.
    rewrite (for_each_checkpoint_rows self t' fl rows eq_refl σ' ∅);
      [| apply lookup_table_insert | apply lookup_set_insert].
    eexists. cbn [snd tables sets σ']. split; [done |].
    by rewrite set_insert_insert.
  - exists ∅. done.
Qed.

Lemma apply_from_checkpoint_resets_witness :
  let t := mkDeltaTable "tbl" (Some 1%positive) (Some 11) (Some 10) None in
  let σ := mkStore {[ 1%positive := t ]} {[ 1%positive := {[ "tbl/A" ]} ]} in
  let r := _apply_from_checkpoint checkpointed 1%positive 1 σ in
  r.1 = Raise FileNotFoundError
  ∧ checkpoint_of r.2 1%positive = Some 1
  ∧ version_of r.2 1%positive = version t
  ∧ is_Some (files_of r.2 1%positive)
  ∧ sets r.2 !! 1%positive = Some {[ "tbl/A" ]}.
Proof.
  intros t σ.
  destruct (apply_from_checkpoint_resets checkpointed 1%positive σ t 1)
    as (H1 & H2 & _ & H4 & _ & H6 & _); [vm_compute; reflexivity |].
  split_and!; [vm_compute; reflexivity | exact H1 | exact H2 | exact H4 |].
  rewrite (H6 1%positive); vm_compute; reflexivity.
Defined.


(** *** The loop over the log files *)

Lemma bind_ext {A B} (m : M A) (k1 k2 : A → M B) σ :
  (∀ a σ', k1 a σ' = k2 a σ') → bind m k1 σ = bind m k2 σ.
Proof. intros Hk. unfold bind. destruct (m σ) as [[a | e] σ']; [apply Hk | done]. Qed.

Lemma apply_log_files_at_target (fs : filesystem) self target f d rest σ :
  first_digits20 f = Some d → int_of_digits d = target →
  apply_log_files fs self target (f :: rest) σ
  = apply_log_files fs self target [f] σ.
Proof.
  intros Hd Hint. cbn [apply_log_files]. rewrite Hd.
  rewrite !(run_bind_return _ _ σ d σ) by reflexivity.
  destruct (tables σ !! self) as [t |] eqn:Ht.
  2: { rewrite !(run_bind_raise _ _ σ OutsideModel σ);
         [done | unfold setattr; by rewrite Ht..]. }
  rewrite !(run_bind_return _ _ _ _ _ (run_setattr _ _ _ _ Ht)).
  set (σ1 := mkStore _ _).
  assert (Ht1 : tables σ1 !! self = Some (set_version (int_of_digits d) t))
    by apply lookup_table_insert.
  generalize (reads_fs_cat fs f σ1).
  destruct (fs_cat fs f σ1) as [[log | e] σ1'] eqn:Hcat; cbn [snd]; intros ->.
  2: { by rewrite !(run_bind_raise _ _ _ _ _ Hcat). }
  rewrite !(run_bind_return _ _ _ _ _ Hcat).
  generalize (keeps_tables_for_each (apply_log_line self) (split log)
                (keeps_tables_apply_log_line self) σ1).
  destruct (for_each (apply_log_line self) (split log) σ1) as [[[] | e] σ2] eqn:Hlines;
    cbn [snd]; intros Htables.
  2: { by rewrite !(run_bind_raise _ _ _ _ _ Hlines). }
  rewrite !(run_bind_return _ _ _ _ _ Hlines).
  rewrite <- Htables in Ht1.
  rewrite !(run_bind_return _ _ _ _ _ (run_getattr _ version _ _ _ Ht1 eq_refl)).
  rewrite Hint, Z.eqb_refl. reflexivity.
Qed.

(** X11. The replay stops at the target: once the log file whose name
    gives the target version has been applied, the files after it in the
    list play no part, in the outcome or in the store. *)
Theorem replay_stops_at_target (fs : filesystem) self target before f d after σ :
  first_digits20 f = Some d → int_of_digits d = target →
  apply_log_files fs self target (before ++ f :: after) σ
  = apply_log_files fs self target (before ++ [f]) σ.
Proof.
  intros Hd Hint. revert σ.
  induction before as [| g before IH]; intros σ.
  { by apply (apply_log_files_at_target fs self target f d). }
  cbn [app apply_log_files].
  do 5 (apply bind_ext; intros ? ?).
  destruct (_ =? _); [reflexivity | apply IH].
Qed.

Lemma replay_stops_at_target_witness :
  let σ := mkStore {[ 1%positive := mkDeltaTable "tbl" None None (Some 0) None ]} ∅ in
  apply_log_files checkpointed 1%positive 1
    ([log_path "tbl" 0] ++ log_path "tbl" 1 :: [log_path "tbl" 2; log_path "tbl" 3]) σ
  = apply_log_files checkpointed 1%positive 1
      ([log_path "tbl" 0] ++ [log_path "tbl" 1]) σ.
Proof.
  intros σ.
  apply (replay_stops_at_target checkpointed 1%positive 1 [log_path "tbl" 0]
           (log_path "tbl" 1) "00000000000000000001"); vm_compute; reflexivity.
Defined.

(** *** The version that [as_version] leaves *)

Lemma keeps_tables_apply_checkpoint_row self row :
  keeps_tables (apply_checkpoint_row self row).
Proof.
  unfold apply_checkpoint_row.
  destruct (row_add row) as [added |]; [| done].
  destruct (String.eqb added ""); [done |].
  apply keeps_tables_bind; [apply keeps_tables_reads, reads_getattr |].
  intros fl.
  apply keeps_tables_bind; [apply keeps_tables_reads, reads_get_table |].
  intros t. apply keeps_tables_set_add.
Qed.

Lemma apply_from_checkpoint_tables (fs : filesystem) self σ t c :
  tables σ !! self = Some t →
  tables (_apply_from_checkpoint fs self c σ).2
  = <[self := set_checkpoint c (set_files (fresh (dom (sets σ))) t)]> (tables σ).
Proof.
  intros Ht. rewrite (run_apply_from_checkpoint fs self σ t c Ht). cbn zeta.
  destruct (c =? 0); [reflexivity |].
  rewrite keeps_tables_bind; [reflexivity | |].
  - apply keeps_tables_reads, reads_fs_read_table.
  - intros rows. apply keeps_tables_for_each, keeps_tables_apply_checkpoint_row.
Qed.

Lemma apply_partial_logs_version (fs : filesystem) self root c v0 target σ :
  instance_at self root (Some c) v0 σ →
  let r := _apply_partial_logs fs self target σ in
  ∃ v, instance_at self root (Some c) v r.2
       ∧ (r.1 = Return tt
          → v = stop_version target (decade_log_files fs root c) v0).
Proof.
  intros Hat. pose proof Hat as (t & Ht & Hp & Hc & Hv). cbn zeta.
  unfold _apply_partial_logs.
  rewrite (run_bind_return _ _ _ _ _ (run_get_table _ _ _ Ht)).
  rewrite (run_bind_return _ _ _ _ _ (run_getattr _ checkpoint _ _ _ Ht Hc)).
  rewrite Hp. by apply apply_log_files_version.
Qed.

Lemma as_version_version (fs : filesystem) self v σ t l σ' :
  tables σ !! self = Some t →
  as_version fs self v true σ = (Return l, σ') →
  checkpoint_of σ' self = Some (v / 10)
  ∧ version_of σ' self
    = stop_version v (decade_log_files fs (path t) (v / 10)) (version t).
Proof.
  intros Ht. unfold as_version.
  pose proof (apply_from_checkpoint_tables fs self σ t (v / 10) Ht) as Htables.
  destruct (_apply_from_checkpoint fs self (v / 10) σ) as [[[] | e] σ1] eqn:Hfrom;
    cbn [snd] in Htables.
  2: { by rewrite (run_bind_raise _ _ _ _ _ Hfrom). }
  rewrite (run_bind_return _ _ _ _ _ Hfrom).
  assert (Hat : instance_at self (path t) (Some (v / 10)) (version t) σ1).
  { eexists. rewrite Htables. split; [apply lookup_table_insert | done]. }
  pose proof (apply_partial_logs_version fs self _ _ _ v σ1 Hat) as Hlogs.
  cbn zeta in Hlogs.
  destruct (_apply_partial_logs fs self v σ1) as [[[] | e] σ2] eqn:Hpartial;
    cbn [fst snd] in Hlogs.
  2: { by rewrite (run_bind_raise _ _ _ _ _ Hpartial). }
  rewrite (run_bind_return _ _ _ _ _ Hpartial).
  destruct Hlogs as (v' & (t2 & Ht2 & Hp2 & Hc2 & Hv2) & Hstop).
  specialize (Hstop eq_refl). subst v'.
  unfold rebuild_dataset.
  destruct (files t2) as [fl |] eqn:Hf.
  2: { rewrite (run_bind_raise _ _ σ2 AttributeError σ2); [done |].
       apply run_bind_raise. by eapply run_getattr_unset. }
  destruct (sets σ2 !! fl) as [s |] eqn:Hs.
  2: { rewrite (run_bind_raise _ _ σ2 OutsideModel σ2); [done |].
       rewrite (run_bind_return _ _ _ _ _ (run_getattr _ files _ _ _ Ht2 Hf)).
       apply run_bind_raise. unfold get_set. by rewrite Hs. }
  rewrite (run_bind_return _ _ _ _ _ (run_rebuild_dataset _ _ _ _ _ Ht2 Hf Hs)).
  intros [= <- <-]. unfold checkpoint_of, version_of. cbn [tables].
  rewrite lookup_table_insert. done.
Qed.

Lemma stop_version_found root target log_files v0 :
  first_digits20 root = None →
  (∀ f, f ∈ log_files → ∃ w, 0 ≤ w < 10 ^ 20 ∧ f = log_path root w) →
  0 ≤ target < 10 ^ 20 →
  log_path root target ∈ log_files →
  stop_version target log_files v0 = Some target.
Proof.
  intros Hroot Hnamed Htarget. revert v0.
  induction log_files as [| f rest IH]; intros v0 Hin.
  { by apply elem_of_nil in Hin. }
  destruct (Hnamed f) as (w & Hw & ->); [by left |].
  destruct (first_digits20_log_path root w Hroot Hw) as [Hd Hint].
  cbn [stop_version]. rewrite Hd. cbn zeta. rewrite Hint.
  destruct (w =? target) eqn:E; [apply Z.eqb_eq in E; by subst |].
  apply Z.eqb_neq in E. apply IH.
  - intros g Hg. apply Hnamed. by right.
  - apply elem_of_cons in Hin as [Heq | Hin]; [| done].
    apply log_path_inj in Heq; [by subst | done..].
Qed.

Lemma stop_version_among root target log_files v0 :
  first_digits20 root = None →
  (∀ f, f ∈ log_files → ∃ w, 0 ≤ w < 10 ^ 20 ∧ f = log_path root w) →
  log_files ≠ [] →
  ∃ w, stop_version target log_files v0 = Some w
       ∧ 0 ≤ w < 10 ^ 20 ∧ log_path root w ∈ log_files.
Proof.
  intros Hroot. revert v0.
  induction log_files as [| f rest IH]; intros v0 Hnamed Hne; [done |].
  destruct (Hnamed f) as (w & Hw & ->); [by left |].
  destruct (first_digits20_log_path root w Hroot Hw) as [Hd Hint].
  cbn [stop_version]. rewrite Hd. cbn zeta. rewrite Hint.
  destruct (w =? target); [exists w; split; [done | split; [done | by left]] |].
  destruct rest as [| g rest'].
  { exists w. split; [done | split; [done | by left]]. }
  destruct (IH (Some w)) as (w' & Hstop & Hw' & Hin);
    [intros h Hh; apply Hnamed; by right | done |].
  exists w'. split; [done | split; [done | by right]].
Qed.

(** X12. For a target version [v] from 0 to 9 whose log file exists,
    when the root is a normalised absolute path of printable ASCII bytes
    without glob metacharacters that holds no run of twenty digits, and
    the log files of the decade are named by their versions, an in-place
    [as_version(v)] that returns leaves [version] equal to [v]. *)
Theorem as_version_reaches_target (fs : filesystem) self v σ t l σ' :
  tables σ !! self = Some t →
  as_version fs self v true σ = (Return l, σ') →
  plain_root (path t) = true →
  first_digits20 (path t) = None →
  0 ≤ v < 10 →
  (∀ f, f ∈ decade_log_files fs (path t) 0 →
        ∃ w, 0 ≤ w < 10 ^ 20 ∧ f = log_path (path t) w) →
  is_Some (fs !! log_path (path t) v) →
  version_of σ' self = Some v.
Proof.
  intros Ht Hrun _ Hroot Hv Hnamed Hfile.
  destruct (as_version_version fs self v σ t l σ' Ht Hrun) as [_ ->].
  assert (v / 10 = 0) as -> by (Z.div_mod_to_equations; lia).
  apply (stop_version_found (path t)); [done | done | lia |].
  apply elem_of_decade_log_files. split; [done |].
  apply glob_match_log_path; [lia | lia |]. Z.div_mod_to_equations. lia.
Qed.


Lemma absolute_log_files :
  decade_log_files absolute_log "/t" 0 = [log_path "/t" 0; log_path "/t" 1].
Proof. vm_compute. reflexivity. Qed.

Lemma as_version_reaches_target_witness :
  let t := mkDeltaTable "/t" None None None None in
  let σ := mkStore {[ 1%positive := t ]} ∅ in
  version_of (as_version absolute_log 1%positive 1 true σ).2 1%positive = Some 1.
Proof.
  intros t σ.
  apply (as_version_reaches_target absolute_log 1%positive 1 σ t 1%positive
           (as_version absolute_log 1%positive 1 true σ).2).
  - vm_compute. reflexivity.
  - vm_compute. reflexivity.
  - vm_compute. reflexivity.
  - vm_compute. reflexivity.
  - lia.
  - change (path t) with "/t". rewrite absolute_log_files. intros f Hf.
    apply elem_of_cons in Hf as [-> | Hf].
    { exists 0. split; [split; [lia | reflexivity] | reflexivity]. }
    apply list_elem_of_singleton in Hf as ->.
    exists 1. split; [split; [lia | reflexivity] | reflexivity].
  - vm_compute. eexists. reflexivity.
Defined.

(** X13. From version 10 on, under a root that is a normalised absolute
    path of printable ASCII bytes without glob metacharacters and holds
    no run of twenty digits, and with the log files found named by their
    versions, an in-place [as_version(v)] that returns never leaves
    [version] at [v]: the log files it replays are those of the decade of
    [v // 10], so the version it stops at lies below [v]. *)
Theorem as_version_from_10_misses_target (fs : filesystem) self v σ t l σ' :
  tables σ !! self = Some t →
  as_version fs self v true σ = (Return l, σ') →
  plain_root (path t) = true →
  first_digits20 (path t) = None →
  10 ≤ v < 10 ^ 20 →
  (∀ f, f ∈ decade_log_files fs (path t) (v / 10) →
        ∃ w, 0 ≤ w < 10 ^ 20 ∧ f = log_path (path t) w) →
  decade_log_files fs (path t) (v / 10) ≠ [] →
  ∃ w, version_of σ' self = Some w ∧ w / 10 = v / 10 / 10 ∧ w < v.
Proof.
  intros Ht Hrun _ Hroot Hv Hnamed Hfound.
  destruct (as_version_version fs self v σ t l σ' Ht Hrun) as [_ ->].
  destruct (stop_version_among (path t) v _ (version t) Hroot Hnamed Hfound)
    as (w & -> & Hw & Hin).
  exists w. split; [done |].
  assert (Hc : 0 ≤ v / 10 < 10 ^ 20) by (Z.div_mod_to_equations; lia).
  apply decade_log_files_match, glob_match_decade in Hin; [| done..].
  split; [done |]. Z.div_mod_to_equations. lia.
Qed.


Lemma early_checkpoint_files :
  decade_log_files early_checkpoint "/t" 1
  = [log_path "/t" 0; log_path "/t" 1; log_path "/t" 2].
Proof. vm_compute. reflexivity. Qed.

Lemma as_version_from_10_misses_target_witness :
  let t := mkDeltaTable "/t" None None None None in
  let σ := mkStore {[ 1%positive := t ]} ∅ in
  ∃ w, version_of (as_version early_checkpoint 1%positive 10 true σ).2 1%positive
       = Some w
       ∧ w / 10 = 10 / 10 / 10 ∧ w < 10.
Proof.
  intros t σ.
  apply (as_version_from_10_misses_target early_checkpoint 1%positive 10 σ t
           1%positive (as_version early_checkpoint 1%positive 10 true σ).2).
  - vm_compute. reflexivity.
  - vm_compute. reflexivity.
  - vm_compute. reflexivity.
  - vm_compute. reflexivity.
  - split; [lia | reflexivity].
  - change (path t) with "/t". change (10 / 10) with 1.
    rewrite early_checkpoint_files. intros f Hf.
    apply elem_of_cons in Hf as [-> | Hf].
    { exists 0. split; [split; [lia | reflexivity] | reflexivity]. }
    apply elem_of_cons in Hf as [-> | Hf].
    { exists 1. split; [split; [lia | reflexivity] | reflexivity]. }
    apply list_elem_of_singleton in Hf as ->.
    exists 2. split; [split; [lia | reflexivity] | reflexivity].
  - change (path t) with "/t". change (10 / 10) with 1.
    rewrite early_checkpoint_files. discriminate.
Defined.

(** X14. Under a root that is a normalised absolute path of printable
    ASCII bytes without glob metacharacters and holds no run of twenty
    digits, when the log files found are named by their versions and none
    is of a version beyond the target, an in-place [as_version(v)] that
    returns leaves [version] at the highest version found, also when that
    is below [v]: a target beyond the last commit is not an error. *)
Theorem as_version_beyond_last_stops_at_last (fs : filesystem) self v σ t l σ' :
  tables σ !! self = Some t →
  as_version fs self v true σ = (Return l, σ') →
  plain_root (path t) = true →
  first_digits20 (path t) = None →
  (∀ f, f ∈ decade_log_files fs (path t) (v / 10) →
        ∃ w, 0 ≤ w < 10 ^ 20 ∧ f = log_path (path t) w ∧ w ≤ v) →
  decade_log_files fs (path t) (v / 10) ≠ [] →
  ∃ vmax,
    version_of σ' self = Some vmax
    ∧ log_path (path t) vmax ∈ decade_log_files fs (path t) (v / 10)
    ∧ ∀ w, 0 ≤ w < 10 ^ 20 →
           log_path (path t) w ∈ decade_log_files fs (path t) (v / 10) → w ≤ vmax.
Proof.
  intros Ht Hrun _ Hroot Hnamed Hfound.
  destruct (as_version_version fs self v σ t l σ' Ht Hrun) as [_ ->].
  destruct (stop_version_highest (path t) v _ (version t) Hroot
              (decade_log_files_sorted fs (path t) (v / 10)) Hnamed Hfound)
    as (vmax & Hstop & Hin & _ & Hhigh).
  by exists vmax.
Qed.

Lemma as_version_beyond_last_stops_at_last_witness :
  let t := mkDeltaTable "/t" None None None None in
  let σ := mkStore {[ 1%positive := t ]} ∅ in
  ∃ vmax,
    version_of (as_version absolute_log 1%positive 7 true σ).2 1%positive = Some vmax
    ∧ log_path (path t) vmax ∈ decade_log_files absolute_log (path t) (7 / 10)
    ∧ ∀ w, 0 ≤ w < 10 ^ 20 →
           log_path (path t) w ∈ decade_log_files absolute_log (path t) (7 / 10) →
           w ≤ vmax.
Proof.
  intros t σ.
  apply (as_version_beyond_last_stops_at_last absolute_log 1%positive 7 σ t
           1%positive (as_version absolute_log 1%positive 7 true σ).2).
  - vm_compute. reflexivity.
  - vm_compute. reflexivity.
  - vm_compute. reflexivity.
  - vm_compute. reflexivity.
  - change (path t) with "/t". change (7 / 10) with 0.
    rewrite absolute_log_files. intros f Hf.
    apply elem_of_cons in Hf as [-> | Hf].
    { exists 0. split; [split; [lia | reflexivity] | split; [reflexivity | lia]]. }
    apply list_elem_of_singleton in Hf as ->.
    exists 1. split; [split; [lia | reflexivity] | split; [reflexivity | lia]].
  - change (path t) with "/t". change (7 / 10) with 0.
    rewrite absolute_log_files. discriminate.
Defined.

(** *** Tables that only add files *)

Lemma adds_functional line o o' : adds line o → adds line o' → o = o'.
Proof.
  intros (members & Hl & _ & Ho) (members' & Hl' & _ & Ho').
  rewrite Hl in Hl'. injection Hl' as <-.
  destruct o as [p |], o' as [p' |]; try done.
  - destruct Ho as (am & Ha & Hp), Ho' as (am' & Ha' & Hp').
    rewrite Ha in Ha'. injection Ha' as <-. rewrite Hp in Hp'. by injection Hp' as <-.
  - destruct Ho as (am & Ha & _). by rewrite Ha in Ho'.
  - destruct Ho' as (am & Ha & _). by rewrite Ha in Ho.
Qed.

(** What a run of records adds, read off the records. *)
Lemma elem_of_added root lines os x :
  Forall2 adds lines os →
  x ∈ (list_to_set (data_path root <$> omap id os) : gset string)
  ↔ ∃ line p, line ∈ lines ∧ adds line (Some p) ∧ x = data_path root p.
Proof.
  intros Hall. rewrite elem_of_list_to_set, list_elem_of_fmap. split.
  - intros (p & -> & Hp). apply list_elem_of_omap in Hp as (o & Ho & E).
    cbn in E. subst o.
    apply list_elem_of_lookup in Ho as [i Hi].
    destruct (Forall2_lookup_r _ _ _ _ _ Hall Hi) as (line & Hline & Hadds).
    exists line, p. split; [by eapply list_elem_of_lookup_2 | done].
  - intros (line & p & Hline & Hadds & ->). exists p. split; [done |].
    apply list_elem_of_omap. exists (Some p). split; [| done].
    apply list_elem_of_lookup in Hline as [i Hi].
    destruct (Forall2_lookup_l _ _ _ _ _ Hall Hi) as (o & Ho & Hadds').
    rewrite (adds_functional line (Some p) o Hadds Hadds').
    by eapply list_elem_of_lookup_2.
Qed.


(** The loop over a sorted run of well-named log files that holds the
    file of [target], when the files up to [target] only add: it returns
    at [target], having added what those files add. *)
Lemma apply_log_files_adds (fs : filesystem) self root target :
  first_digits20 root = None → 0 ≤ target < 10 ^ 20 →
  ∀ log_files,
    StronglySorted String.le log_files →
    (∀ f, f ∈ log_files → ∃ w, 0 ≤ w < 10 ^ 20 ∧ f = log_path root w) →
    log_path root target ∈ log_files →
    (∀ w, 0 ≤ w ≤ target → log_path root w ∈ log_files →
          ∃ data os, fs !! log_path root w = Some (Bytes data)
                     ∧ Forall2 adds (split data) os) →
    ∀ σ t fl s,
      tables σ !! self = Some t → path t = root → files t = Some fl →
      sets σ !! fl = Some s →
      ∃ σ' t' s',
        apply_log_files fs self target log_files σ = (Return tt, σ')
        ∧ tables σ' !! self = Some t' ∧ path t' = root ∧ files t' = Some fl
        ∧ checkpoint t' = checkpoint t ∧ version t' = Some target
        ∧ sets σ' !! fl = Some s'
        ∧ ∀ x, x ∈ s'
               ↔ x ∈ s
                 ∨ ∃ w data line p,
                     0 ≤ w ≤ target ∧ log_path root w ∈ log_files
                     ∧ fs !! log_path root w = Some (Bytes data)
                     ∧ line ∈ split data ∧ adds line (Some p)
                     ∧ x = data_path root p.
Proof.
  intros Hroot Htarget log_files Hsorted.
  induction Hsorted as [| f rest Hrest IH Hle];
    intros Hnamed Hin Happend σ t fl s Ht Hp Hf Hs.
  { by apply elem_of_nil in Hin. }
  destruct (Hnamed f) as (w & Hw & ->); [by left |].
  destruct (first_digits20_log_path root w Hroot Hw) as [Hd Hint].
  rewrite Forall_forall in Hle.
  assert (Hwt : w ≤ target).
  { apply elem_of_cons in Hin as [E | Hin'].
    - apply log_path_inj in E; [lia | done..].
    - apply (log_path_le root); [done | done |]. by apply Hle. }
  destruct (Happend w) as (data & os & Hfile & Hall); [lia | by left |].
  rewrite (run_apply_log_files_cons fs self target _ rest σ t _ data Hd Ht Hfile).
  rewrite Hint. set (t1 := set_version w t).
  set (σ1 := mkStore (<[self := t1]> (tables σ)) (sets σ)).
  assert (Ht1 : tables σ1 !! self = Some t1) by apply lookup_table_insert.
  rewrite (run_bind_return _ _ _ _ _
             (for_each_adds self t1 fl (split data) os Hf Hall σ1 s Ht1 Hs)).
  change (path t1) with (path t). rewrite Hp.
  set (added := list_to_set (data_path root <$> omap id os) : gset string).
  set (σ2 := mkStore (tables σ1) (<[fl := added ∪ s]> (sets σ1))).
  assert (Ht2 : tables σ2 !! self = Some t1) by exact Ht1.
  assert (Hs2 : sets σ2 !! fl = Some (added ∪ s)) by apply lookup_set_insert.
  rewrite (run_bind_return _ _ _ _ _ (run_getattr _ version _ _ _ Ht2 eq_refl)).
  destruct (w =? target) eqn:E.
  - apply Z.eqb_eq in E. subst w. exists σ2, t1, (added ∪ s).
    split_and!; try done. intros x.
    rewrite elem_of_union. unfold added. rewrite (elem_of_added root _ _ _ Hall).
    split.
    + intros [(line & p & Hl & Ha & ->) | Hx]; [right | by left].
      exists target, data, line, p.
      split; [lia |]. split; [by left |]. repeat split; done.
    + intros [Hx | (w' & data' & line & p & Hw' & Hin' & Hfile' & Hl & Ha & ->)];
        [by right |].
      left. exists line, p. split; [| done].
      assert (w' = target) as ->.
      { apply elem_of_cons in Hin' as [E | Hin'].
        - apply log_path_inj in E; [done | done | lia | done].
        - apply Hle, (log_path_le root) in Hin'; lia. }
      rewrite Hfile in Hfile'. by injection Hfile' as <-.
  - apply Z.eqb_neq in E.
    assert (Hin_rest : log_path root target ∈ rest).
    { apply elem_of_cons in Hin as [E' | Hin']; [| done].
      apply log_path_inj in E'; [by subst | done..]. }
    destruct (IH (λ g Hg, Hnamed g (list_elem_of_further _ _ _ Hg)) Hin_rest
                (λ w' Hw' Hg, Happend w' Hw' (list_elem_of_further _ _ _ Hg))
                σ2 t1 fl (added ∪ s) Ht2 Hp Hf Hs2)
      as (σ' & t' & s' & Hrun & Ht' & Hp' & Hf' & Hc' & Hv' & Hs' & Hmem).
    exists σ', t', s'. split_and!; try done. intros x.
    rewrite Hmem, elem_of_union. unfold added.
    rewrite (elem_of_added root _ _ _ Hall). split.
    + intros [[(line & p & Hl & Ha & ->) | Hx]
             | (w' & data' & line & p & Hw' & Hin' & Hfile' & Hl & Ha & ->)].
      * right. exists w, data, line, p.
        split; [lia |]. split; [by left |]. repeat split; done.
      * by left.
      * right. exists w', data', line, p.
        split; [lia |]. split; [by right |]. repeat split; done.
    + intros [Hx | (w' & data' & line & p & Hw' & Hin' & Hfile' & Hl & Ha & ->)];
        [by left; right |].
      apply elem_of_cons in Hin' as [E' | Hin'].
      * apply log_path_inj in E'; [| done | lia | done]. subst w'.
        rewrite Hfile in Hfile'. injection Hfile' as <-.
        left. left. by exists line, p.
      * right. by exists w', data', line, p.
Qed.


(** X15. A table of at most ten commits that only add files, under a
    root that is a normalised absolute path of printable ASCII bytes
    without glob metacharacters and holds no run of twenty digits: for a
    target [v] from 0 to 9 whose log file exists, when the log files
    found are named by their versions and those up to [v] hold only
    records with an [add] or with neither key, an in-place
    [as_version(v)] returns the instance itself with [version] equal to
    [v], [checkpoint] 0, the dataset view built over the file set, and a
    file set that holds exactly the root-prefixed paths added by the log
    files of the versions 0 to [v]. (The dataset factory is taken to
    return the view over the list it is given, which for [pyarrow]
    presupposes that the data files exist.) *)
Theorem append_only_snapshot (fs : filesystem) self v σ t :
  tables σ !! self = Some t →
  plain_root (path t) = true →
  first_digits20 (path t) = None →
  0 ≤ v < 10 →
  (∀ f, f ∈ decade_log_files fs (path t) 0 →
        ∃ w, 0 ≤ w < 10 ^ 20 ∧ f = log_path (path t) w) →
  is_Some (fs !! log_path (path t) v) →
  (∀ w, 0 ≤ w ≤ v → is_Some (fs !! log_path (path t) w) →
        ∃ data os, fs !! log_path (path t) w = Some (Bytes data)
                   ∧ Forall2 adds (split data) os) →
  let r := as_version fs self v true σ in
  r.1 = Return self
  ∧ version_of r.2 self = Some v
  ∧ checkpoint_of r.2 self = Some 0
  ∧ ∃ s, files_of r.2 self = Some s
         ∧ dataset_view r.2 self = Some (dataset_of s)
         ∧ ∀ x, x ∈ s
                ↔ ∃ w data line p,
                    0 ≤ w ≤ v
                    ∧ fs !! log_path (path t) w = Some (Bytes data)
                    ∧ line ∈ split data ∧ adds line (Some p)
                    ∧ x = data_path (path t) p.
Proof.
  intros Ht _ Hroot Hv Hnamed Hfile Happend. cbn zeta. unfold as_version.
  assert (v / 10 = 0) as -> by (Z.div_mod_to_equations; lia).
  rewrite (run_bind_return _ _ _ _ _ (run_apply_from_checkpoint_0 fs self σ t Ht)).
  cbn zeta. set (fl := fresh (dom (sets σ))).
  set (t1 := set_checkpoint 0 (set_files fl t)).
  set (σ1 := mkStore (<[self := t1]> (tables σ)) (<[fl := ∅]> (sets σ))).
  assert (Ht1 : tables σ1 !! self = Some t1) by apply lookup_table_insert.
  assert (Hs1 : sets σ1 !! fl = Some ∅) by apply lookup_set_insert.
  assert (Hin : log_path (path t) v ∈ decade_log_files fs (path t) 0).
  { apply elem_of_decade_log_files. split; [done |].
    apply glob_match_log_path; [lia | lia |]. Z.div_mod_to_equations. lia. }
  destruct (apply_log_files_adds fs self (path t) v Hroot ltac:(lia)
              (decade_log_files fs (path t) 0)
              (decade_log_files_sorted fs (path t) 0) Hnamed Hin
              (λ w Hw Hg, Happend w Hw
                 (proj1 (proj1 (elem_of_decade_log_files fs (path t) 0 _) Hg)))
              σ1 t1 fl ∅ Ht1 eq_refl eq_refl Hs1)
    as (σ2 & t2 & s2 & Hrun & Ht2 & Hp2 & Hf2 & Hc2 & Hv2 & Hs2 & Hmem).
  assert (Hlogs : _apply_partial_logs fs self v σ1 = (Return tt, σ2)).
  { unfold _apply_partial_logs.
    rewrite (run_bind_return _ _ _ _ _ (run_get_table _ _ _ Ht1)).
    by rewrite (run_bind_return _ _ _ _ _ (run_getattr _ checkpoint _ _ _ Ht1 eq_refl)). }
  rewrite (run_bind_return _ _ _ _ _ Hlogs).
  rewrite (run_bind_return _ _ _ _ _ (run_rebuild_dataset _ _ _ _ _ Ht2 Hf2 Hs2)).
  cbn [ret fst snd]. split; [done |].
  unfold version_of, checkpoint_of, files_of, dataset_view. cbn [tables sets].
  rewrite lookup_table_insert. cbn. rewrite Hf2. cbn. rewrite Hs2.
  split; [done |]. split; [by rewrite Hc2 |]. exists s2.
  split; [done |]. split; [done |]. intros x. rewrite Hmem. split.
  - intros [Hx | (w & data & line & p & Hw & _ & H)]; [by apply elem_of_empty in Hx |].
    by exists w, data, line, p.
  - intros (w & data & line & p & Hw & Hdata & H). right.
    exists w, data, line, p. split; [done |]. split; [| done].
    apply elem_of_decade_log_files. split; [by rewrite Hdata |].
    apply glob_match_log_path; [lia | lia |]. Z.div_mod_to_equations. lia.
Qed.

Lemma append_only_snapshot_witness :
  let t := mkDeltaTable "/t" None None None None in
  let σ := mkStore {[ 1%positive := t ]} ∅ in
  let r := as_version absolute_log 1%positive 0 true σ in
  r.1 = Return 1%positive
  ∧ version_of r.2 1%positive = Some 0
  ∧ checkpoint_of r.2 1%positive = Some 0
  ∧ ∃ s, files_of r.2 1%positive = Some s
         ∧ dataset_view r.2 1%positive = Some (dataset_of s)
         ∧ ∀ x, x ∈ s
                ↔ ∃ w data line p,
                    0 ≤ w ≤ 0
                    ∧ absolute_log !! log_path (path t) w = Some (Bytes data)
                    ∧ line ∈ split data ∧ adds line (Some p)
                    ∧ x = data_path (path t) p.
Proof.
  intros t σ.
  apply (append_only_snapshot absolute_log 1%positive 0 σ t).
  - vm_compute. reflexivity.
  - vm_compute. reflexivity.
  - vm_compute. reflexivity.
  - lia.
  - change (path t) with "/t". rewrite absolute_log_files. intros f Hf.
    apply elem_of_cons in Hf as [-> | Hf].
    { exists 0. split; [split; [lia | reflexivity] | reflexivity]. }
    apply list_elem_of_singleton in Hf as ->.
    exists 1. split; [split; [lia | reflexivity] | reflexivity].
  - vm_compute. eexists. reflexivity.
  - intros w Hw _. assert (w = 0) as -> by lia.
    exists (commit_info ++ newline ++ add_entry "A" ++ newline), [None; Some "A"].
    split; [vm_compute; reflexivity |].
    destruct short_log_file_0 as (_ & _ & ->).
    constructor; [| constructor; [| constructor]].
    + exists [("commitInfo", JObj [])]. split_and!; vm_compute; reflexivity.
    + exists [("add", JObj [("path", JStr "A")])].
      split_and!; [vm_compute; reflexivity.. |].
      exists [("path", JStr "A")]. split; reflexivity.
Defined.


(** *** Exceptions that cannot come *)

Section never.
Variable e : exn.

Lemma never_ret {A} (a : A) : never e (ret a).
Proof. by intros σ. Qed.

Lemma never_raise {A} e' : e' ≠ e → never e (@raise A e').
Proof. intros Hne σ [= ?]. done. Qed.

Lemma never_bind {A B} (m : M A) (k : A → M B) :
  never e m → (∀ a, never e (k a)) → never e (bind m k).
Proof.
  intros Hm Hk σ. specialize (Hm σ). unfold bind.
  destruct (m σ) as [[a | e'] σ']; [apply Hk |].
  cbn in *. intros [= ->]. by apply Hm.
Qed.

Lemma never_try {A} (m h : M A) : never e h → never e (try_except m e h).
Proof.
  intros Hh σ. unfold try_except. destruct (m σ) as [[a | e'] σ']; [done |].
  destruct (decide (e' = e)) as [| Hne]; [apply Hh |]. cbn. by intros [= ?].
Qed.

Lemma never_for_each {A} (body : A → M unit) l :
  (∀ x, never e (body x)) → never e (for_each body l).
Proof.
  intros Hbody. induction l as [| x l IH]; cbn [for_each]; [apply never_ret |].
  apply never_bind; [apply Hbody | intros _; apply IH].
Qed.

(** When what follows cannot raise [e], an [e] comes from the first step. *)
Lemma never_after {A B} (m : M A) (k : A → M B) σ :
  (∀ a, never e (k a)) → (bind m k σ).1 = Raise e → (m σ).1 = Raise e.
Proof.
  intros Hk. unfold bind. destruct (m σ) as [[a | e'] σ'].
  - intros H. by destruct (Hk a σ').
  - cbn. by intros [= ->].
Qed.

End never.

Ltac never_prim :=
  let σ := fresh "σ" in
  intros σ;
  cbv [getattr get_table setattr new_table new_set get_set put_set set_add
       set_contains set_remove json_loads subscript has_key path_text in_files
       int_value bind ret raise fst];
  repeat case_match; congruence.

Ltac never_steps :=
  repeat first
    [ apply never_ret
    | apply never_bind; [| intros ?]
    | match goal with
      | |- never _ (if ?b then _ else _) => destruct b
      end ].

Lemma never_apply_log_line self line : never FileNotFoundError (apply_log_line self line).
Proof. unfold apply_log_line. never_steps; never_prim. Qed.

Lemma never_apply_checkpoint_row self row :
  never FileNotFoundError (apply_checkpoint_row self row).
Proof.
  unfold apply_checkpoint_row. destruct (row_add row); [| apply never_ret].
  never_steps; never_prim.
Qed.

Lemma never_apply_log_files (fs : filesystem) self target log_files :
  (∀ f, f ∈ log_files → is_Some (fs !! f)) →
  never FileNotFoundError (apply_log_files fs self target log_files).
Proof.
  induction log_files as [| f rest IH]; intros Hfound; cbn [apply_log_files];
    [apply never_ret |].
  apply never_bind.
  { destruct (first_digits20 f); [apply never_ret | by apply never_raise]. }
  intros d. apply never_bind; [never_prim |]. intros _.
  apply never_bind.
  { unfold fs_cat. destruct (Hfound f) as [[data | rows] ->]; [by left | |].
    - apply never_ret.
    - by apply never_raise. }
  intros log. apply never_bind; [apply never_for_each, never_apply_log_line |].
  intros _. apply never_bind; [never_prim |]. intros v.
  destruct (v =? target); [apply never_ret |].
  apply IH. intros g Hg. apply Hfound. by right.
Qed.

Lemma never_apply_partial_logs (fs : filesystem) self target :
  never FileNotFoundError (_apply_partial_logs fs self target).
Proof.
  unfold _apply_partial_logs.
  apply never_bind; [never_prim |]. intros t.
  apply never_bind; [never_prim |]. intros c.
  apply never_apply_log_files. intros f Hf.
  by apply elem_of_decade_log_files in Hf as [Hf _].
Qed.

(** X16. [_as_newest_version] never raises [FileNotFoundError], whatever
    the file system holds: its handler takes every one raised while the
    pointer and the checkpoint are read, and every log file that is
    replayed afterwards was found by the glob. *)
Theorem as_newest_version_never_raises_file_not_found (fs : filesystem) self σ :
  (_as_newest_version fs self σ).1 ≠ Raise FileNotFoundError.
Proof.
  revert σ. change (never FileNotFoundError (_as_newest_version fs self)).
  unfold _as_newest_version. apply never_bind.
  - apply never_try, never_ret.
  - intros _. apply never_bind; [never_prim |]. intros c.
    apply never_apply_partial_logs.
Qed.

Lemma apply_from_checkpoint_file_error (fs : filesystem) self c σ t :
  tables σ !! self = Some t →
  (_apply_from_checkpoint fs self c σ).1 = Raise FileNotFoundError →
  c ≠ 0 ∧ fs !! checkpoint_path (path t) c = None.
Proof.
  intros Ht. rewrite (run_apply_from_checkpoint fs self σ t c Ht). cbn zeta.
  destruct (c =? 0) eqn:E; [done |]. apply Z.eqb_neq in E.
  intros Hraise. split; [done |].
  apply never_after in Hraise;
    [| intros rows; apply never_for_each, never_apply_checkpoint_row].
  unfold fs_read_table in Hraise.
  by destruct (fs !! checkpoint_path (path t) c) as [[data | rows] |].
Qed.

(** What [deepcopy] gives: a copy with the same attributes, or nothing
    when the set of the instance is missing from the store. *)
Lemma deepcopy_outcome self σ t :
  tables σ !! self = Some t →
  (∃ me σ1 t', deepcopy self σ = (Return me, σ1)
               ∧ tables σ1 !! me = Some t' ∧ path t' = path t
               ∧ version t' = version t)
  ∨ (∃ σ1, deepcopy self σ = (Raise OutsideModel, σ1)).
Proof.
  intros Ht. unfold deepcopy.
  rewrite (run_bind_return _ _ _ _ _ (run_get_table _ _ _ Ht)).
  destruct (files t) as [fl |] eqn:Hf.
  - destruct (sets σ !! fl) as [s |] eqn:Hs.
    + left. rewrite (run_bind_return _ _ _ _ _ (run_get_set _ _ _ Hs)).
      do 3 eexists. split; [reflexivity |]. cbn [tables].
      split; [apply lookup_table_insert | done].
    + right. exists σ. apply run_bind_raise. unfold get_set. by rewrite Hs.
  - left. do 3 eexists. split; [reflexivity |]. cbn [tables].
    split; [apply lookup_table_insert | done].
Qed.

(** X17. A [FileNotFoundError] out of [as_version(v, inplace=False)]
    always means that [v // 10] is not 0 and that the checkpoint file of
    version [v // 10] does not exist: the replay of the log files never
    raises it. *)
Theorem as_version_copy_file_error_is_missing_checkpoint
    (fs : filesystem) self v σ t :
  tables σ !! self = Some t →
  (as_version fs self v false σ).1 = Raise FileNotFoundError →
  v / 10 ≠ 0 ∧ fs !! checkpoint_path (path t) (v / 10) = None.
Proof.
  intros Ht. unfold as_version.
  destruct (deepcopy_outcome self σ t Ht)
    as [(me & σ1 & t' & Hcopy & Ht' & Hp & _) | [σ1 Hcopy]].
  2: { by rewrite (run_bind_raise _ _ _ _ _ Hcopy). }
  rewrite (run_bind_return _ _ _ _ _ Hcopy). intros Hraise.
  apply never_after in Hraise.
  - rewrite <- Hp. by apply (apply_from_checkpoint_file_error fs me _ σ1 t').
  - intros _. apply never_bind; [apply never_apply_partial_logs |].
    intros _. apply never_ret.
Qed.

Lemma as_version_copy_file_error_is_missing_checkpoint_witness :
  let t := mkDeltaTable "tbl" None None None None in
  let σ := mkStore {[ 1%positive := t ]} ∅ in
  11 / 10 ≠ 0 ∧ checkpointed !! checkpoint_path (path t) (11 / 10) = None.
Proof.
  intros t σ.
  apply (as_version_copy_file_error_is_missing_checkpoint checkpointed 1%positive
           11 σ t); vm_compute; reflexivity.
Defined.

(** *** Opening a table *)

(** X18. A pointer file that exists and decodes, but gives no version, is
    an error that the constructor does not catch: when it decodes to an
    object without [version], [DeltaTable(root)] raises [KeyError]; when
    it decodes to a value that is not an object, it raises
    [TypeError]. *)
Theorem init_with_pointer_without_version_raises (fs : filesystem) root σ info v :
  fs !! last_checkpoint_path root = Some (Bytes info) →
  Json.loads info = Decoded v →
  (∀ members, v = JObj members → dict_get "version" members = None →
              (__init__ fs root σ).1 = Raise KeyError)
  ∧ ((∀ members, v ≠ JObj members) →
     (__init__ fs root σ).1 = Raise TypeError).
Proof.
  intros Hptr Hinfo. unfold __init__.
  rewrite (run_bind_return _ _ _ _ _ (run_new_table _ σ)).
  set (me := fresh (dom (tables σ))). set (σ1 := mkStore _ _).
  assert (Ht : tables σ1 !! me = Some (mkDeltaTable root None None None None))
    by apply lookup_table_insert.
  assert (Hraise : ∀ e, e ≠ FileNotFoundError →
            subscript v "version" σ1 = (Raise e, σ1) →
            (bind (_as_newest_version fs me)
               (λ _, bind (rebuild_dataset me) (λ _, ret me)) σ1).1 = Raise e).
  { intros e He Hrun. erewrite run_bind_raise; [reflexivity |].
    unfold _as_newest_version. apply run_bind_raise.
    apply run_try_passed; [| done].
    rewrite (run_bind_return _ _ _ _ _ (run_get_table _ _ _ Ht)).
    rewrite (run_bind_return _ _ σ1 info σ1)
      by (unfold fs_cat; cbn [path]; rewrite Hptr; reflexivity).
    rewrite (run_bind_return _ _ σ1 v σ1)
      by (unfold json_loads; rewrite Hinfo; reflexivity).
    by apply run_bind_raise. }
  split.
  - intros members -> Hversion. apply Hraise; [done |].
    unfold subscript. by rewrite Hversion.
  - intros Hother. apply Hraise; [done |].
    destruct v; try reflexivity. by destruct (Hother members).
Qed.

Lemma init_with_pointer_without_version_raises_witness :
  (__init__ empty_pointer "t" empty_store).1 = Raise KeyError.
Proof.
  destruct (init_with_pointer_without_version_raises empty_pointer "t" empty_store
              "{}" (JObj []))
    as [H _]; [vm_compute; reflexivity | vm_compute; reflexivity |].
  apply (H []); reflexivity.
Defined.

Lemma keeps_as_newest_version (fs : filesystem) σ0 me :
  keeps σ0 me (_as_newest_version fs me) (λ _, True).
Proof.
  unfold _as_newest_version. eapply (keeps_bind _ _ _ _ (λ _, True)).
  { apply keeps_try; [| by apply keeps_ret].
    eapply keeps_bind; [apply keeps_reads, reads_get_table |]. intros t _.
    eapply keeps_bind; [apply keeps_reads, reads_fs_cat |]. intros info _.
    eapply keeps_bind; [apply keeps_reads, reads_json_loads |]. intros info' _.
    eapply keeps_bind; [apply keeps_reads, reads_subscript |]. intros v _.
    eapply keeps_bind; [apply keeps_reads, reads_int_value |]. intros v' _.
    apply keeps_apply_from_checkpoint. }
  intros _ _. eapply keeps_bind; [apply keeps_reads, reads_getattr |].
  intros c _. apply keeps_apply_partial_logs.
Qed.

(** X19. [DeltaTable(root)] leaves every instance and every set object
    of the store it starts from as they were, whether it returns or
    raises; the instance it returns is a new object with the given root,
    its file set is a new set object, and its dataset view is built over
    that file set. *)
Theorem init_creates_separate_instance (fs : filesystem) root σ :
  let r := __init__ fs root σ in
  (∀ l, l ∈ dom (tables σ) → tables r.2 !! l = tables σ !! l)
  ∧ (∀ l, l ∈ dom (sets σ) → sets r.2 !! l = sets σ !! l)
  ∧ ∀ self, r.1 = Return self →
      (self ∉ dom (tables σ))
      ∧ ∃ t fl s,
          tables r.2 !! self = Some t ∧ path t = root
          ∧ files t = Some fl ∧ (fl ∉ dom (sets σ)) ∧ sets r.2 !! fl = Some s
          ∧ pyarrow_dataset t = Some (dataset_of s).
Proof.
  cbn zeta. unfold __init__.
  rewrite (run_bind_return _ _ _ _ _ (run_new_table _ σ)).
  set (me := fresh (dom (tables σ))). set (σ1 := mkStore _ _).
  assert (Hme : me ∉ dom (tables σ)) by apply is_fresh.
  assert (Hsep : separate σ me σ1).
  { split; [split |]; unfold σ1; cbn [tables sets].
    - intros l Hl. apply lookup_table_insert_ne. by intros <-.
    - done.
    - split; [done |]. intros t fl. cbn [tables]. rewrite lookup_table_insert.
      by intros [= <-]. }
  assert (Hrooted : rooted me root σ1).
  { eexists. split; [apply lookup_table_insert | done]. }
  pose proof (keeps_as_newest_version fs σ me σ1 Hsep) as Hkeeps.
  pose proof (as_newest_version_version fs me root σ1 Hrooted) as Hnewest.
  destruct (_as_newest_version fs me σ1) as [[[] | e] σ2] eqn:Hrun;
    cbn [fst snd] in *; destruct Hkeeps as [[[HT HS] [_ Hown]] _].
  2: { rewrite (run_bind_raise _ _ _ _ _ Hrun). done. }
  rewrite (run_bind_return _ _ _ _ _ Hrun).
  destruct (Hnewest eq_refl) as (c & v0 & t & Ht & Hp & _).
  unfold rebuild_dataset.
  destruct (files t) as [fl |] eqn:Hf.
  2: { rewrite (run_bind_raise _ _ σ2 AttributeError σ2); [done |].
       apply run_bind_raise. by eapply run_getattr_unset. }
  destruct (sets σ2 !! fl) as [s |] eqn:Hs.
  2: { rewrite (run_bind_raise _ _ σ2 OutsideModel σ2); [done |].
       rewrite (run_bind_return _ _ _ _ _ (run_getattr _ files _ _ _ Ht Hf)).
       apply run_bind_raise. unfold get_set. by rewrite Hs. }
  rewrite (run_bind_return _ _ _ _ _ (run_rebuild_dataset _ _ _ _ _ Ht Hf Hs)).
  cbn [ret fst snd tables sets]. split_and!.
  - intros l Hl. rewrite lookup_table_insert_ne by (by intros <-). by apply HT.
  - exact HS.
  - intros self [= <-]. split; [done |].
    exists (set_pyarrow_dataset (dataset_of s) t), fl, s.
    rewrite lookup_table_insert. split_and!; try done. by eapply Hown.
Qed.


(** *** Two runs side by side *)

Lemma sync_ret {A} I (V : A → A → Prop) a1 a2 :
  V a1 a2 → sync I I (ret a1) (ret a2) V.
Proof. intros HV σ1 σ2 HI. done. Qed.

Lemma sync_raise {A} I (V : A → A → Prop) e : sync I I (raise e) (raise e) V.
Proof. intros σ1 σ2 HI. done. Qed.

Lemma sync_bind {A B} P R Q (m1 m2 : M A) (k1 k2 : A → M B) V W :
  sync P R m1 m2 V →
  (∀ σ1 σ2, R σ1 σ2 → Q σ1 σ2) →
  (∀ a1 a2, V a1 a2 → sync R Q (k1 a1) (k2 a2) W) →
  sync P Q (bind m1 k1) (bind m2 k2) W.
Proof.
  intros Hm HRQ Hk σ1 σ2 HP. specialize (Hm σ1 σ2 HP). unfold bind.
  destruct (m1 σ1) as [[a1 | e1] σ1'], (m2 σ2) as [[a2 | e2] σ2'];
    cbn in Hm; destruct Hm as [HR HV]; try done.
  - by apply Hk.
  - split; [by apply HRQ | done].
Qed.

Lemma sync_seq {A B} I (m1 m2 : M A) (k1 k2 : A → M B) V W :
  sync I I m1 m2 V →
  (∀ a1 a2, V a1 a2 → sync I I (k1 a1) (k2 a2) W) →
  sync I I (bind m1 k1) (bind m2 k2) W.
Proof. intros Hm Hk. by eapply sync_bind. Qed.

Lemma sync_conseq {A} (P P' Q Q' : store → store → Prop) (m1 m2 : M A)
    (V V' : A → A → Prop) :
  (∀ σ1 σ2, P' σ1 σ2 → P σ1 σ2) →
  sync P Q m1 m2 V →
  (∀ σ1 σ2, Q σ1 σ2 → Q' σ1 σ2) →
  (∀ a1 a2, V a1 a2 → V' a1 a2) →
  sync P' Q' m1 m2 V'.
Proof.
  intros HP Hm HQ HV σ1 σ2 H. destruct (Hm σ1 σ2 (HP _ _ H)) as [H1 H2].
  split; [by apply HQ |].
  destruct (m1 σ1).1, (m2 σ2).1; cbn in *; try done. by apply HV.
Qed.

Lemma sync_try {A} P R Q (m1 m2 h1 h2 : M A) e V :
  sync P R m1 m2 V →
  (∀ σ1 σ2, R σ1 σ2 → Q σ1 σ2) →
  sync R Q h1 h2 V →
  sync P Q (try_except m1 e h1) (try_except m2 e h2) V.
Proof.
  intros Hm HRQ Hh σ1 σ2 HP. specialize (Hm σ1 σ2 HP). unfold try_except.
  destruct (m1 σ1) as [[a1 | e1] σ1'], (m2 σ2) as [[a2 | e2] σ2'];
    cbn in Hm; destruct Hm as [HR HV]; try done.
  - split; [by apply HRQ | done].
  - subst e2. destruct (decide (e1 = e)); [by apply Hh |].
    split; [by apply HRQ | done].
Qed.

Lemma sync_for_each {A} I (body1 body2 : A → M unit) l :
  (∀ x, sync I I (body1 x) (body2 x) (λ _ _, True)) →
  sync I I (for_each body1 l) (for_each body2 l) (λ _ _, True).
Proof.
  intros Hbody. induction l as [| x l IH]; cbn [for_each].
  - by apply sync_ret.
  - eapply sync_seq; [apply Hbody | intros _ _ _; apply IH].
Qed.

Lemma sync_steady {A} I (m : M A) : steady m → sync I I m m eq.
Proof.
  intros [r Hr] σ1 σ2 HI. rewrite !Hr. split; [done |]. by destruct r.
Qed.

Ltac solve_steady :=
  unfold json_loads, subscript, has_key, path_text, int_value, fs_cat,
    fs_read_table;
  repeat case_match; eexists; intros ?; reflexivity.

Lemma steady_json_loads s : steady (json_loads s).
Proof. solve_steady. Qed.
Lemma steady_subscript v k : steady (subscript v k).
Proof. solve_steady. Qed.
Lemma steady_has_key v k : steady (has_key v k).
Proof. solve_steady. Qed.
Lemma steady_path_text v : steady (path_text v).
Proof. solve_steady. Qed.
Lemma steady_int_value v : steady (int_value v).
Proof. solve_steady. Qed.
Lemma steady_fs_cat (fs : filesystem) p : steady (fs_cat fs p).
Proof. solve_steady. Qed.
Lemma steady_fs_read_table (fs : filesystem) p : steady (fs_read_table fs p).
Proof. solve_steady. Qed.

Lemma sync_get_table b of1 of2 l1 l2 :
  sync (agree_on b of1 of2 l1 l2) (agree_on b of1 of2 l1 l2)
    (get_table l1) (get_table l2) (λ t1 t2, path t1 = path t2).
Proof.
  intros σ1 σ2 HI. pose proof HI as (t1 & t2 & H1 & H2 & Hp & _).
  by rewrite (run_get_table _ _ _ H1), (run_get_table _ _ _ H2).
Qed.

Lemma sync_getattr_files b of1 of2 l1 l2 :
  sync (agree_on b of1 of2 l1 l2) (agree_on b of1 of2 l1 l2)
    (getattr l1 files) (getattr l2 files)
    (λ f1 f2, of1 = Some f1 ∧ of2 = Some f2).
Proof.
  intros σ1 σ2 HI. pose proof HI as (t1 & t2 & H1 & H2 & _ & _ & _ & Hf1 & Hf2 & Hs).
  destruct of1 as [f1 |], of2 as [f2 |]; try done.
  - by rewrite (run_getattr _ files _ _ _ H1 Hf1), (run_getattr _ files _ _ _ H2 Hf2).
  - by rewrite (run_getattr_unset _ files _ _ H1 Hf1),
      (run_getattr_unset _ files _ _ H2 Hf2).
Qed.

Lemma sync_getattr_checkpoint b of1 of2 l1 l2 :
  sync (agree_on b of1 of2 l1 l2) (agree_on b of1 of2 l1 l2)
    (getattr l1 checkpoint) (getattr l2 checkpoint) eq.
Proof.
  intros σ1 σ2 HI. pose proof HI as (t1 & t2 & H1 & H2 & _ & _ & Hc & _).
  destruct (checkpoint t2) as [c |] eqn:Hc2.
  - by rewrite (run_getattr _ checkpoint _ _ _ H1 Hc),
      (run_getattr _ checkpoint _ _ _ H2 Hc2).
  - by rewrite (run_getattr_unset _ checkpoint _ _ H1 Hc),
      (run_getattr_unset _ checkpoint _ _ H2 Hc2).
Qed.

Lemma sync_getattr_version of1 of2 l1 l2 :
  sync (agree_on true of1 of2 l1 l2) (agree_on true of1 of2 l1 l2)
    (getattr l1 version) (getattr l2 version) eq.
Proof.
  intros σ1 σ2 HI. pose proof HI as (t1 & t2 & H1 & H2 & _ & Hv & _).
  specialize (Hv eq_refl).
  destruct (version t2) as [v |] eqn:Hv2.
  - by rewrite (run_getattr _ version _ _ _ H1 Hv),
      (run_getattr _ version _ _ _ H2 Hv2).
  - by rewrite (run_getattr_unset _ version _ _ H1 Hv),
      (run_getattr_unset _ version _ _ H2 Hv2).
Qed.

Lemma sync_set_version b of1 of2 l1 l2 v :
  sync (agree_on b of1 of2 l1 l2) (agree_on true of1 of2 l1 l2)
    (setattr l1 (set_version v)) (setattr l2 (set_version v)) (λ _ _, True).
Proof.
  intros σ1 σ2 (t1 & t2 & H1 & H2 & Hp & _ & Hc & Hf1 & Hf2 & Hs).
  rewrite (run_setattr _ _ _ _ H1), (run_setattr _ _ _ _ H2). cbn [fst snd].
  split; [| done]. exists (set_version v t1), (set_version v t2).
  cbn [tables sets]. rewrite !lookup_table_insert. done.
Qed.

Lemma sync_set_dataset b of1 of2 l1 l2 d :
  sync (agree_on b of1 of2 l1 l2) (agree_on b of1 of2 l1 l2)
    (setattr l1 (set_pyarrow_dataset d)) (setattr l2 (set_pyarrow_dataset d))
    (λ _ _, True).
Proof.
  intros σ1 σ2 (t1 & t2 & H1 & H2 & Hp & Hv & Hc & Hf1 & Hf2 & Hs).
  rewrite (run_setattr _ _ _ _ H1), (run_setattr _ _ _ _ H2). cbn [fst snd].
  split; [| done]. exists (set_pyarrow_dataset d t1), (set_pyarrow_dataset d t2).
  cbn [tables sets]. rewrite !lookup_table_insert. done.
Qed.

Lemma agree_on_weaken b of1 of2 l1 l2 σ1 σ2 :
  agree_on true of1 of2 l1 l2 σ1 σ2 → agree_on b of1 of2 l1 l2 σ1 σ2.
Proof.
  intros (t1 & t2 & H1 & H2 & Hp & Hv & Hc & Hf1 & Hf2 & Hs). exists t1, t2.
  split_and!; try done. intros _. by apply Hv.
Qed.

Lemma sync_get_set b f1 f2 l1 l2 :
  sync (agree_on b (Some f1) (Some f2) l1 l2) (agree_on b (Some f1) (Some f2) l1 l2)
    (get_set f1) (get_set f2) eq.
Proof.
  intros σ1 σ2 HI.
  pose proof HI as (t1 & t2 & _ & _ & _ & _ & _ & _ & _ & s & Hs1 & Hs2).
  by rewrite (run_get_set _ _ _ Hs1), (run_get_set _ _ _ Hs2).
Qed.

Lemma sync_put_set b f1 f2 l1 l2 s :
  sync (agree_on b (Some f1) (Some f2) l1 l2) (agree_on b (Some f1) (Some f2) l1 l2)
    (put_set f1 s) (put_set f2 s) (λ _ _, True).
Proof.
  intros σ1 σ2 (t1 & t2 & H1 & H2 & Hp & Hv & Hc & Hf1 & Hf2 & _).
  unfold put_set. cbn [fst snd]. split; [| done]. exists t1, t2.
  cbn [tables sets]. split_and!; try done.
  exists s. by rewrite !lookup_set_insert.
Qed.

Lemma sync_set_add b f1 f2 l1 l2 x :
  sync (agree_on b (Some f1) (Some f2) l1 l2) (agree_on b (Some f1) (Some f2) l1 l2)
    (set_add f1 x) (set_add f2 x) (λ _ _, True).
Proof.
  unfold set_add. eapply sync_seq; [apply sync_get_set |].
  intros s ? <-. apply sync_put_set.
Qed.

Lemma sync_set_contains b f1 f2 l1 l2 x :
  sync (agree_on b (Some f1) (Some f2) l1 l2) (agree_on b (Some f1) (Some f2) l1 l2)
    (set_contains f1 x) (set_contains f2 x) eq.
Proof.
  unfold set_contains. eapply sync_seq; [apply sync_get_set |].
  intros s ? <-. by apply sync_ret.
Qed.

Lemma sync_set_remove b f1 f2 l1 l2 x :
  sync (agree_on b (Some f1) (Some f2) l1 l2) (agree_on b (Some f1) (Some f2) l1 l2)
    (set_remove f1 x) (set_remove f2 x) (λ _ _, True).
Proof.
  unfold set_remove. eapply sync_seq; [apply sync_get_set |].
  intros s ? <-. case_bool_decide; [apply sync_put_set | apply sync_raise].
Qed.

Lemma sync_in_files b f1 f2 l1 l2 v :
  sync (agree_on b (Some f1) (Some f2) l1 l2) (agree_on b (Some f1) (Some f2) l1 l2)
    (in_files f1 v) (in_files f2 v) eq.
Proof.
  destruct v; cbn [in_files];
    try (eapply sync_seq; [apply sync_get_set | intros ? ? _; by apply sync_ret]);
    try apply sync_raise.
  apply sync_set_contains.
Qed.

Lemma sync_apply_log_line b of1 of2 l1 l2 line :
  sync (agree_on b of1 of2 l1 l2) (agree_on b of1 of2 l1 l2)
    (apply_log_line l1 line) (apply_log_line l2 line) (λ _ _, True).
Proof.
  unfold apply_log_line.
  eapply sync_seq; [apply sync_steady, steady_json_loads |]. intros meta_data ? <-.
  eapply sync_seq; [apply sync_steady, steady_has_key |]. intros has_add ? <-.
  eapply (sync_seq _ _ _ _ _ (λ _ _, True)).
  { destruct has_add; [| by apply sync_ret].
    eapply sync_seq; [apply sync_getattr_files |]. intros f1 f2 [-> ->].
    eapply sync_seq; [apply sync_get_table |]. intros t1 t2 Hp.
    eapply sync_seq; [apply sync_steady, steady_subscript |]. intros a ? <-.
    eapply sync_seq; [apply sync_steady, steady_subscript |]. intros p ? <-.
    eapply sync_seq; [apply sync_steady, steady_path_text |]. intros name ? <-.
    rewrite Hp. apply sync_set_add. }
  intros _ _ _.
  eapply sync_seq; [apply sync_steady, steady_has_key |]. intros has_remove ? <-.
  destruct has_remove; [| by apply sync_ret].
  eapply sync_seq; [apply sync_steady, steady_subscript |]. intros r ? <-.
  eapply sync_seq; [apply sync_steady, steady_subscript |]. intros remove_file ? <-.
  eapply sync_seq; [apply sync_getattr_files |]. intros f1 f2 [-> ->].
  eapply sync_seq; [apply sync_in_files |]. intros present ? <-.
  destruct present; [| by apply sync_ret].
  eapply sync_seq; [apply sync_getattr_files |]. intros f1' f2' [[= <-] [= <-]].
  eapply sync_seq; [apply sync_get_table |]. intros t1 t2 Hp.
  eapply sync_seq; [apply sync_steady, steady_path_text |]. intros name ? <-.
  rewrite Hp. apply sync_set_remove.
Qed.

Lemma sync_apply_checkpoint_row b of1 of2 l1 l2 row :
  sync (agree_on b of1 of2 l1 l2) (agree_on b of1 of2 l1 l2)
    (apply_checkpoint_row l1 row) (apply_checkpoint_row l2 row) (λ _ _, True).
Proof.
  unfold apply_checkpoint_row. destruct (row_add row) as [added |];
    [| by apply sync_ret].
  destruct (String.eqb added ""); [by apply sync_ret |].
  eapply sync_seq; [apply sync_getattr_files |]. intros f1 f2 [-> ->].
  eapply sync_seq; [apply sync_get_table |]. intros t1 t2 Hp.
  rewrite Hp. apply sync_set_add.
Qed.

Lemma sync_apply_log_files (fs : filesystem) target log_files :
  ∀ b of1 of2 l1 l2,
    sync (agree_on b of1 of2 l1 l2) (agree_on b of1 of2 l1 l2)
      (apply_log_files fs l1 target log_files)
      (apply_log_files fs l2 target log_files) (λ _ _, True).
Proof.
  induction log_files as [| f rest IH]; intros b of1 of2 l1 l2;
    cbn [apply_log_files]; [by apply sync_ret |].
  eapply (sync_seq _ _ _ _ _ eq).
  { destruct (first_digits20 f); [by apply sync_ret | apply sync_raise]. }
  intros d ? <-.
  eapply sync_bind; [apply sync_set_version | apply agree_on_weaken |].
  intros _ _ _.
  eapply (sync_conseq (agree_on true of1 of2 l1 l2) _
            (agree_on true of1 of2 l1 l2) _ _ _ (λ _ _, True));
    [done | | apply agree_on_weaken | done].
  eapply sync_seq; [apply sync_steady, steady_fs_cat |]. intros log ? <-.
  eapply sync_seq; [apply sync_for_each; intros line; apply sync_apply_log_line |].
  intros _ _ _.
  eapply sync_seq; [apply sync_getattr_version |]. intros v ? <-.
  destruct (v =? target); [by apply sync_ret | apply IH].
Qed.

Lemma sync_apply_partial_logs (fs : filesystem) target b of1 of2 l1 l2 :
  sync (agree_on b of1 of2 l1 l2) (agree_on b of1 of2 l1 l2)
    (_apply_partial_logs fs l1 target) (_apply_partial_logs fs l2 target)
    (λ _ _, True).
Proof.
  unfold _apply_partial_logs.
  eapply sync_seq; [apply sync_get_table |]. intros t1 t2 Hp.
  eapply sync_seq; [apply sync_getattr_checkpoint |]. intros c ? <-.
  rewrite Hp. apply sync_apply_log_files.
Qed.

Lemma sync_rebuild_dataset b of1 of2 l1 l2 :
  sync (agree_on b of1 of2 l1 l2) (agree_on b of1 of2 l1 l2)
    (rebuild_dataset l1) (rebuild_dataset l2) (λ _ _, True).
Proof.
  unfold rebuild_dataset.
  eapply sync_seq; [apply sync_getattr_files |]. intros f1 f2 [-> ->].
  eapply sync_seq; [apply sync_get_set |]. intros s ? <-.
  apply sync_set_dataset.
Qed.

(** From two instances of the same root, [_apply_from_checkpoint] leaves
    two instances that agree, each with a file set. *)
Lemma sync_apply_from_checkpoint (fs : filesystem) c b l1 l2 :
  sync (same_root b l1 l2)
    (λ σ1 σ2, ∃ f1 f2, agree_on b (Some f1) (Some f2) l1 l2 σ1 σ2)
    (_apply_from_checkpoint fs l1 c) (_apply_from_checkpoint fs l2 c)
    (λ _ _, True).
Proof.
  intros σ1 σ2 (t1 & t2 & H1 & H2 & Hp & Hv).
  rewrite (run_apply_from_checkpoint fs l1 σ1 t1 c H1),
    (run_apply_from_checkpoint fs l2 σ2 t2 c H2).
  cbn zeta.
  set (f1 := fresh (dom (sets σ1))). set (f2 := fresh (dom (sets σ2))).
  set (σ1' := mkStore _ _). set (σ2' := mkStore _ _).
  assert (HI : agree_on b (Some f1) (Some f2) l1 l2 σ1' σ2').
  { exists (set_checkpoint c (set_files f1 t1)), (set_checkpoint c (set_files f2 t2)).
    unfold σ1', σ2'. cbn [tables sets]. rewrite !lookup_table_insert.
    split_and!; try done. exists ∅. by rewrite !lookup_set_insert. }
  destruct (c =? 0).
  { split; [by exists f1, f2 | done]. }
  rewrite Hp.
  assert (Hrest : sync (agree_on b (Some f1) (Some f2) l1 l2)
            (agree_on b (Some f1) (Some f2) l1 l2)
            (bind (fs_read_table fs (checkpoint_path (path t2) c))
               (for_each (apply_checkpoint_row l1)))
            (bind (fs_read_table fs (checkpoint_path (path t2) c))
               (for_each (apply_checkpoint_row l2)))
            (λ _ _, True)).
  { eapply sync_seq; [apply sync_steady, steady_fs_read_table |].
    intros rows ? <-. apply sync_for_each. intros row.
    apply sync_apply_checkpoint_row. }
  destruct (Hrest σ1' σ2' HI) as [HI' Hr]. split; [by exists f1, f2 | done].
Qed.


Lemma agree_on_reads b of1 of2 l1 l2 σ1 σ2 :
  agree_on b of1 of2 l1 l2 σ1 σ2 →
  files_of σ1 l1 = files_of σ2 l2
  ∧ checkpoint_of σ1 l1 = checkpoint_of σ2 l2
  ∧ (b = true → version_of σ1 l1 = version_of σ2 l2).
Proof.
  intros (t1 & t2 & H1 & H2 & Hp & Hv & Hc & Hf1 & Hf2 & Hs).
  unfold files_of, checkpoint_of, version_of. rewrite H1, H2. cbn.
  rewrite Hf1, Hf2. split_and!; [| done | done].
  destruct of1, of2; try done. cbn. by destruct Hs as (s & -> & ->).
Qed.

Lemma sync_as_version (fs : filesystem) v b l1 l2 :
  sync (same_root b l1 l2)
    (λ σ1 σ2, ∃ f1 f2, agree_on b (Some f1) (Some f2) l1 l2 σ1 σ2)
    (as_version fs l1 v true) (as_version fs l2 v true)
    (λ a1 a2, a1 = l1 ∧ a2 = l2).
Proof.
  unfold as_version.
  eapply sync_bind; [apply sync_apply_from_checkpoint | done |].
  intros _ _ _ σ1 σ2 (f1 & f2 & HI).
  assert (Hrest : sync (agree_on b (Some f1) (Some f2) l1 l2)
            (agree_on b (Some f1) (Some f2) l1 l2)
            (bind (_apply_partial_logs fs l1 v)
               (λ _, bind (rebuild_dataset l1) (λ _, ret l1)))
            (bind (_apply_partial_logs fs l2 v)
               (λ _, bind (rebuild_dataset l2) (λ _, ret l2)))
            (λ a1 a2, a1 = l1 ∧ a2 = l2)).
  { eapply sync_seq; [apply sync_apply_partial_logs |]. intros _ _ _.
    eapply sync_seq; [apply sync_rebuild_dataset |]. intros _ _ _.
    by apply sync_ret. }
  destruct (Hrest σ1 σ2 HI) as [HI' Hr]. split; [by exists f1, f2 | done].
Qed.

(** After [rebuild_dataset] has returned, the dataset view is the one
    over the file set. *)
Lemma rebuild_dataset_publishes self σ σ' :
  rebuild_dataset self σ = (Return tt, σ') →
  ∃ s, files_of σ' self = Some s ∧ dataset_view σ' self = Some (dataset_of s).
Proof.
  unfold rebuild_dataset, getattr, get_table, bind at 1 2.
  destruct (tables σ !! self) as [t |] eqn:Ht; [| done].
  destruct (files t) as [fl |] eqn:Hf; [| done]. cbn [ret].
  unfold bind, get_set. destruct (sets σ !! fl) as [s |] eqn:Hs; [| done].
  unfold setattr. rewrite Ht. intros [= <-]. exists s.
  unfold files_of, dataset_view. cbn [tables sets].
  rewrite lookup_table_insert. cbn. by rewrite Hf.
Qed.

Lemma as_version_publishes (fs : filesystem) self v σ a :
  (as_version fs self v true σ).1 = Return a →
  ∃ s, files_of (as_version fs self v true σ).2 self = Some s
       ∧ dataset_view (as_version fs self v true σ).2 self = Some (dataset_of s).
Proof.
  destruct (as_version fs self v true σ) as [r σ'] eqn:Hrun. cbn [fst snd].
  intros ->.
  by destruct (as_version_inplace_publishes fs self v σ a σ' Hrun) as [_ H].
Qed.

(** X20. What an in-place [as_version(v)] leaves depends on the table
    only, not on what the instance held before: on two instances of the
    same root, in any two stores, both calls return or both raise the same
    exception, and they leave the same file set and the same [checkpoint];
    the same [version] too if the two instances had the same [version]
    before, and the same dataset view when they return. *)
Theorem as_version_depends_on_table_only (fs : filesystem) v l1 l2 σ1 σ2 t1 t2 :
  tables σ1 !! l1 = Some t1 → tables σ2 !! l2 = Some t2 → path t1 = path t2 →
  let r1 := as_version fs l1 v true σ1 in
  let r2 := as_version fs l2 v true σ2 in
  alike (λ a1 a2, a1 = l1 ∧ a2 = l2) r1.1 r2.1
  ∧ files_of r1.2 l1 = files_of r2.2 l2
  ∧ checkpoint_of r1.2 l1 = checkpoint_of r2.2 l2
  ∧ (version t1 = version t2 → version_of r1.2 l1 = version_of r2.2 l2)
  ∧ (∀ a, r1.1 = Return a → dataset_view r1.2 l1 = dataset_view r2.2 l2).
Proof.
  intros H1 H2 Hp. cbn zeta.
  assert (Hroot : ∀ b, (b = true → version t1 = version t2) →
            same_root b l1 l2 σ1 σ2) by (intros b Hb; by exists t1, t2).
  destruct (sync_as_version fs v false l1 l2 σ1 σ2 (Hroot false ltac:(done)))
    as [(f1 & f2 & HI) Hr].
  destruct (agree_on_reads _ _ _ _ _ _ _ HI) as (Hfiles & Hcheckpoint & _).
  split_and!; [done | done | done | |].
  - intros Hv.
    destruct (sync_as_version fs v true l1 l2 σ1 σ2 (Hroot true (λ _, Hv)))
      as [(f1' & f2' & HI') _].
    destruct (agree_on_reads _ _ _ _ _ _ _ HI') as (_ & _ & Hversion).
    by apply Hversion.
  - intros a Ha.
    destruct (as_version_publishes fs l1 v σ1 a Ha) as (s & Hs & ->).
    rewrite Ha in Hr.
    destruct (as_version fs l2 v true σ2).1 as [a2 |] eqn:Ha2; [| done].
    destruct (as_version_publishes fs l2 v σ2 a2 Ha2) as (s' & Hs' & ->).
    rewrite Hfiles, Hs' in Hs. by injection Hs as ->.
Qed.

Lemma as_version_depends_on_table_only_witness :
  let t1 := mkDeltaTable "tbl" None None None None in
  let t2 := mkDeltaTable "tbl" (Some 7%positive) (Some 3) (Some 5) (Some ["x"]) in
  let σ1 := mkStore {[ 1%positive := t1 ]} ∅ in
  let σ2 := mkStore {[ 2%positive := t2 ]} {[ 7%positive := {[ "junk" ]} ]} in
  let r1 := as_version checkpointed 1%positive 1 true σ1 in
  let r2 := as_version checkpointed 2%positive 1 true σ2 in
  alike (λ a1 a2, a1 = 1%positive ∧ a2 = 2%positive) r1.1 r2.1
  ∧ files_of r1.2 1%positive = files_of r2.2 2%positive
  ∧ checkpoint_of r1.2 1%positive = checkpoint_of r2.2 2%positive
  ∧ (version t1 = version t2 →
     version_of r1.2 1%positive = version_of r2.2 2%positive)
  ∧ (∀ a, r1.1 = Return a →
          dataset_view r1.2 1%positive = dataset_view r2.2 2%positive).
Proof.
  intros t1 t2 σ1 σ2.
  apply (as_version_depends_on_table_only checkpointed 1 1%positive 2%positive
           σ1 σ2 t1 t2); vm_compute; reflexivity.
Defined.


Lemma rooted_apply_log_files (fs : filesystem) self root target log_files :
  invariant (rooted self root) (apply_log_files fs self target log_files).
Proof.
  induction log_files as [| f rest IH]; cbn [apply_log_files]; [by intros σ |].
  apply invariant_bind. { destruct (first_digits20 f); by intros σ. }
  intros d. apply invariant_bind; [by apply rooted_setattr |]. intros _.
  apply invariant_bind;
    [apply rooted_keeps_tables, keeps_tables_reads, reads_fs_cat |].
  intros log. apply invariant_bind;
    [apply rooted_keeps_tables, keeps_tables_for_each, keeps_tables_apply_log_line |].
  intros _. apply invariant_bind;
    [apply rooted_keeps_tables, keeps_tables_reads, reads_getattr |].
  intros v. destruct (v =? target); [by intros σ | apply IH].
Qed.

Lemma rooted_as_version (fs : filesystem) self root v :
  invariant (rooted self root) (as_version fs self v true).
Proof.
  unfold as_version.
  apply invariant_bind; [apply rooted_apply_from_checkpoint |]. intros _.
  apply invariant_bind.
  { unfold _apply_partial_logs.
    apply invariant_bind;
      [apply rooted_keeps_tables, keeps_tables_reads, reads_get_table |].
    intros t. apply invariant_bind;
      [apply rooted_keeps_tables, keeps_tables_reads, reads_getattr |].
    intros c. apply rooted_apply_log_files. }
  intros _. apply invariant_bind; [| by intros _ σ].
  unfold rebuild_dataset.
  apply invariant_bind;
    [apply rooted_keeps_tables, keeps_tables_reads, reads_getattr |].
  intros fl. apply invariant_bind;
    [apply rooted_keeps_tables, keeps_tables_reads, reads_get_set |].
  intros s. by apply rooted_setattr.
Qed.

Lemma stop_version_again target log_files v0 :
  stop_version target log_files (stop_version target log_files v0)
  = stop_version target log_files v0.
Proof.
  destruct log_files as [| f rest]; [done |]. cbn [stop_version].
  by destruct (first_digits20 f).
Qed.

(** X21. Resolving the same version twice in place changes nothing the
    second time: the second call has the outcome of the first and leaves
    the same file set and [checkpoint], and, when the first call returned,
    the same [version] and dataset view. *)
Theorem as_version_twice (fs : filesystem) self v σ t :
  tables σ !! self = Some t →
  let r := as_version fs self v true σ in
  let r' := as_version fs self v true r.2 in
  alike (λ a a', a = self ∧ a' = self) r.1 r'.1
  ∧ files_of r'.2 self = files_of r.2 self
  ∧ checkpoint_of r'.2 self = checkpoint_of r.2 self
  ∧ (∀ a, r.1 = Return a →
          version_of r'.2 self = version_of r.2 self
          ∧ dataset_view r'.2 self = dataset_view r.2 self).
Proof.
  intros Ht. cbn zeta.
  destruct (rooted_as_version fs self (path t) v σ) as (t' & Ht' & Hp');
    [by exists t |].
  assert (HR : same_root false self self σ (as_version fs self v true σ).2)
    by (by exists t, t').
  destruct (sync_as_version fs v false self self _ _ HR) as [(f1 & f2 & HI) Hr].
  destruct (agree_on_reads _ _ _ _ _ _ _ HI) as (Hfiles & Hcheckpoint & _).
  split_and!; [done | done | done |]. intros a Ha.
  destruct (as_version_publishes fs self v σ a Ha) as (s & Hs & Hd).
  destruct (as_version fs self v true σ) as [r σ'] eqn:Hrun.
  cbn [fst snd] in *. subst r.
  destruct (as_version fs self v true σ') as [r2 σ''] eqn:Hrun2.
  cbn [fst snd] in *. destruct r2 as [a2 |]; [| done].
  destruct (as_version_version fs self v σ t a σ' Ht Hrun) as [_ Hv1].
  destruct (as_version_version fs self v σ' t' a2 σ'' Ht' Hrun2) as [_ Hv2].
  split.
  - rewrite Hv2, Hp', Hv1.
    replace (version t') with (version_of σ' self)
      by (unfold version_of; by rewrite Ht').
    rewrite Hv1. apply stop_version_again.
  - pose proof (as_version_publishes fs self v σ' a2) as Hpub.
    rewrite Hrun2 in Hpub. cbn [fst snd] in Hpub.
    destruct (Hpub eq_refl) as (s' & Hs' & ->).
    rewrite Hd. rewrite <- Hfiles, Hs in Hs'. by injection Hs' as ->.
Qed.

Lemma as_version_twice_witness :
  let t := mkDeltaTable "tbl" None None None None in
  let σ := mkStore {[ 1%positive := t ]} ∅ in
  let r := as_version checkpointed 1%positive 1 true σ in
  let r' := as_version checkpointed 1%positive 1 true r.2 in
  alike (λ a a', a = 1%positive ∧ a' = 1%positive) r.1 r'.1
  ∧ files_of r'.2 1%positive = files_of r.2 1%positive
  ∧ checkpoint_of r'.2 1%positive = checkpoint_of r.2 1%positive
  ∧ (∀ a, r.1 = Return a →
          version_of r'.2 1%positive = version_of r.2 1%positive
          ∧ dataset_view r'.2 1%positive = dataset_view r.2 1%positive).
Proof.
  intros t σ.
  apply (as_version_twice checkpointed 1%positive 1 σ t). vm_compute. reflexivity.
Defined.

(** X22. The two modes of [as_version] resolve the same snapshot: when
    [as_version(v, inplace=False)] returns a new instance, that instance
    has the file set, the [version] and the [checkpoint] that the in-place
    call from the same store leaves in the instance it is called on. *)
Theorem as_version_modes_agree (fs : filesystem) self v σ new :
  let a := as_version fs self v true σ in
  let c := as_version fs self v false σ in
  c.1 = Return new →
  files_of c.2 new = files_of a.2 self
  ∧ version_of c.2 new = version_of a.2 self
  ∧ checkpoint_of c.2 new = checkpoint_of a.2 self.
Proof.
  cbn zeta. unfold as_version.
  destruct (tables σ !! self) as [t |] eqn:Ht.
  2: { rewrite (run_bind_raise _ _ σ OutsideModel σ); [done |].
       unfold deepcopy. apply run_bind_raise. unfold get_table. by rewrite Ht. }
  destruct (deepcopy_outcome self σ t Ht)
    as [(me & σc & t' & Hcopy & Ht' & Hp & Hv) | [σc Hcopy]].
  2: { by rewrite (run_bind_raise _ _ _ _ _ Hcopy). }
  rewrite (run_bind_return _ _ _ _ _ Hcopy).
  assert (HR : same_root true self me σ σc) by (by exists t, t').
  destruct (sync_apply_from_checkpoint fs (v / 10) true self me σ σc HR)
    as [(f1 & f2 & HI) Hr].
  destruct (_apply_from_checkpoint fs self (v / 10) σ) as [[[] | e1] σ1] eqn:Ha1,
    (_apply_from_checkpoint fs me (v / 10) σc) as [[[] | e2] σ2] eqn:Ha2;
    cbn [fst snd] in *; try done.
  2: { by rewrite (run_bind_raise _ _ _ _ _ Ha2). }
  rewrite (run_bind_return _ _ _ _ _ Ha1), (run_bind_return _ _ _ _ _ Ha2).
  destruct (sync_apply_partial_logs fs v true _ _ self me σ1 σ2 HI) as [HI2 Hr2].
  destruct (_apply_partial_logs fs self v σ1) as [[[] | e1] σ1'] eqn:Hb1,
    (_apply_partial_logs fs me v σ2) as [[[] | e2] σ2'] eqn:Hb2;
    cbn [fst snd] in *; try done.
  2: { by rewrite (run_bind_raise _ _ _ _ _ Hb2). }
  rewrite (run_bind_return _ _ _ _ _ Hb1), (run_bind_return _ _ _ _ _ Hb2).
  cbn [ret fst snd]. intros [= <-].
  destruct HI2 as (t1 & t2 & H1 & H2 & _ & Hversion & Hcheckpoint & Hf1 & Hf2
                   & s & Hs1 & Hs2).
  rewrite (run_bind_return _ _ _ _ _ (run_rebuild_dataset _ _ _ _ _ H1 Hf1 Hs1)).
  cbn [ret fst snd].
  unfold files_of, version_of, checkpoint_of. cbn [tables sets].
  rewrite lookup_table_insert, H2. cbn. rewrite Hf1, Hf2. cbn.
  rewrite Hs1, Hs2, Hcheckpoint, (Hversion eq_refl). done.
Qed.

Lemma as_version_modes_agree_witness :
  let t := mkDeltaTable "tbl" None None None None in
  let σ := mkStore {[ 1%positive := t ]} ∅ in
  let a := as_version checkpointed 1%positive 1 true σ in
  let c := as_version checkpointed 1%positive 1 false σ in
  files_of c.2 2%positive = files_of a.2 1%positive
  ∧ version_of c.2 2%positive = version_of a.2 1%positive
  ∧ checkpoint_of c.2 2%positive = checkpoint_of a.2 1%positive.
Proof.
  intros t σ.
  apply (as_version_modes_agree checkpointed 1%positive 1 σ 2%positive).
  vm_compute. reflexivity.
Defined.

(** *** Opening the same table twice *)

Lemma sync_agree {A} b l1 l2 (m1 m2 : M A) V :
  (∀ of1 of2, sync (agree_on b of1 of2 l1 l2) (agree_on b of1 of2 l1 l2) m1 m2 V) →
  sync (agree b l1 l2) (agree b l1 l2) m1 m2 V.
Proof.
  intros Hm σ1 σ2 (of1 & of2 & HI). destruct (Hm of1 of2 σ1 σ2 HI) as [HI' Hr].
  split; [by exists of1, of2 | done].
Qed.

Lemma agree_same_root b l1 l2 σ1 σ2 : agree b l1 l2 σ1 σ2 → same_root b l1 l2 σ1 σ2.
Proof.
  intros (of1 & of2 & t1 & t2 & H1 & H2 & Hp & Hv & _). by exists t1, t2.
Qed.

Lemma sync_as_newest_version (fs : filesystem) b l1 l2 :
  sync (agree b l1 l2) (agree b l1 l2)
    (_as_newest_version fs l1) (_as_newest_version fs l2) (λ _ _, True).
Proof.
  unfold _as_newest_version. eapply (sync_seq _ _ _ _ _ (λ _ _, True)).
  { eapply sync_try; [| done | by apply sync_ret].
    eapply sync_seq; [apply sync_agree; intros; apply sync_get_table |].
    intros t1 t2 Hp. rewrite Hp.
    eapply sync_seq; [apply sync_steady, steady_fs_cat |]. intros info ? <-.
    eapply sync_seq; [apply sync_steady, steady_json_loads |]. intros info' ? <-.
    eapply sync_seq; [apply sync_steady, steady_subscript |]. intros v ? <-.
    eapply sync_seq; [apply sync_steady, steady_int_value |]. intros c ? <-.
    eapply sync_conseq;
      [apply agree_same_root | apply sync_apply_from_checkpoint | | done].
    intros σ1 σ2 (f1 & f2 & HI). by exists (Some f1), (Some f2). }
  intros _ _ _.
  eapply sync_seq; [apply sync_agree; intros; apply sync_getattr_checkpoint |].
  intros c ? <-. apply sync_agree. intros. apply sync_apply_partial_logs.
Qed.

Lemma init_publishes (fs : filesystem) root σ self σ' :
  __init__ fs root σ = (Return self, σ') →
  ∃ s, files_of σ' self = Some s ∧ dataset_view σ' self = Some (dataset_of s).
Proof.
  unfold __init__. rewrite (run_bind_return _ _ _ _ _ (run_new_table _ σ)).
  set (me := fresh (dom (tables σ))). set (σ1 := mkStore _ _).
  destruct (_as_newest_version fs me σ1) as [[[] | e] σ2] eqn:Hrun.
  2: { by rewrite (run_bind_raise _ _ _ _ _ Hrun). }
  rewrite (run_bind_return _ _ _ _ _ Hrun).
  destruct (rebuild_dataset me σ2) as [[[] | e] σ3] eqn:Hbuild.
  2: { by rewrite (run_bind_raise _ _ _ _ _ Hbuild). }
  rewrite (run_bind_return _ _ _ _ _ Hbuild). intros [= <- <-].
  by apply rebuild_dataset_publishes in Hbuild.
Qed.

(** X23. Opening the same table from any two stores gives the same
    result: both constructors return or both raise the same exception, and
    the two instances returned have the same file set, [version],
    [checkpoint] and dataset view. *)
Theorem init_depends_on_table_only (fs : filesystem) root σ1 σ2 :
  let r1 := __init__ fs root σ1 in
  let r2 := __init__ fs root σ2 in
  alike (λ l1 l2,
           files_of r1.2 l1 = files_of r2.2 l2
           ∧ version_of r1.2 l1 = version_of r2.2 l2
           ∧ checkpoint_of r1.2 l1 = checkpoint_of r2.2 l2
           ∧ dataset_view r1.2 l1 = dataset_view r2.2 l2)
    r1.1 r2.1.
Proof.
  cbn zeta.
  pose proof (init_publishes fs root σ1) as Hpub1.
  pose proof (init_publishes fs root σ2) as Hpub2.
  unfold __init__ in *.
  rewrite (run_bind_return _ _ _ _ _ (run_new_table _ σ1)) in *.
  rewrite (run_bind_return _ _ _ _ _ (run_new_table _ σ2)) in *.
  set (l1 := fresh (dom (tables σ1))) in *. set (l2 := fresh (dom (tables σ2))) in *.
  set (σ1' := mkStore (<[l1 := _]> _) _) in *.
  set (σ2' := mkStore (<[l2 := _]> _) _) in *.
  assert (HI : agree true l1 l2 σ1' σ2').
  { exists None, None. do 2 eexists. unfold σ1', σ2'. cbn [tables].
    rewrite !lookup_table_insert. done. }
  assert (Hrest : sync (agree true l1 l2) (agree true l1 l2)
            (bind (_as_newest_version fs l1)
               (λ _, bind (rebuild_dataset l1) (λ _, ret l1)))
            (bind (_as_newest_version fs l2)
               (λ _, bind (rebuild_dataset l2) (λ _, ret l2)))
            (λ a1 a2, a1 = l1 ∧ a2 = l2)).
  { eapply sync_seq; [apply sync_as_newest_version |]. intros _ _ _.
    eapply sync_seq; [apply sync_agree; intros; apply sync_rebuild_dataset |].
    intros _ _ _. by apply sync_ret. }
  destruct (Hrest σ1' σ2' HI) as [(of1 & of2 & HI') Hr].
  destruct (agree_on_reads _ _ _ _ _ _ _ HI') as (Hfiles & Hcheckpoint & Hversion).
  destruct (bind (_as_newest_version fs l1) _ σ1') as [[a1 | e1] σ1''],
    (bind (_as_newest_version fs l2) _ σ2') as [[a2 | e2] σ2''];
    cbn [fst snd alike] in *; try done.
  destruct Hr as [-> ->].
  destruct (Hpub1 l1 σ1'' eq_refl) as (s1 & Hs1 & ->).
  destruct (Hpub2 l2 σ2'' eq_refl) as (s2 & Hs2 & ->).
  split_and!; [done | by apply Hversion | done |].
  rewrite Hfiles, Hs2 in Hs1. by injection Hs1 as ->.
Qed.


(** *** A log file without a version in its name *)

(** X26. When the first log file that the glob of the decade finds has
    no run of twenty digits in its path, [_apply_partial_logs] raises
    [IndexError] before it changes anything. *)
Theorem log_name_without_version_raises (fs : filesystem) self target σ t c f rest :
  tables σ !! self = Some t → checkpoint t = Some c →
  decade_log_files fs (path t) c = f :: rest →
  first_digits20 f = None →
  _apply_partial_logs fs self target σ = (Raise IndexError, σ).
Proof.
  intros Ht Hc Hfiles Hd. unfold _apply_partial_logs.
  rewrite (run_bind_return _ _ _ _ _ (run_get_table _ _ _ Ht)).
  rewrite (run_bind_return _ _ _ _ _ (run_getattr _ checkpoint _ _ _ Ht Hc)).
  rewrite Hfiles. cbn [apply_log_files]. by rewrite Hd.
Qed.

Lemma log_name_without_version_raises_witness :
  let t := mkDeltaTable "t" None None (Some 0) None in
  let σ := mkStore {[ 1%positive := t ]} ∅ in
  _apply_partial_logs short_name 1%positive 9 σ = (Raise IndexError, σ).
Proof.
  intros t σ.
  apply (log_name_without_version_raises short_name 1%positive 9 σ t 0
           "t/_delta_log/0000000000000000000.json" [log_path "t" 0]);
    vm_compute; reflexivity.
Defined.

(** *** The members of the file set *)

Section upholds.
Context (I : store → Prop).

Lemma upholds_ret {A} (a : A) (V : A → Prop) : V a → upholds I (ret a) V.
Proof. intros Ha σ Hσ. done. Qed.

Lemma upholds_raise {A} e (V : A → Prop) : upholds I (raise e) V.
Proof. intros σ Hσ. done. Qed.

Lemma upholds_bind {A B} (m : M A) (k : A → M B) (V : A → Prop) (W : B → Prop) :
  upholds I m V → (∀ a, V a → upholds I (k a) W) → upholds I (bind m k) W.
Proof.
  intros Hm Hk σ Hσ. specialize (Hm σ Hσ). unfold bind.
  destruct (m σ) as [[a | e] σ']; cbn in *.
  - destruct Hm as [Hσ' Ha]. by apply Hk.
  - done.
Qed.

Lemma upholds_reads {A} (m : M A) : reads m → upholds I m (λ _, True).
Proof.
  intros Hm σ Hσ. rewrite Hm. split; [done |]. by destruct (m σ).1.
Qed.

Lemma upholds_for_each {A} (body : A → M unit) (l : list A) :
  (∀ x, upholds I (body x) (λ _, True)) → upholds I (for_each body l) (λ _, True).
Proof.
  intros Hbody. induction l as [| x l IH]; cbn [for_each].
  - by apply upholds_ret.
  - eapply upholds_bind; [apply Hbody | intros _ _; apply IH].
Qed.

End upholds.

Section under.
Variables (fs : filesystem) (self : loc) (root : string) (fl : loc).

Lemma under_getattr_files :
  upholds (under self root fl) (getattr self files) (λ a, a = fl).
Proof.
  intros σ Hσ. pose proof Hσ as (t & s & Ht & Hp & Hf & _).
  by rewrite (run_getattr _ files _ _ _ Ht Hf).
Qed.

Lemma under_get_table :
  upholds (under self root fl) (get_table self) (λ t, path t = root).
Proof.
  intros σ Hσ. pose proof Hσ as (t & s & Ht & Hp & _).
  by rewrite (run_get_table _ _ _ Ht).
Qed.

Lemma under_set_add name :
  upholds (under self root fl) (set_add fl (data_path root name)) (λ _, True).
Proof.
  intros σ (t & s & Ht & Hp & Hf & Hs & Hall). unfold set_add.
  rewrite (run_bind_return _ _ _ _ _ (run_get_set _ _ _ Hs)).
  unfold put_set. cbn [fst snd]. split; [| done].
  exists t, ({[data_path root name]} ∪ s). cbn [tables sets].
  rewrite lookup_set_insert. split_and!; try done.
  intros x [->%elem_of_singleton | Hx]%elem_of_union; [by exists name | by apply Hall].
Qed.

Lemma under_set_remove x :
  upholds (under self root fl) (set_remove fl x) (λ _, True).
Proof.
  intros σ (t & s & Ht & Hp & Hf & Hs & Hall). unfold set_remove.
  rewrite (run_bind_return _ _ _ _ _ (run_get_set _ _ _ Hs)).
  case_bool_decide; [| split; [by exists t, s | done]].
  unfold put_set. cbn [fst snd]. split; [| done].
  exists t, (s ∖ {[x]}). cbn [tables sets].
  rewrite lookup_set_insert. split_and!; try done.
  intros y [Hy _]%elem_of_difference. by apply Hall.
Qed.

Lemma under_setattr upd :
  (∀ t, path (upd t) = path t ∧ files (upd t) = files t) →
  upholds (under self root fl) (setattr self upd) (λ _, True).
Proof.
  intros Hupd σ (t & s & Ht & Hp & Hf & Hs & Hall).
  rewrite (run_setattr _ _ _ _ Ht). cbn [fst snd]. split; [| done].
  exists (upd t), s. cbn [tables sets]. rewrite lookup_table_insert.
  destruct (Hupd t) as [-> ->]. done.
Qed.

Lemma under_apply_log_line line :
  upholds (under self root fl) (apply_log_line self line) (λ _, True).
Proof.
  unfold apply_log_line.
  eapply upholds_bind; [apply upholds_reads, reads_json_loads |]. intros meta_data _.
  eapply upholds_bind; [apply upholds_reads, reads_has_key |]. intros has_add _.
  eapply (upholds_bind _ _ _ (λ _, True)).
  { destruct has_add; [| by apply upholds_ret].
    eapply upholds_bind; [apply under_getattr_files |]. intros ? ->.
    eapply upholds_bind; [apply under_get_table |]. intros t ->.
    eapply upholds_bind; [apply upholds_reads, reads_subscript |]. intros a _.
    eapply upholds_bind; [apply upholds_reads, reads_subscript |]. intros p _.
    eapply upholds_bind; [apply upholds_reads, reads_path_text |]. intros name _.
    apply under_set_add. }
  intros _ _.
  eapply upholds_bind; [apply upholds_reads, reads_has_key |]. intros has_remove _.
  destruct has_remove; [| by apply upholds_ret].
  eapply upholds_bind; [apply upholds_reads, reads_subscript |]. intros r _.
  eapply upholds_bind; [apply upholds_reads, reads_subscript |]. intros remove_file _.
  eapply upholds_bind; [apply under_getattr_files |]. intros ? ->.
  eapply upholds_bind; [apply upholds_reads, reads_in_files |]. intros present _.
  destruct present; [| by apply upholds_ret].
  eapply upholds_bind; [apply under_getattr_files |]. intros ? ->.
  eapply upholds_bind; [apply under_get_table |]. intros t _.
  eapply upholds_bind; [apply upholds_reads, reads_path_text |]. intros name _.
  apply under_set_remove.
Qed.

Lemma under_apply_checkpoint_row row :
  upholds (under self root fl) (apply_checkpoint_row self row) (λ _, True).
Proof.
  unfold apply_checkpoint_row. destruct (row_add row) as [added |];
    [| by apply upholds_ret].
  destruct (String.eqb added ""); [by apply upholds_ret |].
  eapply upholds_bind; [apply under_getattr_files |]. intros ? ->.
  eapply upholds_bind; [apply under_get_table |]. intros t ->.
  apply under_set_add.
Qed.

Lemma under_apply_log_files target log_files :
  upholds (under self root fl) (apply_log_files fs self target log_files) (λ _, True).
Proof.
  induction log_files as [| f rest IH]; cbn [apply_log_files];
    [by apply upholds_ret |].
  eapply (upholds_bind _ _ _ (λ _, True)).
  { destruct (first_digits20 f); [by apply upholds_ret | apply upholds_raise]. }
  intros d _. eapply upholds_bind; [by apply under_setattr |].
  intros _ _. eapply upholds_bind; [apply upholds_reads, reads_fs_cat |].
  intros log _. eapply upholds_bind;
    [apply upholds_for_each, under_apply_log_line |].
  intros _ _. eapply upholds_bind; [apply upholds_reads, reads_getattr |].
  intros v _. destruct (v =? target); [by apply upholds_ret | apply IH].
Qed.

Lemma under_as_version_rest v :
  upholds (under self root fl)
    (bind (_apply_partial_logs fs self v)
       (λ _, bind (rebuild_dataset self) (λ _, ret self)))
    (λ _, True).
Proof.
  eapply upholds_bind.
  { unfold _apply_partial_logs.
    eapply upholds_bind; [apply upholds_reads, reads_get_table |]. intros t _.
    eapply upholds_bind; [apply upholds_reads, reads_getattr |]. intros c _.
    apply under_apply_log_files. }
  intros _ _. eapply upholds_bind; [| intros _ _; by apply upholds_ret].
  unfold rebuild_dataset.
  eapply upholds_bind; [apply under_getattr_files |]. intros ? ->.
  eapply upholds_bind; [apply upholds_reads, reads_get_set |]. intros s _.
  by apply under_setattr.
Qed.

End under.

(** X27. Whether an in-place [as_version(v)] returns or raises, every
    member of the file set it leaves is a path under the table root: the
    root, a slash, and a path. *)
Theorem resolved_files_are_under_root (fs : filesystem) self v σ t s x :
  tables σ !! self = Some t →
  files_of (as_version fs self v true σ).2 self = Some s →
  x ∈ s →
  ∃ p, x = data_path (path t) p.
Proof.
  intros Ht. unfold as_version.
  set (fl := fresh (dom (sets σ))).
  assert (Hfrom : under self (path t) fl (_apply_from_checkpoint fs self (v / 10) σ).2).
  { rewrite (run_apply_from_checkpoint fs self σ t (v / 10) Ht). cbn zeta.
    fold fl. set (σ1 := mkStore _ _).
    assert (H1 : under self (path t) fl σ1).
    { exists (set_checkpoint (v / 10) (set_files fl t)), ∅. unfold σ1.
      cbn [tables sets]. rewrite lookup_table_insert, lookup_set_insert.
      split_and!; done. }
    destruct (v / 10 =? 0); [done |].
    assert (Hrest : upholds (under self (path t) fl)
              (bind (fs_read_table fs (checkpoint_path (path t) (v / 10)))
                 (for_each (apply_checkpoint_row self))) (λ _, True)).
    { eapply upholds_bind; [apply upholds_reads, reads_fs_read_table |].
      intros rows _. apply upholds_for_each, under_apply_checkpoint_row. }
    by destruct (Hrest σ1 H1). }
  assert (Hall : under self (path t) fl
            (bind (_apply_from_checkpoint fs self (v / 10))
               (λ _, bind (_apply_partial_logs fs self v)
                       (λ _, bind (rebuild_dataset self) (λ _, ret self))) σ).2).
  { unfold bind at 1.
    destruct (_apply_from_checkpoint fs self (v / 10) σ) as [[[] | e] σ1];
      cbn [snd] in *; [| done].
    by destruct (under_as_version_rest fs self (path t) fl v σ1 Hfrom). }
  destruct Hall as (t' & s' & Ht' & Hp' & Hf' & Hs' & Hunder).
  unfold files_of. rewrite Ht'. cbn. rewrite Hf'. cbn. rewrite Hs'.
  intros [= <-]. apply Hunder.
Qed.

Lemma resolved_files_are_under_root_witness :
  let t := mkDeltaTable "tbl" None None None None in
  let σ := mkStore {[ 1%positive := t ]} ∅ in
  ∃ p, "tbl/A" = data_path (path t) p.
Proof.
  intros t σ.
  apply (resolved_files_are_under_root checkpointed 1%positive 1 σ t
           {[ "tbl/A"; "tbl/B" ]} "tbl/A").
  - vm_compute. reflexivity.
  - vm_compute. reflexivity.
  - apply elem_of_union. left. by apply elem_of_singleton.
Defined.


(** *** The test for a Delta table *)



End Extra.
